(** * pyspatialopt: the covering models of [pyspatialopt/models/covering.py]

    A shallow embedding of the coverage store operations
    ([update_serviceable_demand], [validate_coverage], [merge_coverages]) and
    of the model builders, followed by the properties of the specification
    that were checked against them and by further properties of the code.

    Conventions of the embedding.
    - A Python [dict] with string keys is an association list in insertion
      order; a loop over a dict visits its keys in that order.  Demand and
      facility identifiers are strings.
    - Python numbers (int, finite float) are the rationals they denote;
      comparisons, zero tests and [==] are the exact ones.  Where Python
      rounds a float result (the running totals of lines 14-17, 290-292 and
      366-368, the quotient of lines 298 and 372, the difference of line
      637) the embedding keeps the exact rational, and the properties below
      state of such a result only what holds of the rounded one as well: a
      float sum of non-negative weights, the weights of the data model, is
      zero exactly when the exact sum is, and rounding keeps signs and the
      bounds 0 and 1.
    - Raising an exception is returning [Err]; code that mutates an object
      or creates pulp variables threads that state explicitly and hands it
      back also when it raises.
    - [copy.deepcopy] is the identity on immutable values.
    - Builders are embedded for [model_file=None]: writing the LP file is
      outside the model. *)

From Stdlib Require Import String Ascii List Bool Arith ZArith QArith Lia Lqa.
Import ListNotations.

Set Implicit Arguments.
Open Scope string_scope.
Open Scope list_scope.
Open Scope Q_scope.

(* ================================================================== *)
(** * The Python fragment used by the source *)
(* ================================================================== *)

Notation "a +++ b" := (String.append a b) (at level 60, right associativity).

(** Arguments of a [str.format] message. *)
Inductive fmt_arg : Type :=
| AStr (s : string)
| AStrList (l : list string).

(** A message is kept as its template and arguments. *)
Record message : Type := Msg { template : string; fmt_args : list fmt_arg }.

Inductive exn : Type :=
| KeyError (key : string)
| ValueError (msg : message)
| TypeError (msg : string)
| IndexError (msg : string)
| AttributeError (msg : string)
| ZeroDivisionError (msg : string).

Inductive result (A : Type) : Type :=
| OK (a : A)
| Err (e : exn).
Arguments OK {A} a.
Arguments Err {A} e.

Definition bindE {A B} (c : result A) (k : A -> result B) : result B :=
  match c with
  | OK a => k a
  | Err e => Err e
  end.

Declare Scope result_scope.
Delimit Scope result_scope with result.
Notation "x <- c ;; k" := (bindE c (fun x => k))
  (at level 61, c at next level, right associativity) : result_scope.
Notation "c ;; k" := (bindE c (fun _ => k))
  (at level 61, right associativity) : result_scope.

(** State and exceptions: the state survives a raise. *)
Definition M (S A : Type) : Type := S -> S * result A.

Definition ret {S A} (a : A) : M S A := fun s => (s, OK a).
Definition lift {S A} (c : result A) : M S A := fun s => (s, c).
Definition bindM {S A B} (c : M S A) (k : A -> M S B) : M S B :=
  fun s => match c s with
           | (s', OK a) => k a s'
           | (s', Err e) => (s', Err e)
           end.

Declare Scope state_scope.
Delimit Scope state_scope with state.
Notation "x <- c ;; k" := (bindM c (fun x => k))
  (at level 61, c at next level, right associativity) : state_scope.
Notation "c ;; k" := (bindM c (fun _ => k))
  (at level 61, right associativity) : state_scope.

(** [for a in l: s = f(s, a)] with a body that may raise. *)
Fixpoint foldE {A S} (f : S -> A -> result S) (l : list A) (s : S) : result S :=
  match l with
  | [] => OK s
  | a :: l' => bindE (f s a) (foldE f l')
  end.

(** The same loop when the body also changes the threaded state. *)
Fixpoint foldM {T A S} (f : S -> A -> M T S) (l : list A) (s : S) : M T S :=
  match l with
  | [] => ret s
  | a :: l' => bindM (f s a) (foldM f l')
  end.

(** ** Dictionaries *)

Definition dict (V : Type) : Type := list (string * V).

Fixpoint lookup {V} (k : string) (d : dict V) : option V :=
  match d with
  | [] => None
  | (k', v) :: d' => if String.eqb k k' then Some v else lookup k d'
  end.

(** [d[k] = v]: an existing key keeps its position, a new key goes last. *)
Fixpoint dict_set {V} (k : string) (v : V) (d : dict V) : dict V :=
  match d with
  | [] => [(k, v)]
  | (k', v') :: d' =>
      if String.eqb k k' then (k', v) :: d' else (k', v') :: dict_set k v d'
  end.

Definition keys {V} (d : dict V) : list string := map fst d.
Definition values {V} (d : dict V) : list V := map snd d.

(** [k in d] *)
Definition mem {V} (k : string) (d : dict V) : bool :=
  match lookup k d with Some _ => true | None => false end.

(** [d[k]], raising [KeyError(k)] *)
Definition getitem {V} (k : string) (d : dict V) : result V :=
  match lookup k d with
  | Some v => OK v
  | None => Err (KeyError k)
  end.

(** [x in l] for a list of strings *)
Definition str_in (x : string) (l : list string) : bool :=
  existsb (String.eqb x) l.

(** [set(l1) == set(l2)] *)
Definition set_eqb (l1 l2 : list string) : bool :=
  forallb (fun x => str_in x l2) l1 && forallb (fun x => str_in x l1) l2.

(** [d1 == d2] on dicts: same keys, equal values, whatever the order. *)
Definition dict_eqb {V} (veqb : V -> V -> bool) (d1 d2 : dict V) : bool :=
  let sub a b :=
    forallb (fun k => match lookup k a, lookup k b with
                      | Some x, Some y => veqb x y
                      | _, _ => false
                      end) (keys a) in
  sub d1 d2 && sub d2 d1.

(** [s.split(c)] for a one-character separator. *)
Fixpoint split_on (c : ascii) (s : string) : list string :=
  match s with
  | EmptyString => [EmptyString]
  | String a rest =>
      if Ascii.eqb a c then EmptyString :: split_on c rest
      else match split_on c rest with
           | [] => [String a EmptyString]
           | w :: ws => String a w :: ws
           end
  end.

(** [l[i]] *)
Definition list_index {A} (l : list A) (i : nat) : result A :=
  match nth_error l i with
  | Some a => OK a
  | None => Err (IndexError "list index out of range")
  end.

(* ================================================================== *)
(** * The optimisation problem (pulp) *)
(* ================================================================== *)

(** Modelled from the spec: the pulp package is not part of the sources.
    Its objects follow the specification's OptimizationProblem: variables
    with an identity, a domain and bounds; linear expressions over them; an
    objective with a sense; an ordered collection of named constraints, each
    with a comparison operator and a right-hand side.  [var_id] stands for
    the identity of the Python object (pulp hashes a variable by [id]); it
    is the number of variables created before it.  Names are kept as given:
    the specification makes distinct identifiers the caller's duty, so
    pulp's rewriting and checking of names is left out. *)

Inductive LpCategory : Type := LpContinuous | LpInteger.
Inductive LpSense : Type := LpMinimize | LpMaximize.
Inductive LpConstraintSense : Type :=
| LpConstraintLE | LpConstraintEQ | LpConstraintGE.

Record LpVariable : Type := mkLpVariable {
  var_id : nat;
  var_name : string;
  lowBound : option Q;
  upBound : option Q;
  cat : LpCategory
}.

(** Every variable created so far, oldest first. *)
Definition heap : Type := list LpVariable.

(** [pulp.LpVariable(name, lowBound, upBound, cat)] *)
Definition pulp_LpVariable (name : string) (low up : option Q)
    (c : LpCategory) : M heap LpVariable :=
  fun h => let v := mkLpVariable (length h) name low up c in (h ++ [v], OK v).

(** An affine expression: coefficient per variable, plus a constant. *)
Record LpAffineExpression : Type := mkExpr {
  terms : list (LpVariable * Q);
  constant : Q
}.

Definition empty_expr : LpAffineExpression := mkExpr [] 0.

(** [LpAffineExpression(v)] *)
Definition expr_of_var (v : LpVariable) : LpAffineExpression :=
  mkExpr [(v, 1)] 0.

(** [addterm]: a coefficient already present and non-zero is increased, the
    variable is entered otherwise. *)
Fixpoint addterm_list (key : LpVariable) (value : Q)
    (ts : list (LpVariable * Q)) : list (LpVariable * Q) :=
  match ts with
  | [] => [(key, value)]
  | (v, x) :: ts' =>
      if Nat.eqb (var_id v) (var_id key)
      then (v, if Qeq_bool x 0 then value else x + value) :: ts'
      else (v, x) :: addterm_list key value ts'
  end.

Definition addterm (key : LpVariable) (value : Q)
    (e : LpAffineExpression) : LpAffineExpression :=
  mkExpr (addterm_list key value (terms e)) (constant e).

(** What the source adds to or subtracts from an expression. *)
Inductive operand : Type :=
| ONum (q : Q)
| OVar (v : LpVariable)
| OExpr (e : LpAffineExpression)
| ODict (d : dict LpVariable).

(** [addInPlace] with its sign ([1] adds, [-1] subtracts): a variable enters
    with the sign, an expression term by term, a dict value by value, a
    number goes to the constant. *)
Definition addInPlace (sign : Q) (e : LpAffineExpression)
    (other : operand) : LpAffineExpression :=
  match other with
  | ONum q => mkExpr (terms e) (constant e + q * sign)
  | OVar v => addterm v sign e
  | OExpr e' =>
      fold_left (fun acc t => addterm (fst t) (snd t * sign) acc) (terms e')
                (mkExpr (terms e) (constant e + constant e' * sign))
  | ODict d => fold_left (fun acc v => addterm v sign acc) (values d) e
  end.

(** [pulp.lpSum(l)] *)
Definition lpSum (l : list operand) : LpAffineExpression :=
  fold_left (addInPlace 1) l empty_expr.

(** [e - other] *)
Definition expr_sub (e : LpAffineExpression) (other : operand)
  : LpAffineExpression := addInPlace (-1) e other.

(** [q * v] for a number [q]: the empty expression when [q] is zero. *)
Definition rmul (q : Q) (v : LpVariable) : LpAffineExpression :=
  if Qeq_bool q 0 then empty_expr else mkExpr [(v, q * 1)] (0 * q).

Record LpConstraint : Type := mkLpConstraint {
  c_lhs : LpAffineExpression;
  c_sense : LpConstraintSense;
  c_rhs : Q
}.

(** [e >= q], [e <= q], [e == q] *)
Definition expr_ge (e : LpAffineExpression) (q : Q) : LpConstraint :=
  mkLpConstraint e LpConstraintGE q.
Definition expr_le (e : LpAffineExpression) (q : Q) : LpConstraint :=
  mkLpConstraint e LpConstraintLE q.
Definition expr_eq (e : LpAffineExpression) (q : Q) : LpConstraint :=
  mkLpConstraint e LpConstraintEQ q.

Record LpProblem : Type := mkLpProblem {
  prob_name : string;
  prob_sense : LpSense;
  objective : option LpAffineExpression;
  constraints : list (option string * LpConstraint)
}.

(** [pulp.LpProblem(name, sense)] *)
Definition new_LpProblem (name : string) (s : LpSense) : LpProblem :=
  mkLpProblem name s None [].

(** [prob += e] *)
Definition set_objective (prob : LpProblem) (e : LpAffineExpression)
  : LpProblem :=
  mkLpProblem (prob_name prob) (prob_sense prob) (Some e) (constraints prob).

(** [prob += c, name] and [prob += c] *)
Definition add_constraint (prob : LpProblem) (c : LpConstraint)
    (name : option string) : LpProblem :=
  mkLpProblem (prob_name prob) (prob_sense prob) (objective prob)
              (constraints prob ++ [(name, c)]).

(** ** Meaning of a problem *)

(** A value for every variable object. *)
Definition assignment : Type := nat -> Q.

Definition eval_terms (a : assignment) (ts : list (LpVariable * Q)) : Q :=
  fold_right (fun t acc => snd t * a (var_id (fst t)) + acc) 0 ts.

Definition eval (a : assignment) (e : LpAffineExpression) : Q :=
  eval_terms a (terms e) + constant e.

Definition satisfies (a : assignment) (c : LpConstraint) : Prop :=
  match c_sense c with
  | LpConstraintLE => eval a (c_lhs c) <= c_rhs c
  | LpConstraintEQ => eval a (c_lhs c) == c_rhs c
  | LpConstraintGE => c_rhs c <= eval a (c_lhs c)
  end.

Definition in_domain (a : assignment) (v : LpVariable) : Prop :=
  (forall lo, lowBound v = Some lo -> lo <= a (var_id v)) /\
  (forall up, upBound v = Some up -> a (var_id v) <= up) /\
  (cat v = LpInteger -> exists z : Z, a (var_id v) == inject_Z z).

(** The variables a problem mentions. *)
Definition expr_vars (e : LpAffineExpression) : list LpVariable :=
  map fst (terms e).

Definition problem_vars (prob : LpProblem) : list LpVariable :=
  match objective prob with Some e => expr_vars e | None => [] end ++
  flat_map (fun nc => expr_vars (c_lhs (snd nc))) (constraints prob).

Definition feasible (a : assignment) (prob : LpProblem) : Prop :=
  (forall nc, In nc (constraints prob) -> satisfies a (snd nc)) /\
  (forall v, In v (problem_vars prob) -> in_domain a v).

(* ================================================================== *)
(** * The coverage store *)
(* ================================================================== *)

(** Facility metadata is opaque to this module; only its equality is used. *)
Definition metadata : Type := string.

(** One facility type of a demand unit's ["coverage"]: facility id to
    strength for binary and partial coverage, a list of records (facility
    type to id) for the trauma model. *)
Inductive cov_entry : Type :=
| CovDict (m : dict Q)
| CovList (l : list (dict string)).

(** The value under ["serviceableDemand"]: a number, or the coverage entry
    that line 89 stores there. *)
Inductive pyval : Type :=
| VNum (q : Q)
| VEntry (e : cov_entry).

(** [coverage["demand"][d]]: keys ["demand"], ["serviceableDemand"],
    ["coverage"]. *)
Record DemandRecord : Type := mkDemandRecord {
  d_demand : Q;
  d_serviceableDemand : pyval;
  d_coverage : dict cov_entry
}.

(** The coverage dictionary: keys ["type"] (absent, or a dict of strings
    with ["type"] and ["mode"]), ["facilities"], ["demand"],
    ["totalServiceableDemand"]. *)
Record Coverage : Type := mkCoverage {
  c_type : option (dict string);
  c_facilities : dict (dict metadata);
  c_demand : dict DemandRecord;
  c_totalServiceableDemand : Q
}.

Definition with_serviceableDemand (r : DemandRecord) (v : pyval)
  : DemandRecord := mkDemandRecord (d_demand r) v (d_coverage r).
Definition with_coverage (r : DemandRecord) (c : dict cov_entry)
  : DemandRecord := mkDemandRecord (d_demand r) (d_serviceableDemand r) c.
Definition with_facilities (c : Coverage) (f : dict (dict metadata))
  : Coverage :=
  mkCoverage (c_type c) f (c_demand c) (c_totalServiceableDemand c).
Definition with_demand (c : Coverage) (dm : dict DemandRecord) : Coverage :=
  mkCoverage (c_type c) (c_facilities c) dm (c_totalServiceableDemand c).
Definition with_total (c : Coverage) (t : Q) : Coverage :=
  mkCoverage (c_type c) (c_facilities c) (c_demand c) t.

(** The serviceable-demand dictionary handed to the update:
    [sd["demand"][d]["serviceableDemand"]], a number. *)
Record sd_record : Type := mkSdRecord { sd_serviceableDemand : Q }.
Record ServiceableDemand : Type := mkServiceableDemand {
  sd_demand : dict sd_record
}.

(** [total += v] on a float accumulator; the sum is kept exact. *)
Definition add_number (total : Q) (v : pyval) : result Q :=
  match v with
  | VNum q => OK (total + q)
  | VEntry _ => Err (TypeError "unsupported operand type(s) for +=")
  end.

(** ** [update_serviceable_demand] (lines 6-19)

    The store is mutated in place, so it is the threaded state: the first
    component of the outcome is the store after the call, also when the call
    raises. *)

Section UpdateServiceableDemand.
Local Open Scope state_scope.

(** [coverage["demand"][demand]["serviceableDemand"] = v] *)
Definition store_serviceableDemand (demand : string) (v : pyval)
  : M Coverage unit :=
  fun coverage =>
    match lookup demand (c_demand coverage) with
    | Some r =>
        (with_demand coverage
           (dict_set demand (with_serviceableDemand r v) (c_demand coverage)),
         OK tt)
    | None => (coverage, Err (KeyError demand))
    end.

(** Lines 16-17, one turn of the loop. *)
Definition update_one (sd : ServiceableDemand) (total : Q) (demand : string)
  : M Coverage Q :=
  r <- lift (getitem demand (sd_demand sd)) ;;
  store_serviceableDemand demand (VNum (sd_serviceableDemand r)) ;;
  r' <- lift (getitem demand (sd_demand sd)) ;;
  ret (total + sd_serviceableDemand r').

Definition update_serviceable_demand (coverage : Coverage)
    (sd : ServiceableDemand) : Coverage * result unit :=
  (total_serviceable_demand <-
     foldM (update_one sd) (keys (c_demand coverage)) 0 ;;
   fun coverage' => (with_total coverage' total_serviceable_demand, OK tt))
  coverage.
End UpdateServiceableDemand.

(** ** [validate_coverage] (lines 22-39) *)

Definition validate_coverage (coverage_dict : Coverage)
    (modes types : list string) : result unit :=
  match c_type coverage_dict with
  | None => Err (KeyError "'type' not found in coverage_dict")
  | Some t =>
      match lookup "type" t with
      | None => Err (KeyError "'type' not found in coverage_dict['type']")
      | Some ty =>
          if negb (str_in ty types)
          then Err (ValueError (Msg "Expected types: '{}' got type '{}'"
                                    [AStrList types; AStr ty]))
          else
            match lookup "mode" t with
            | None =>
                Err (KeyError "'mode' not found in coverage_dict['type']")
            | Some mode =>
                if negb (str_in mode modes)
                then Err (ValueError (Msg "Expected modes: '{}' got mode '{}'"
                                          [AStrList modes; AStr mode]))
                else OK tt
            end
      end
  end.

(** ** [merge_coverages] (lines 42-91) *)

Section MergeCoverages.
Local Open Scope result_scope.

(** The three accumulators of the first loop. *)
Record merge_checks : Type := mkMergeChecks {
  facility_types : list (string * dict metadata);
  demand_keys : list (list string);
  coverage_type : option string
}.

(** [(name, facilities) == (name', facilities')] on [.items()] pairs *)
Definition item_eqb (a b : string * dict metadata) : bool :=
  String.eqb (fst a) (fst b) && dict_eqb String.eqb (snd a) (snd b).

(** Lines 60-64. *)
Definition check_facility_type (facility_types : list (string * dict metadata))
    (facility_type : string * dict metadata)
  : result (list (string * dict metadata)) :=
  if negb (existsb (item_eqb facility_type) facility_types)
  then OK (facility_types ++ [facility_type])
  else Err (ValueError (Msg "Conflicting facility types" [])).

(** Lines 55-65, one turn of the first loop. *)
Definition check_coverage (st : merge_checks) (coverage : Coverage)
  : result merge_checks :=
  coverage_type <-
    match coverage_type st with
    | None =>
        t <- match c_type coverage with
             | Some t => OK t
             | None => Err (KeyError "type")
             end ;;
        ty <- getitem "type" t ;;
        OK ty
    | Some ty => OK ty
    end ;;
  validate_coverage coverage ["coverage"] [coverage_type] ;;
  facility_types <-
    foldE check_facility_type (c_facilities coverage) (facility_types st) ;;
  OK (mkMergeChecks facility_types
                    (demand_keys st ++ [keys (c_demand coverage)])
                    (Some coverage_type)).

(** Lines 67-70. *)
Definition check_demand_keys (demand_keys : list (list string))
  : result unit :=
  foldE (fun _ keys1 =>
           foldE (fun _ keys2 =>
                    if negb (set_eqb keys1 keys2)
                    then Err (ValueError (Msg "Demand Keys Invalid" []))
                    else OK tt)
                 demand_keys tt)
        demand_keys tt.

(** Lines 75-78. *)
Definition merge_facility_type (coverage : Coverage) (master : Coverage)
    (facility_type : string) : result Coverage :=
  let master :=
    if negb (mem facility_type (c_facilities master))
    then with_facilities master
           (dict_set facility_type [] (c_facilities master))
    else master in
  fs <- getitem facility_type (c_facilities coverage) ;;
  OK (with_facilities master
        (dict_set facility_type fs (c_facilities master))).

(** [master["demand"][demand]["coverage"]] *)
Definition master_coverage_of (master : Coverage) (demand : string)
  : result (dict cov_entry) :=
  r <- getitem demand (c_demand master) ;;
  OK (d_coverage r).

(** [master["demand"][demand]["coverage"][facility_type] = e] *)
Definition set_master_entry (master : Coverage) (demand facility_type : string)
    (e : cov_entry) : result Coverage :=
  r <- getitem demand (c_demand master) ;;
  OK (with_demand master
        (dict_set demand
           (with_coverage r (dict_set facility_type e (d_coverage r)))
           (c_demand master))).

(** [master["demand"][demand]["serviceableDemand"] = v] *)
Definition set_master_serviceableDemand (master : Coverage)
    (demand : string) (v : pyval) : result Coverage :=
  r <- getitem demand (c_demand master) ;;
  OK (with_demand master
        (dict_set demand (with_serviceableDemand r v) (c_demand master))).

(** Lines 85-90, one facility of one facility type of one demand unit. *)
Definition merge_fac (coverage_type : option string) (coverage : Coverage)
    (demand facility_type : string) (master : Coverage) (fac : string)
  : result Coverage :=
  r <- getitem demand (c_demand coverage) ;;
  e <- getitem facility_type (d_coverage r) ;;
  v <- match e with
       | CovDict m => getitem fac m
       | CovList _ => Err (TypeError "list indices must be integers")
       end ;;
  mc <- master_coverage_of master demand ;;
  me <- getitem facility_type mc ;;
  master <-
    match me with
    | CovDict mm =>
        set_master_entry master demand facility_type
                         (CovDict (dict_set fac v mm))
    | CovList _ => Err (TypeError "list indices must be integers")
    end ;;
  if match coverage_type with
     | Some ty => String.eqb ty "Binary"
     | None => false
     end && Qeq_bool v 1
  then
    sdv <- getitem "demand" (d_coverage r) ;;
    set_master_serviceableDemand master demand (VEntry sdv)
  else OK master.

(** Lines 81-90, one facility type of one demand unit. *)
Definition merge_entry (coverage_type : option string) (coverage : Coverage)
    (demand : string) (master : Coverage) (facility_type : string)
  : result Coverage :=
  mc <- master_coverage_of master demand ;;
  master <-
    (if negb (mem facility_type mc)
     then set_master_entry master demand facility_type (CovDict [])
     else OK master) ;;
  r <- getitem demand (c_demand coverage) ;;
  e <- getitem facility_type (d_coverage r) ;;
  facs <- match e with
          | CovDict m => OK (keys m)
          | CovList _ =>
              Err (AttributeError "'list' object has no attribute 'keys'")
          end ;;
  foldE (merge_fac coverage_type coverage demand facility_type) facs master.

(** Lines 80-90, one demand unit. *)
Definition merge_demand (coverage_type : option string) (coverage : Coverage)
    (master : Coverage) (demand : string) : result Coverage :=
  r <- getitem demand (c_demand coverage) ;;
  foldE (merge_entry coverage_type coverage demand)
        (keys (d_coverage r)) master.

(** Lines 73-90, one turn of the second loop. *)
Definition merge_one (coverage_type : option string) (master : Coverage)
    (c : Coverage) : result Coverage :=
  let coverage := c in
  master <- foldE (merge_facility_type coverage)
                  (keys (c_facilities coverage)) master ;;
  foldE (merge_demand coverage_type coverage)
        (keys (c_demand coverage)) master.

Definition merge_coverages (coverages : list Coverage) : result Coverage :=
  st <- foldE check_coverage coverages (mkMergeChecks [] [] None) ;;
  check_demand_keys (demand_keys st) ;;
  master_coverage <- list_index coverages 0 ;;
  foldE (merge_one (coverage_type st)) (tl coverages) master_coverage.
End MergeCoverages.

(* ================================================================== *)
(** * The model builders *)
(* ================================================================== *)

(** A numeric argument of a builder ([psi], [backup_weight]): a float or an
    int, or an object of another type. *)
Inductive pyarg : Type :=
| ArgNum (q : Q)
| ArgOther.

(** [coverage_dict["demand"][demand_id][demand_var]] for the two values
    [demand_var] takes. *)
Definition record_field (r : DemandRecord) (demand_var : string)
  : result pyval :=
  if String.eqb demand_var "demand" then OK (VNum (d_demand r))
  else if String.eqb demand_var "serviceableDemand"
       then OK (d_serviceableDemand r)
       else Err (KeyError demand_var).

(** A demand weight where the source computes with it.  A weight that is
    not a number (only line 89 can store one) is reported as the [TypeError]
    of the arithmetic; what pulp makes of such a value on the right of a
    comparison (lines 364 and 666-672) is not modelled. *)
Definition as_number (v : pyval) : result Q :=
  match v with
  | VNum q => OK q
  | VEntry _ => Err (TypeError "unsupported operand type(s)")
  end.

Definition demand_var_of (use_serviceable_demand : bool) : string :=
  if use_serviceable_demand then "serviceableDemand" else "demand".

Section Builders.
Local Open Scope state_scope.

Variable coverage_dict : Coverage.
Variable delineator : string.

(** [for demand_id in coverage_dict["demand"]:
       demand_vars[demand_id] = pulp.LpVariable(prefix + delineator + demand_id, ...)] *)
Definition create_demand_var (prefix : string) (low up : option Q)
    (c : LpCategory) (demand_vars : dict LpVariable) (demand_id : string)
  : M heap (dict LpVariable) :=
  v <- pulp_LpVariable (prefix +++ delineator +++ demand_id) low up c ;;
  ret (dict_set demand_id v demand_vars).

Definition create_demand_vars (prefix : string) (low up : option Q)
    (c : LpCategory) : M heap (dict LpVariable) :=
  foldM (create_demand_var prefix low up c)
        (keys (c_demand coverage_dict)) [].

(** The [facility_vars] loops, shared by every builder. *)
Definition create_facility_var (facility_type : string) (low up : option Q)
    (c : LpCategory) (vars : dict LpVariable) (facility_id : string)
  : M heap (dict LpVariable) :=
  v <- pulp_LpVariable (facility_type +++ delineator +++ facility_id)
                       low up c ;;
  ret (dict_set facility_id v vars).

Definition create_facility_type_vars (low up : option Q) (c : LpCategory)
    (facility_vars : dict (dict LpVariable)) (facility_type : string)
  : M heap (dict (dict LpVariable)) :=
  let facility_vars := dict_set facility_type [] facility_vars in
  fs <- lift (getitem facility_type (c_facilities coverage_dict)) ;;
  vars <- foldM (create_facility_var facility_type low up c) (keys fs) [] ;;
  ret (dict_set facility_type vars facility_vars).

Definition create_facility_vars (low up : option Q) (c : LpCategory)
  : M heap (dict (dict LpVariable)) :=
  foldM (create_facility_type_vars low up c)
        (keys (c_facilities coverage_dict)) [].

Local Open Scope result_scope.

(** [facility_vars[facility_type][facility_id]] *)
Definition facility_var (facility_vars : dict (dict LpVariable))
    (facility_type facility_id : string) : result LpVariable :=
  vars <- getitem facility_type facility_vars ;;
  getitem facility_id vars.

(** [for facility_id in coverage_dict["facilities"][facility_type]:
       to_sum.append(facility_vars[facility_type][facility_id])] *)
Definition sum_facility_type (facility_vars : dict (dict LpVariable))
    (to_sum : list operand) (facility_type : string)
  : result (list operand) :=
  fs <- getitem facility_type (c_facilities coverage_dict) ;;
  foldE (fun to_sum facility_id =>
           v <- facility_var facility_vars facility_type facility_id ;;
           OK (to_sum ++ [OVar v]))
        (keys fs) to_sum.

(** The same over every facility type. *)
Definition sum_all_facilities (facility_vars : dict (dict LpVariable))
  : result (list operand) :=
  foldE (sum_facility_type facility_vars)
        (keys (c_facilities coverage_dict)) [].

(** The objective list [[w[d] * demand_vars[d] for d in demand]]. *)
Definition weighted_demand_terms (demand_var : string)
    (demand_vars : dict LpVariable) : result (list operand) :=
  foldE (fun acc demand_id =>
           r <- getitem demand_id (c_demand coverage_dict) ;;
           w <- record_field r demand_var ;;
           v <- getitem demand_id demand_vars ;;
           q <- as_number w ;;
           OK (acc ++ [OExpr (rmul q v)]))
        (keys (c_demand coverage_dict)) [].

(** Binary coverage, the inner loops of a demand unit:
    [to_sum.append(facility_vars[facility_type][facility_id])]. *)
Definition covering_type (facility_vars : dict (dict LpVariable))
    (r : DemandRecord) (to_sum : list operand) (facility_type : string)
  : result (list operand) :=
  e <- getitem facility_type (d_coverage r) ;;
  match e with
  | CovDict m =>
      foldE (fun to_sum facility_id =>
               v <- facility_var facility_vars facility_type facility_id ;;
               OK (to_sum ++ [OVar v]))
            (keys m) to_sum
  | CovList [] => OK to_sum
  | CovList (_ :: _) =>
      getitem facility_type facility_vars ;;
      Err (TypeError "unhashable type: 'dict'")
  end.

Definition covering_vars (facility_vars : dict (dict LpVariable))
    (demand_id : string) : result (list operand) :=
  r <- getitem demand_id (c_demand coverage_dict) ;;
  foldE (covering_type facility_vars r) (keys (d_coverage r)) [].

(** Partial coverage, the inner loops of a demand unit:
    [to_sum.append(coverage[...][facility_id] *
                   facility_vars[facility_type][facility_id])]. *)
Definition weighted_covering_type (facility_vars : dict (dict LpVariable))
    (r : DemandRecord) (to_sum : list operand) (facility_type : string)
  : result (list operand) :=
  e <- getitem facility_type (d_coverage r) ;;
  match e with
  | CovDict m =>
      foldE (fun to_sum facility_id =>
               q <- getitem facility_id m ;;
               v <- facility_var facility_vars facility_type facility_id ;;
               OK (to_sum ++ [OExpr (rmul q v)]))
            (keys m) to_sum
  | CovList [] => OK to_sum
  | CovList (_ :: _) => Err (TypeError "list indices must be integers")
  end.

Definition weighted_covering_terms (facility_vars : dict (dict LpVariable))
    (demand_id : string) : result (list operand) :=
  r <- getitem demand_id (c_demand coverage_dict) ;;
  foldE (weighted_covering_type facility_vars r) (keys (d_coverage r)) [].

(** [coverage_dict["demand"][demand_id][demand_var]] as a number *)
Definition demand_weight (demand_var demand_id : string) : result Q :=
  r <- getitem demand_id (c_demand coverage_dict) ;;
  w <- record_field r demand_var ;;
  as_number w.

(** [sum_demand = 0; for demand_id in ...: sum_demand += w[demand_id]] *)
Definition sum_demand_of (demand_var : string) : result Q :=
  foldE (fun sum_demand demand_id =>
           r <- getitem demand_id (c_demand coverage_dict) ;;
           w <- record_field r demand_var ;;
           add_number sum_demand w)
        (keys (c_demand coverage_dict)) 0.

(** [float(100 / sum_demand)]; the quotient is kept exact. *)
Definition hundred_over (sum_demand : Q) : result Q :=
  if Qeq_bool sum_demand 0
  then Err (ZeroDivisionError "division by zero")
  else OK (100 / sum_demand).

(** The two blocks "Number of total facilities" and "Number of other
    facility types" (lines 435-447 and 674-686). *)
Definition facility_count_type (num_fac : dict Q)
    (facility_vars : dict (dict LpVariable)) (prob : LpProblem)
    (facility_type : string) : result LpProblem :=
  if mem facility_type num_fac && negb (String.eqb facility_type "total")
  then
    to_sum <- sum_facility_type facility_vars [] facility_type ;;
    n <- getitem facility_type num_fac ;;
    OK (add_constraint prob (expr_le (lpSum to_sum) n)
                       (Some ("Num" +++ facility_type)))
  else OK prob.

Definition facility_count_constraints (num_fac : dict Q)
    (facility_vars : dict (dict LpVariable)) (prob : LpProblem)
  : result LpProblem :=
  to_sum <- sum_all_facilities facility_vars ;;
  total <- getitem "total" num_fac ;;
  let prob := add_constraint prob (expr_le (lpSum to_sum) total)
                             (Some "NumTotalFacilities") in
  foldE (facility_count_type num_fac facility_vars)
        (keys (c_facilities coverage_dict)) prob.

(** The linking row of the binary models:
    [lpSum(to_sum) - 1 * demand_vars[demand_id] >= rhs, "D" + demand_id]. *)
Definition binary_row (rhs : Q) (demand_vars : dict LpVariable)
    (facility_vars : dict (dict LpVariable)) (prob : LpProblem)
    (demand_id : string) : result LpProblem :=
  to_sum <- covering_vars facility_vars demand_id ;;
  y <- getitem demand_id demand_vars ;;
  OK (add_constraint prob
        (expr_ge (expr_sub (lpSum to_sum) (OExpr (rmul 1 y))) rhs)
        (Some ("D" +++ demand_id))).

(** The psi checks of lines 257-260 and 330-333. *)
Definition check_psi (psi : pyarg) : result Q :=
  match psi with
  | ArgOther => Err (TypeError "backup weight is not float or int")
  | ArgNum q =>
      if negb (Qle_bool q 100) || negb (Qle_bool 0 q)
      then Err (ValueError (Msg "psi weight must be between 100 and 0" []))
      else OK q
  end.
End Builders.

Section ModelBuilders.
Local Open Scope state_scope.

(** ** [create_threshold_model] (lines 234-303) *)

(** Lines 295-299. *)
Definition threshold_terms (coverage_dict : Coverage) (demand_var : string)
    (sum_demand : Q) (demand_vars : dict LpVariable)
  : result (list operand) :=
  foldE (fun to_sum demand_id =>
           (h <- hundred_over sum_demand ;;
            w <- demand_weight coverage_dict demand_var demand_id ;;
            let scaled_demand := h * w in
            y <- getitem demand_id demand_vars ;;
            OK (to_sum ++ [OExpr (rmul scaled_demand y)]))%result)
        (keys (c_demand coverage_dict)) [].

Definition create_threshold_model (coverage_dict : Coverage) (psi : pyarg)
    (delineator : string) (use_serviceable_demand : bool)
  : M heap LpProblem :=
  let demand_var := demand_var_of use_serviceable_demand in
  lift (validate_coverage coverage_dict ["coverage"] ["binary"]) ;;
  psi <- lift (check_psi psi) ;;
  demand_vars <- create_demand_vars coverage_dict delineator
                   "Y" (Some 0) (Some 1) LpInteger ;;
  facility_vars <- create_facility_vars coverage_dict delineator
                     (Some 0) (Some 1) LpInteger ;;
  let prob := new_LpProblem "ThresholdModel" LpMinimize in
  to_sum <- lift (sum_all_facilities coverage_dict facility_vars) ;;
  let prob := set_objective prob (lpSum to_sum) in
  prob <- lift (foldE (binary_row coverage_dict 0 demand_vars facility_vars)
                      (keys (c_demand coverage_dict)) prob) ;;
  sum_demand <- lift (sum_demand_of coverage_dict demand_var) ;;
  to_sum <- lift (threshold_terms coverage_dict demand_var sum_demand
                                  demand_vars) ;;
  ret (add_constraint prob (expr_ge (lpSum to_sum) psi) None).

(** ** [create_cc_threshold_model] (lines 306-377) *)

(** Lines 358-364, one demand unit. *)
Definition cc_rows (coverage_dict : Coverage) (demand_var : string)
    (demand_vars : dict LpVariable) (facility_vars : dict (dict LpVariable))
    (prob : LpProblem) (demand_id : string) : result LpProblem :=
  (to_sum <- weighted_covering_terms coverage_dict facility_vars demand_id ;;
   y <- getitem demand_id demand_vars ;;
   let prob :=
     add_constraint prob
       (expr_ge (expr_sub (lpSum to_sum) (OExpr (rmul 1 y))) 0)
       (Some ("D" +++ demand_id)) in
   y <- getitem demand_id demand_vars ;;
   w <- demand_weight coverage_dict demand_var demand_id ;;
   OK (add_constraint prob (expr_le (expr_of_var y) w) None))%result.

(** Lines 369-373. *)
Definition cc_threshold_terms (coverage_dict : Coverage) (sum_demand : Q)
    (demand_vars : dict LpVariable) : result (list operand) :=
  foldE (fun to_sum demand_id =>
           (scaled_demand <- hundred_over sum_demand ;;
            y <- getitem demand_id demand_vars ;;
            OK (to_sum ++ [OExpr (rmul scaled_demand y)]))%result)
        (keys (c_demand coverage_dict)) [].

Definition create_cc_threshold_model (coverage_dict : Coverage)
    (psi : pyarg) (delineator : string) (use_serviceable_demand : bool)
  : M heap LpProblem :=
  let demand_var := demand_var_of use_serviceable_demand in
  lift (validate_coverage coverage_dict ["coverage"] ["partial"]) ;;
  psi <- lift (check_psi psi) ;;
  demand_vars <- create_demand_vars coverage_dict delineator
                   "Y" (Some 0) None LpContinuous ;;
  facility_vars <- create_facility_vars coverage_dict delineator
                     (Some 0) (Some 1) LpInteger ;;
  let prob := new_LpProblem "ThresholdModel" LpMinimize in
  to_sum <- lift (sum_all_facilities coverage_dict facility_vars) ;;
  let prob := set_objective prob (lpSum to_sum) in
  prob <- lift (foldE (cc_rows coverage_dict demand_var demand_vars
                               facility_vars)
                      (keys (c_demand coverage_dict)) prob) ;;
  sum_demand <- lift (sum_demand_of coverage_dict demand_var) ;;
  to_sum <- lift (cc_threshold_terms coverage_dict sum_demand demand_vars) ;;
  ret (add_constraint prob (expr_ge (lpSum to_sum) psi) (Some "Threshold")).

(** ** [create_backup_model] (lines 380-450) *)

Definition create_backup_model (coverage_dict : Coverage)
    (num_fac : dict Q) (delineator : string)
    (use_serviceable_demand : bool) : M heap LpProblem :=
  let demand_var := demand_var_of use_serviceable_demand in
  lift (validate_coverage coverage_dict ["coverage"] ["binary"]) ;;
  demand_vars <- create_demand_vars coverage_dict delineator
                   "U" (Some 0) (Some 1) LpInteger ;;
  facility_vars <- create_facility_vars coverage_dict delineator
                     (Some 0) None LpInteger ;;
  let prob := new_LpProblem "BCLP" LpMaximize in
  obj <- lift (weighted_demand_terms coverage_dict demand_var demand_vars) ;;
  let prob := set_objective prob (lpSum obj) in
  prob <- lift (foldE (binary_row coverage_dict 1 demand_vars facility_vars)
                      (keys (c_demand coverage_dict)) prob) ;;
  lift (facility_count_constraints coverage_dict num_fac facility_vars prob).

(** ** [create_lscp_model] (lines 453-505) *)

(** Lines 493-502, one demand unit. *)
Definition lscp_row (coverage_dict : Coverage) (delineator : string)
    (facility_vars : dict (dict LpVariable)) (prob : LpProblem)
    (demand_id : string) : M heap LpProblem :=
  to_sum <- lift (covering_vars coverage_dict facility_vars demand_id) ;;
  to_sum <- match to_sum with
            | [] =>
                v <- pulp_LpVariable ("__dummy" +++ delineator +++ demand_id)
                                     (Some 0) (Some 0) LpInteger ;;
                ret [OVar v]
            | _ :: _ => ret to_sum
            end ;;
  ret (add_constraint prob (expr_ge (lpSum to_sum) 1)
                      (Some ("D" +++ demand_id))).

Definition create_lscp_model (coverage_dict : Coverage)
    (delineator : string) : M heap LpProblem :=
  lift (validate_coverage coverage_dict ["coverage"] ["binary"]) ;;
  demand_vars <- create_demand_vars coverage_dict delineator
                   "Y" (Some 0) (Some 1) LpInteger ;;
  facility_vars <- create_facility_vars coverage_dict delineator
                     (Some 0) (Some 1) LpInteger ;;
  let prob := new_LpProblem "LSCP" LpMinimize in
  to_sum <- lift (sum_all_facilities coverage_dict facility_vars) ;;
  let prob := set_objective prob (lpSum to_sum) in
  foldM (lscp_row coverage_dict delineator facility_vars)
        (keys (c_demand coverage_dict)) prob.
End ModelBuilders.

Section TraumaModel.
Local Open Scope state_scope.

Variable coverage_dict : Coverage.
Variable delineator : string.

(** ["Z{}{}{}{}".format(delineator, ad_id, delineator, tc_id)] *)
Definition adtc_name (ad_id tc_id : string) : string :=
  "Z" +++ delineator +++ ad_id +++ delineator +++ tc_id.

(** Lines 541-543: the three indicators of a demand unit. *)
Definition create_trauma_demand_vars
    (vars : dict LpVariable * dict LpVariable * dict LpVariable)
    (demand_id : string)
  : M heap (dict LpVariable * dict LpVariable * dict LpVariable) :=
  let '(demand_vars, ground_vars, air_vars) := vars in
  y <- pulp_LpVariable ("Y" +++ delineator +++ demand_id)
                       (Some 0) (Some 1) LpInteger ;;
  v <- pulp_LpVariable ("V" +++ delineator +++ demand_id)
                       (Some 0) (Some 1) LpInteger ;;
  u <- pulp_LpVariable ("U" +++ delineator +++ demand_id)
                       (Some 0) (Some 1) LpInteger ;;
  ret (dict_set demand_id y demand_vars,
       dict_set demand_id v ground_vars,
       dict_set demand_id u air_vars).

(** Lines 552-555. *)
Definition create_adtc_vars : M heap (dict LpVariable) :=
  ads <- lift (getitem "AirDepot" (c_facilities coverage_dict)) ;;
  foldM (fun adtc_vars ad_id =>
           tcs <- lift (getitem "TraumaCenter" (c_facilities coverage_dict)) ;;
           foldM (fun adtc_vars tc_id =>
                    z <- pulp_LpVariable (adtc_name ad_id tc_id)
                                         (Some 0) (Some 1) LpInteger ;;
                    ret (dict_set (adtc_name ad_id tc_id) z adtc_vars))
                 (keys tcs) adtc_vars)
        (keys ads) [].

Local Open Scope result_scope.

(** Lines 562-565 and 567-570. *)
Definition count_row (facility_vars : dict (dict LpVariable))
    (facility_type : string) (n : Z) (prob : LpProblem)
  : result LpProblem :=
  fs <- getitem facility_type (c_facilities coverage_dict) ;;
  to_sum <- foldE (fun to_sum facility_id =>
                     v <- facility_var facility_vars facility_type
                                       facility_id ;;
                     OK (to_sum ++ [OVar v]))
                  (keys fs) [] ;;
  OK (add_constraint prob (expr_eq (lpSum to_sum) (inject_Z n))
                     (Some ("Num" +++ facility_type))).

(** Line 574. *)
Definition air_ground_row (demand_vars ground_vars air_vars : dict LpVariable)
    (prob : LpProblem) (demand_id : string) : result LpProblem :=
  y <- getitem demand_id demand_vars ;;
  v <- getitem demand_id ground_vars ;;
  u <- getitem demand_id air_vars ;;
  OK (add_constraint prob
        (expr_le (expr_sub (expr_sub (expr_of_var y) (OVar v)) (OVar u)) 0)
        (Some ("AIR_GROUND_" +++ demand_id))).

(** Lines 578-581. *)
Definition ground_row (ground_vars : dict LpVariable)
    (facility_vars : dict (dict LpVariable)) (prob : LpProblem)
    (demand_id : string) : result LpProblem :=
  r <- getitem demand_id (c_demand coverage_dict) ;;
  e <- getitem "TraumaCenter" (d_coverage r) ;;
  to_sum <-
    match e with
    | CovList l =>
        foldE (fun to_sum tc =>
                 vars <- getitem "TraumaCenter" facility_vars ;;
                 tc_id <- getitem "TraumaCenter" tc ;;
                 x <- getitem tc_id vars ;;
                 OK (to_sum ++ [OVar x]))
              l []
    | CovDict [] => OK []
    | CovDict (_ :: _) =>
        getitem "TraumaCenter" facility_vars ;;
        Err (TypeError "string indices must be integers")
    end ;;
  v <- getitem demand_id ground_vars ;;
  OK (add_constraint prob
        (expr_le (expr_sub (expr_of_var v) (OExpr (lpSum to_sum))) 0)
        (Some ("GND_" +++ demand_id))).

(** Lines 585-590. *)
Definition air_row (air_vars adtc_vars : dict LpVariable)
    (prob : LpProblem) (demand_id : string) : result LpProblem :=
  r <- getitem demand_id (c_demand coverage_dict) ;;
  e <- getitem "ADTCPair" (d_coverage r) ;;
  to_sum <-
    match e with
    | CovList l =>
        foldE (fun to_sum adtc_pair =>
                 ad_id <- getitem "AirDepot" adtc_pair ;;
                 tc_id <- getitem "TraumaCenter" adtc_pair ;;
                 z <- getitem (adtc_name ad_id tc_id) adtc_vars ;;
                 OK (to_sum ++ [OVar z]))
              l []
    | CovDict [] => OK []
    | CovDict (_ :: _) => Err (TypeError "string indices must be integers")
    end ;;
  u <- getitem demand_id air_vars ;;
  OK (add_constraint prob
        (expr_le (expr_sub (expr_of_var u) (OExpr (lpSum to_sum))) 0)
        (Some ("AIR_" +++ demand_id))).

(** Lines 594-598: the two rows of a pairing indicator.  The identifier is
    cut at the dollar sign, whatever [delineator] is. *)
Definition pair_rows (adtc_vars : dict LpVariable)
    (facility_vars : dict (dict LpVariable)) (prob : LpProblem)
    (adtc_id : string) : result LpProblem :=
  z <- getitem adtc_id adtc_vars ;;
  tcs <- getitem "TraumaCenter" facility_vars ;;
  tc_id <- list_index (split_on "$" adtc_id) 2 ;;
  tc <- getitem tc_id tcs ;;
  let prob :=
    add_constraint prob (expr_le (expr_sub (expr_of_var z) (OVar tc)) 0)
                   (Some ("GND_" +++ adtc_id)) in
  z <- getitem adtc_id adtc_vars ;;
  ads <- getitem "AirDepot" facility_vars ;;
  ad_id <- list_index (split_on "$" adtc_id) 1 ;;
  ad <- getitem ad_id ads ;;
  OK (add_constraint prob (expr_le (expr_sub (expr_of_var z) (OVar ad)) 0)
                     (Some ("AIR_" +++ adtc_id))).

Local Open Scope state_scope.

(** [create_traumah_model] (lines 508-602) *)
Definition create_traumah_model (num_ad num_tc : Z) : M heap LpProblem :=
  let demand_var := "demand" in
  lift (validate_coverage coverage_dict ["coverage"] ["traumah"]) ;;
  vars <- foldM create_trauma_demand_vars
                (keys (c_demand coverage_dict)) ([], [], []) ;;
  let '(demand_vars, ground_vars, air_vars) := vars in
  facility_vars <- create_facility_vars coverage_dict delineator
                     (Some 0) (Some 1) LpInteger ;;
  adtc_vars <- create_adtc_vars ;;
  let prob := new_LpProblem "TRAUMAH" LpMaximize in
  obj <- lift (weighted_demand_terms coverage_dict demand_var demand_vars) ;;
  let prob := set_objective prob (lpSum obj) in
  prob <- lift (count_row facility_vars "AirDepot" num_ad prob) ;;
  prob <- lift (count_row facility_vars "TraumaCenter" num_tc prob) ;;
  prob <- lift (foldE (air_ground_row demand_vars ground_vars air_vars)
                      (keys (c_demand coverage_dict)) prob) ;;
  prob <- lift (foldE (ground_row ground_vars facility_vars)
                      (keys (c_demand coverage_dict)) prob) ;;
  prob <- lift (foldE (air_row air_vars adtc_vars)
                      (keys (c_demand coverage_dict)) prob) ;;
  lift (foldE (pair_rows adtc_vars facility_vars) (keys adtc_vars) prob).
End TraumaModel.

Section BclpccModel.
Local Open Scope state_scope.

Variable coverage_dict : Coverage.
Variable delineator : string.

(** Lines 629-632. *)
Definition check_backup_weight (backup_weight : pyarg) : result Q :=
  match backup_weight with
  | ArgOther => Err (TypeError "backup weight is not float or int")
  | ArgNum q =>
      if negb (Qle_bool q 1) || negb (Qle_bool 0 q)
      then Err (ValueError (Msg "Backup weight must be between 0 and 1" []))
      else OK q
  end.

(** Lines 642-644: the three levels of a demand unit. *)
Definition create_level_vars
    (vars : dict LpVariable * dict LpVariable * dict LpVariable)
    (demand_id : string)
  : M heap (dict LpVariable * dict LpVariable * dict LpVariable) :=
  let '(primary_vars, backup_vars, overall_vars) := vars in
  w <- pulp_LpVariable ("W" +++ delineator +++ demand_id)
                       (Some 0) None LpContinuous ;;
  y <- pulp_LpVariable ("Y" +++ delineator +++ demand_id)
                       None None LpContinuous ;;
  z <- pulp_LpVariable ("Z" +++ delineator +++ demand_id)
                       (Some 0) None LpContinuous ;;
  ret (dict_set demand_id w primary_vars,
       dict_set demand_id y backup_vars,
       dict_set demand_id z overall_vars).

Local Open Scope result_scope.

(** Lines 655-656. *)
Definition blend_terms (backup_weight primary_weight : Q)
    (primary_vars backup_vars : dict LpVariable) : result (list operand) :=
  foldE (fun to_sum demand_id =>
           y <- getitem demand_id backup_vars ;;
           w <- getitem demand_id primary_vars ;;
           OK (to_sum ++
               [OExpr (addInPlace 1 (rmul backup_weight y)
                                  (OExpr (rmul primary_weight w)))]))
        (keys (c_demand coverage_dict)) [].

(** Lines 660-673, the five rows of a demand unit.  In the third one the
    source subtracts [overall_vars], the whole dictionary. *)
Definition bclpcc_rows (demand_var : string)
    (primary_vars backup_vars overall_vars : dict LpVariable)
    (facility_vars : dict (dict LpVariable)) (prob : LpProblem)
    (demand_id : string) : result LpProblem :=
  to_sum <- weighted_covering_terms coverage_dict facility_vars demand_id ;;
  z <- getitem demand_id overall_vars ;;
  let prob :=
    add_constraint prob
      (expr_ge (expr_sub (lpSum to_sum) (OExpr (rmul 1 z))) 0)
      (Some ("D" +++ demand_id)) in
  w <- getitem demand_id primary_vars ;;
  q <- demand_weight coverage_dict demand_var demand_id ;;
  let prob :=
    add_constraint prob (expr_le (expr_of_var w) q)
                   (Some ("primarydemand" +++ demand_id)) in
  w <- getitem demand_id primary_vars ;;
  q <- demand_weight coverage_dict demand_var demand_id ;;
  let prob :=
    add_constraint prob
      (expr_le (expr_sub (expr_of_var w) (ODict overall_vars)) q)
      (Some ("primaryoverall" +++ demand_id)) in
  z <- getitem demand_id overall_vars ;;
  y <- getitem demand_id backup_vars ;;
  q <- demand_weight coverage_dict demand_var demand_id ;;
  let prob :=
    add_constraint prob
      (expr_ge (expr_sub (expr_of_var z) (OVar y)) q)
      (Some ("overallbackup" +++ demand_id)) in
  z <- getitem demand_id overall_vars ;;
  q <- demand_weight coverage_dict demand_var demand_id ;;
  OK (add_constraint prob (expr_le (expr_of_var z) (2 * q))
                     (Some ("overalldemand" +++ demand_id))).

Local Open Scope state_scope.

(** [create_bclpcc_model] (lines 605-689); the difference of line 637 is
    kept exact. *)
Definition create_bclpcc_model (num_fac : dict Q) (backup_weight : pyarg)
    (use_serviceable_demand : bool) : M heap LpProblem :=
  let demand_var := demand_var_of use_serviceable_demand in
  lift (validate_coverage coverage_dict ["coverage"] ["partial"]) ;;
  backup_weight <- lift (check_backup_weight backup_weight) ;;
  let primary_weight := 1 - backup_weight in
  vars <- foldM create_level_vars
                (keys (c_demand coverage_dict)) ([], [], []) ;;
  let '(primary_vars, backup_vars, overall_vars) := vars in
  facility_vars <- create_facility_vars coverage_dict delineator
                     (Some 0) None LpInteger ;;
  let prob := new_LpProblem "BCLPCC" LpMaximize in
  to_sum <- lift (blend_terms backup_weight primary_weight
                              primary_vars backup_vars) ;;
  let prob := set_objective prob (lpSum to_sum) in
  prob <- lift (foldE (bclpcc_rows demand_var primary_vars backup_vars
                                   overall_vars facility_vars)
                      (keys (c_demand coverage_dict)) prob) ;;
  lift (facility_count_constraints coverage_dict num_fac facility_vars prob).
End BclpccModel.

Section MclpBuilders.
Local Open Scope state_scope.

(** ** [create_mclp_model] (lines 94-160) *)

(** Lines 140-144, one demand unit:
    [lpSum(to_sum) - demand_vars[demand_id] >= 0, "D" + demand_id]. *)
Definition mclp_row (coverage_dict : Coverage)
    (demand_vars : dict LpVariable) (facility_vars : dict (dict LpVariable))
    (prob : LpProblem) (demand_id : string) : result LpProblem :=
  (to_sum <- covering_vars coverage_dict facility_vars demand_id ;;
   y <- getitem demand_id demand_vars ;;
   OK (add_constraint prob (expr_ge (expr_sub (lpSum to_sum) (OVar y)) 0)
                      (Some ("D" +++ demand_id))))%result.

Definition create_mclp_model (coverage_dict : Coverage) (num_fac : dict Q)
    (delineator : string) (use_serviceable_demand : bool)
  : M heap LpProblem :=
  let demand_var := demand_var_of use_serviceable_demand in
  lift (validate_coverage coverage_dict ["coverage"] ["binary"]) ;;
  demand_vars <- create_demand_vars coverage_dict delineator
                   "Y" (Some 0) (Some 1) LpInteger ;;
  facility_vars <- create_facility_vars coverage_dict delineator
                     (Some 0) (Some 1) LpInteger ;;
  let prob := new_LpProblem "MCLP" LpMaximize in
  obj <- lift (weighted_demand_terms coverage_dict demand_var demand_vars) ;;
  let prob := set_objective prob (lpSum obj) in
  prob <- lift (foldE (mclp_row coverage_dict demand_vars facility_vars)
                      (keys (c_demand coverage_dict)) prob) ;;
  lift (facility_count_constraints coverage_dict num_fac facility_vars prob).

(** ** [create_mclp_cc_model] (lines 163-231)

    The rows of a demand unit (lines 209-215) are those of lines 358-364,
    [cc_rows]. *)
Definition create_mclp_cc_model (coverage_dict : Coverage) (num_fac : dict Q)
    (delineator : string) (use_serviceable_demand : bool)
  : M heap LpProblem :=
  let demand_var := demand_var_of use_serviceable_demand in
  lift (validate_coverage coverage_dict ["coverage"] ["partial"]) ;;
  demand_vars <- create_demand_vars coverage_dict delineator
                   "Y" (Some 0) None LpContinuous ;;
  facility_vars <- create_facility_vars coverage_dict delineator
                     (Some 0) (Some 1) LpInteger ;;
  let prob := new_LpProblem "MCLP" LpMaximize in
  obj <- lift (weighted_demand_terms coverage_dict demand_var demand_vars) ;;
  let prob := set_objective prob (lpSum obj) in
  prob <- lift (foldE (cc_rows coverage_dict demand_var demand_vars
                               facility_vars)
                      (keys (c_demand coverage_dict)) prob) ;;
  lift (facility_count_constraints coverage_dict num_fac facility_vars prob).
End MclpBuilders.

(* ================================================================== *)
(** * Notions used by the properties *)
(* ================================================================== *)

(** Two dictionaries with the same content, whatever the order. *)
Definition dict_equiv {V} (d1 d2 : dict V) : Prop :=
  forall k, lookup k d1 = lookup k d2.

(** The coverage type dictionary the generators write. *)
Definition coverage_kind (k : string) : option (dict string) :=
  Some [("mode", "coverage"); ("type", k)].

(** The store invariant of the data model: every coverage entry of a demand
    unit is a mapping from facility ids to strengths, under a facility type
    of the store, and names only facilities of that type. *)
Definition coverage_invariant (c : Coverage) : bool :=
  forallb
    (fun dr =>
       forallb
         (fun fe =>
            match snd fe, lookup (fst fe) (c_facilities c) with
            | CovDict m, Some fs => forallb (fun fid => mem fid fs) (keys m)
            | _, _ => false
            end)
         (d_coverage (snd dr)))
    (c_demand c).

(** ** Serviceable-demand update *)

(** The update dictionary lacks a demand id of the store. *)
Definition lacks_demand_id (coverage : Coverage) (sd : ServiceableDemand)
  : Prop :=
  exists d, In d (keys (c_demand coverage)) /\ lookup d (sd_demand sd) = None.

(** The record of [d] once line 16 has run for it. *)
Definition rewritten (sd : ServiceableDemand) (d : string) (r : DemandRecord)
  : DemandRecord :=
  match lookup d (sd_demand sd) with
  | Some u => with_serviceableDemand r (VNum (sd_serviceableDemand u))
  | None => r
  end.

(** A failed update that left nothing behind. *)
Definition update_fails_unchanged (coverage : Coverage)
    (sd : ServiceableDemand) : Prop :=
  exists e, update_serviceable_demand coverage sd = (coverage, Err e).

Definition two_unit_store : Coverage :=
  mkCoverage (coverage_kind "binary")
    [("T", [("f1", "site")])]
    [("d1", mkDemandRecord 10 (VNum 1) [("T", CovDict [("f1", 1)])]);
     ("d2", mkDemandRecord 20 (VNum 2) [("T", CovDict [("f1", 1)])])]
    3.

Definition update_without_d2 : ServiceableDemand :=
  mkServiceableDemand [("d1", mkSdRecord 5)].

(** ** Merging *)

(** The facility-type name [ft] is defined by both stores. *)
Definition shares_facility_type (ft : string) (a b : Coverage) : Prop :=
  mem ft (c_facilities a) = true /\ mem ft (c_facilities b) = true.

(** One demand unit ["d"], covered with value 1 by the only facility [fid]
    of the only facility type [ft]. *)
Definition layer (kind ft fid : string) (served : Q) : Coverage :=
  mkCoverage (coverage_kind kind)
    [(ft, [(fid, "site")])]
    [("d", mkDemandRecord 10 (VNum served) [(ft, CovDict [(fid, 1)])])]
    served.

(** The preconditions of a merge of two stores: both validate against the
    coverage type [k], they have the same demand ids, and no facility-type
    name is in both. *)
Definition mergeable (k : string) (a b : Coverage) : Prop :=
  validate_coverage a ["coverage"] [k] = OK tt /\
  validate_coverage b ["coverage"] [k] = OK tt /\
  set_eqb (keys (c_demand a)) (keys (c_demand b)) = true /\
  (forall ft, mem ft (c_facilities a) = true ->
              mem ft (c_facilities b) = false).

(** No string twice. *)
Fixpoint nodupb (l : list string) : bool :=
  match l with
  | [] => true
  | x :: l' => negb (str_in x l') && nodupb l'
  end.

(** The association lists of a store stand for dictionaries (no key twice at
    the levels the merge loops over) and the store keeps its invariant. *)
Definition well_formed (c : Coverage) : bool :=
  nodupb (keys (c_facilities c)) &&
  nodupb (keys (c_demand c)) &&
  forallb (fun dr => nodupb (keys (d_coverage (snd dr)))) (c_demand c) &&
  coverage_invariant c.

(** What the loops of lines 80-86 leave behind, level by level: the
    strengths [m] of one facility type copied over [mm]; one facility type
    of [rc] merged into the coverage map [mc]; a record of the merged-in
    store merged into the master's record. *)
Definition copy_facs (m : dict Q) (l : list string) (mm : dict Q) : dict Q :=
  fold_left (fun acc fac => match lookup fac m with
                            | Some v => dict_set fac v acc
                            | None => acc
                            end) l mm.

Definition entry_or_empty (c : dict cov_entry) (ft : string) : dict Q :=
  match lookup ft c with
  | Some (CovDict mm) => mm
  | _ => []
  end.

Definition merge_type_into (rc mc : dict cov_entry) (ft : string)
  : dict cov_entry :=
  match lookup ft rc with
  | Some (CovDict m) =>
      dict_set ft (CovDict (copy_facs m (keys m) (entry_or_empty mc ft))) mc
  | _ => mc
  end.

Definition merge_record (r mr : DemandRecord) : DemandRecord :=
  with_coverage mr
    (fold_left (merge_type_into (d_coverage r)) (keys (d_coverage r))
               (d_coverage mr)).

Definition merge_demand_into (c : Coverage) (dm : dict DemandRecord)
    (d : string) : dict DemandRecord :=
  match lookup d (c_demand c), lookup d dm with
  | Some r, Some mr => dict_set d (merge_record r mr) dm
  | _, _ => dm
  end.

(** Every entry of a coverage map is a mapping of strengths. *)
Definition all_dicts (c : dict cov_entry) : Prop :=
  forall ft e, lookup ft c = Some e -> exists m, e = CovDict m.

(** Two coverage maps of a demand unit with the same content. *)
Definition coverage_equiv (c1 c2 : dict cov_entry) : Prop :=
  forall ft,
    match lookup ft c1, lookup ft c2 with
    | Some (CovDict m1), Some (CovDict m2) => dict_equiv m1 m2
    | Some (CovList l1), Some (CovList l2) => l1 = l2
    | None, None => True
    | _, _ => False
    end.

(** Two stores with the same facilities map and, for every demand unit, the
    same coverage map. *)
Definition same_structure (m1 m2 : Coverage) : Prop :=
  dict_equiv (c_facilities m1) (c_facilities m2) /\
  forall d,
    match lookup d (c_demand m1), lookup d (c_demand m2) with
    | Some r1, Some r2 => coverage_equiv (d_coverage r1) (d_coverage r2)
    | None, None => True
    | _, _ => False
    end.

(** The same, and the same serviceable demand for every demand unit. *)
Definition same_content (m1 m2 : Coverage) : Prop :=
  same_structure m1 m2 /\
  forall d,
    option_map d_serviceableDemand (lookup d (c_demand m1)) =
    option_map d_serviceableDemand (lookup d (c_demand m2)).

(** The merge is the same in both orders. *)
Definition merge_commutes (a b : Coverage) : Prop :=
  exists m1 m2,
    merge_coverages [a; b] = OK m1 /\
    merge_coverages [b; a] = OK m2 /\
    same_content m1 m2.

(** ** Builders *)

(** One demand unit [d], covered with strength 1/2 by the only facility
    [fid] of the only facility type [ft]. *)
Definition layer_of (kind ft fid d : string) : Coverage :=
  mkCoverage (coverage_kind kind)
    [(ft, [(fid, "site")])]
    [(d, mkDemandRecord 10 (VNum 10) [(ft, CovDict [(fid, 1 # 2)])])]
    10.

(** Two trauma stores with the demand unit ["d1"]: the trauma centers,
    whose coverage entry is a list of records, and the air depots, with an
    empty coverage map. *)
Definition trauma_centers : Coverage :=
  mkCoverage (coverage_kind "traumah")
    [("TraumaCenter", [("c", "site")])]
    [("d1", mkDemandRecord 10 (VNum 10)
              [("TraumaCenter", CovList [[("TraumaCenter", "c")]])])]
    10.

Definition air_depots : Coverage :=
  mkCoverage (coverage_kind "traumah")
    [("AirDepot", [("a", "site")])]
    [("d1", mkDemandRecord 10 (VNum 10) [])]
    10.

(** A partial-coverage store with two demand units. *)
Definition partial_two_units : Coverage :=
  mkCoverage (coverage_kind "partial")
    [("T", [("f1", "site")])]
    [("d1", mkDemandRecord 10 (VNum 10) [("T", CovDict [("f1", 1 # 2)])]);
     ("d2", mkDemandRecord 20 (VNum 20) [("T", CovDict [("f1", 1 # 4)])])]
    30.

(** A trauma store: one air depot ["a"], one trauma center ["c"], one
    demand unit reached by ground from ["c"] and by air through the pair. *)
Definition trauma_store : Coverage :=
  mkCoverage (coverage_kind "traumah")
    [("AirDepot", [("a", "site")]); ("TraumaCenter", [("c", "site")])]
    [("d1", mkDemandRecord 10 (VNum 10)
              [("TraumaCenter", CovList [[("TraumaCenter", "c")]]);
               ("ADTCPair",
                CovList [[("AirDepot", "a"); ("TraumaCenter", "c")]])])]
    10.

(** A store of the given kind without demand units. *)
Definition no_demand_store (kind : string) : Coverage :=
  mkCoverage (coverage_kind kind) [("T", [("f1", "site")])] [] 0.

(** A row as it reads: name, terms by variable name, operator, right-hand
    side. *)
Definition row_summary (nc : option string * LpConstraint)
  : option string * list (string * Q) * LpConstraintSense * Q :=
  (fst nc,
   map (fun t => (var_name (fst t), snd t)) (terms (c_lhs (snd nc))),
   c_sense (snd nc),
   c_rhs (snd nc)).

(** The names of the rows of a problem. *)
Definition row_names (prob : LpProblem) : list (option string) :=
  map fst (constraints prob).

(** The exception of an outcome. *)
Definition e_of {A} (out : heap * result A) : option exn :=
  match snd out with
  | OK _ => None
  | Err e => Some e
  end.

(** The variable [v] has this name, these bounds and this category. *)
Definition is_var (name : string) (low up : option Q) (c : LpCategory)
    (v : LpVariable) : Prop :=
  var_name v = name /\ lowBound v = low /\ upBound v = up /\ cat v = c.


(** The covering facilities of a demand unit, as (facility type, facility
    id) pairs in the order of the loops of the builders. *)
Definition covering_of_type (r : DemandRecord) (ft : string)
  : list (string * string) :=
  match lookup ft (d_coverage r) with
  | Some (CovDict m) => map (pair ft) (keys m)
  | _ => []
  end.

Definition covering_pairs (r : DemandRecord) : list (string * string) :=
  flat_map (covering_of_type r) (keys (d_coverage r)).

(** Every row of [p] is a row of [p']. *)
Definition rows_kept (p p' : LpProblem) : Prop :=
  forall nc, In nc (constraints p) -> In nc (constraints p').

(** Every facility of the store has its variable in [facility_vars]. *)
Definition vars_complete (coverage_dict : Coverage)
    (facility_vars : dict (dict LpVariable)) : Prop :=
  forall ft fs, lookup ft (c_facilities coverage_dict) = Some fs ->
    exists vars, lookup ft facility_vars = Some vars /\
                 forall fid, In fid (keys fs) -> lookup fid vars <> None.

(** The range error of the threshold builders (lines 260 and 333). *)
Definition psi_range_error : exn :=
  ValueError (Msg "psi weight must be between 100 and 0" []).

(** An outcome other than that range error. *)
Definition not_range_error {A} (r : result A) : Prop :=
  r <> Err psi_range_error.

(** A store of the given kind whose only demand unit has weight zero. *)
Definition zero_demand_store (kind : string) : Coverage :=
  mkCoverage (coverage_kind kind)
    [("T", [("f1", "site")])]
    [("d1", mkDemandRecord 0 (VNum 0) [("T", CovDict [("f1", 1)])])]
    0.

(** The sum of the values of the variables [xs]. *)
Definition sum_values (a : assignment) (xs : list LpVariable) : Q :=
  fold_right (fun x acc => a (var_id x) + acc) 0 xs.

(** A binary store: two facilities of one type, a demand unit covered by
    both and a demand unit covered by none. *)
Definition covered_and_uncovered : Coverage :=
  mkCoverage (coverage_kind "binary")
    [("T", [("f1", "site"); ("f2", "site")])]
    [("d1", mkDemandRecord 10 (VNum 10)
              [("T", CovDict [("f1", 1); ("f2", 1)])]);
     ("d2", mkDemandRecord 20 (VNum 0) [("T", CovDict [])])]
    10.








(** The master with the entry [e] stored under facility type [ft] of the
    record [mr] of demand unit [d]. *)
Definition put_entry (master : Coverage) (d : string) (mr : DemandRecord)
    (ft : string) (e : cov_entry) : Coverage :=
  with_demand master
    (dict_set d (with_coverage mr (dict_set ft e (d_coverage mr)))
              (c_demand master)).

(** The test of line 88 on the coverage type. *)
Definition overwrites (coverage_type : option string) : bool :=
  match coverage_type with
  | Some ty => String.eqb ty "Binary"
  | None => false
  end.

(** The selected demand weight of every demand unit is a number. *)
Definition numeric_weights (c : Coverage) (demand_var : string) : bool :=
  forallb (fun dr => match record_field (snd dr) demand_var with
                     | OK (VNum _) => true
                     | _ => false
                     end) (c_demand c).

(* ================================================================== *)
(** * Further notions *)
(* ================================================================== *)

(** The new serviceable demand of [d] in the update dictionary. *)
Definition sd_value (sd : ServiceableDemand) (d : string) : Q :=
  match lookup d (sd_demand sd) with
  | Some u => sd_serviceableDemand u
  | None => 0
  end.

(** The update dictionary has every demand id of the store. *)
Definition covers_demand_ids (coverage : Coverage) (sd : ServiceableDemand)
  : Prop :=
  forall d, In d (keys (c_demand coverage)) -> lookup d (sd_demand sd) <> None.

(** An update dictionary for both demand units of [two_unit_store]. *)
Definition update_both : ServiceableDemand :=
  mkServiceableDemand [("d2", mkSdRecord 7); ("d1", mkSdRecord 5)].

(** ** Merging *)

(** The errors of [merge_coverages] and of [validate_coverage]. *)
Definition expected_types_error (k ty : string) : exn :=
  ValueError (Msg "Expected types: '{}' got type '{}'" [AStrList [k]; AStr ty]).

Definition conflicting_types_error : exn :=
  ValueError (Msg "Conflicting facility types" []).

Definition demand_keys_error : exn :=
  ValueError (Msg "Demand Keys Invalid" []).


(** ** Builders *)

(** The range error of [create_bclpcc_model] (line 632) and the type error
    of a weight that is not a number (lines 258, 331 and 630). *)
Definition backup_weight_range_error : exn :=
  ValueError (Msg "Backup weight must be between 0 and 1" []).

Definition weight_type_error : exn :=
  TypeError "backup weight is not float or int".

(** The weighted sum of the values of the variables [wys]. *)
Definition weighted_values (a : assignment) (wys : list (Q * LpVariable)) : Q :=
  fold_right (fun wy acc => fst wy * a (var_id (snd wy)) + acc) 0 wys.




(** The problem keeps its objective and its sense. *)
Definition objective_kept (p p' : LpProblem) : Prop :=
  objective p' = objective p /\ prob_sense p' = prob_sense p.











(* ---------- dictionaries ---------- *)
Lemma lookup_dict_set_eq V (k : string) (v : V) d :
  lookup k (dict_set k v d) = Some v.
Proof.
  induction d as [|[k' v'] d IH]; simpl.
  - now rewrite String.eqb_refl.
  - destruct (String.eqb k k') eqn:E; simpl; rewrite E; auto.
Qed.

Lemma lookup_dict_set_neq V (k k' : string) (v : V) d :
  k <> k' -> lookup k' (dict_set k v d) = lookup k' d.
Proof.
  intros Hne. induction d as [|[k0 v0] d IH]; simpl.
  - destruct (String.eqb k' k) eqn:E; auto.
    apply String.eqb_eq in E. congruence.
  - destruct (String.eqb k k0) eqn:E; simpl.
    + apply String.eqb_eq in E. subst k0.
      destruct (String.eqb k' k) eqn:E'; auto.
      apply String.eqb_eq in E'. congruence.
    + now rewrite IH.
Qed.

Lemma lookup_dict_set V (k k' : string) (v : V) d :
  lookup k' (dict_set k v d) = if String.eqb k' k then Some v else lookup k' d.
Proof.
  destruct (String.eqb k' k) eqn:E.
  - apply String.eqb_eq in E. subst. apply lookup_dict_set_eq.
  - apply String.eqb_neq in E. apply lookup_dict_set_neq. congruence.
Qed.

Lemma keys_dict_set_present V (k : string) (v : V) d :
  lookup k d <> None -> keys (dict_set k v d) = keys d.
Proof.
  induction d as [|[k' v'] d IH]; simpl; intros H.
  - congruence.
  - destruct (String.eqb k k') eqn:E; unfold keys in *; simpl; auto.
    rewrite IH; auto.
Qed.

Lemma lookup_in_keys V (k : string) (d : dict V) :
  In k (keys d) <-> lookup k d <> None.
Proof.
  induction d as [|[k' v'] d IH]; simpl.
  - split; [tauto | congruence].
  - destruct (String.eqb k k') eqn:E.
    + apply String.eqb_eq in E. subst. split; [congruence | auto].
    + apply String.eqb_neq in E. rewrite <- IH. split.
      * intros [H|H]; [congruence | auto].
      * auto.
Qed.

Lemma lookup_keys_some V (k : string) (d : dict V) :
  In k (keys d) -> exists v, lookup k d = Some v.
Proof.
  intros H. apply lookup_in_keys in H.
  destruct (lookup k d); [eauto | congruence].
Qed.

Lemma lookup_some_in V (k : string) (d : dict V) v :
  lookup k d = Some v -> In (k, v) d.
Proof.
  induction d as [|[k' v'] d IH]; simpl; [congruence|].
  destruct (String.eqb k k') eqn:E.
  - apply String.eqb_eq in E. intros [= ->]. subst. auto.
  - auto.
Qed.

Lemma str_in_true x l : str_in x l = true <-> In x l.
Proof.
  unfold str_in. rewrite existsb_exists. split.
  - intros [y [Hy E]]. apply String.eqb_eq in E. now subst.
  - intros H. exists x. split; auto. apply String.eqb_refl.
Qed.

Lemma str_in_false x l : str_in x l = false <-> ~ In x l.
Proof.
  rewrite <- str_in_true. destruct (str_in x l); split; congruence.
Qed.

(* ---------- loops ---------- *)
Lemma foldM_app T A S (f : S -> A -> M T S) l1 l2 s t :
  foldM f (l1 ++ l2) s t =
  match foldM f l1 s t with
  | (t', OK s') => foldM f l2 s' t'
  | (t', Err e) => (t', Err e)
  end.
Proof.
  revert s t. induction l1 as [|a l1 IH]; intros s t; simpl; auto.
  unfold bindM. destruct (f s a t) as [t1 [s1|e]]; auto.
Qed.


(** The same with termination: every turn succeeds from a state that
    satisfies the invariant. *)
Lemma foldM_total T A S (f : S -> A -> M T S)
    (I : list A -> S -> T -> Prop) l :
  (forall done a s t,
      I done s t -> In a l ->
      exists t' s', f s a t = (t', OK s') /\ I (done ++ [a]) s' t') ->
  forall s0 t0,
    I [] s0 t0 ->
    exists t' s', foldM f l s0 t0 = (t', OK s') /\ I l s' t'.
Proof.
  intros Hstep.
  assert (G : forall l', incl l' l -> forall done s t,
             I done s t ->
             exists t' s', foldM f l' s t = (t', OK s') /\
                           I (done ++ l') s' t').
  { induction l' as [|a l' IH]; intros Hincl done s t HI.
    - exists t, s. rewrite app_nil_r. split; auto.
    - destruct (Hstep done a s t HI) as (t1 & s1 & Hf & HI1).
      { apply Hincl. simpl; auto. }
      destruct (IH (fun x Hx => Hincl x (or_intror Hx)) (done ++ [a]) s1 t1 HI1)
        as (t' & s' & Hrun & HI').
      exists t', s'. simpl. unfold bindM. rewrite Hf, Hrun.
      split; auto. now rewrite <- app_assoc in HI'. }
  intros s0 t0 H0. exact (G l (incl_refl l) [] s0 t0 H0).
Qed.

Lemma foldE_invariant A S (f : S -> A -> result S)
    (I : list A -> S -> Prop) l :
  (forall done a s s', I done s -> f s a = OK s' -> I (done ++ [a]) s') ->
  forall s0 s', I [] s0 -> foldE f l s0 = OK s' -> I l s'.
Proof.
  intros Hstep.
  assert (G : forall l done s s',
             I done s -> foldE f l s = OK s' -> I (done ++ l) s').
  { clear l. induction l as [|a l IH]; intros done s s' HI Hrun.
    - simpl in Hrun. injection Hrun as <-. now rewrite app_nil_r.
    - simpl in Hrun. destruct (f s a) as [s1|e] eqn:Hf; [|discriminate].
      simpl in Hrun.
      replace (done ++ a :: l) with ((done ++ [a]) ++ l)
        by (rewrite <- app_assoc; reflexivity).
      eapply IH; eauto. }
  intros s0 s' H0 Hrun. exact (G l [] s0 s' H0 Hrun).
Qed.

Lemma foldE_total A S (f : S -> A -> result S)
    (I : list A -> S -> Prop) l :
  (forall done a s,
      I done s -> In a l ->
      exists s', f s a = OK s' /\ I (done ++ [a]) s') ->
  forall s0, I [] s0 -> exists s', foldE f l s0 = OK s' /\ I l s'.
Proof.
  intros Hstep.
  assert (G : forall l', incl l' l -> forall done s,
             I done s ->
             exists s', foldE f l' s = OK s' /\ I (done ++ l') s').
  { induction l' as [|a l' IH]; intros Hincl done s HI.
    - exists s. rewrite app_nil_r. split; auto.
    - destruct (Hstep done a s HI) as (s1 & Hf & HI1).
      { apply Hincl. simpl; auto. }
      destruct (IH (fun x Hx => Hincl x (or_intror Hx)) (done ++ [a]) s1 HI1)
        as (s' & Hrun & HI').
      exists s'. simpl. rewrite Hf. simpl. rewrite Hrun.
      split; auto. now rewrite <- app_assoc in HI'. }
  intros s0 H0. exact (G l (incl_refl l) [] s0 H0).
Qed.

(** Reading a successful sequence backwards. *)
Lemma bindM_ok T A B (c : M T A) (k : A -> M T B) t t' b :
  bindM c k t = (t', OK b) ->
  exists t1 a, c t = (t1, OK a) /\ k a t1 = (t', OK b).
Proof.
  unfold bindM. destruct (c t) as [t1 [a|e]]; [eauto | discriminate].
Qed.

Lemma bindE_ok A B (c : result A) (k : A -> result B) b :
  bindE c k = OK b -> exists a, c = OK a /\ k a = OK b.
Proof.
  destruct c as [a|e]; simpl; [eauto | discriminate].
Qed.


Lemma getitem_ok V (k : string) (d : dict V) v :
  getitem k d = OK v <-> lookup k d = Some v.
Proof.
  unfold getitem. destruct (lookup k d); split; congruence.
Qed.

Lemma dict_set_twice V (k : string) (v v' : V) d :
  dict_set k v (dict_set k v' d) = dict_set k v d.
Proof.
  induction d as [|[k0 v0] d IH]; simpl.
  - now rewrite String.eqb_refl.
  - destruct (String.eqb k k0) eqn:E; simpl; rewrite E; auto.
    now rewrite IH.
Qed.

Lemma dict_set_same V (k : string) (v : V) d :
  lookup k d = Some v -> dict_set k v d = d.
Proof.
  induction d as [|[k0 v0] d IH]; simpl; [discriminate|].
  destruct (String.eqb k k0) eqn:E.
  - now intros [= ->].
  - intros H. now rewrite IH.
Qed.

Lemma mem_true V (k : string) (d : dict V) :
  mem k d = true <-> lookup k d <> None.
Proof.
  unfold mem. destruct (lookup k d); split; congruence.
Qed.

Lemma mem_false V (k : string) (d : dict V) :
  mem k d = false <-> lookup k d = None.
Proof.
  unfold mem. destruct (lookup k d); split; congruence.
Qed.

Lemma nodupb_NoDup l : nodupb l = true <-> NoDup l.
Proof.
  induction l as [|x l IH]; simpl.
  - split; [constructor | auto].
  - rewrite andb_true_iff, negb_true_iff, str_in_false, IH. split.
    + intros [H1 H2]. now constructor.
    + intros H. inversion H. auto.
Qed.

Lemma set_eqb_refl l : set_eqb l l = true.
Proof.
  unfold set_eqb.
  assert (H : forallb (fun x => str_in x l) l = true).
  { apply forallb_forall. intros x Hx. now apply str_in_true. }
  now rewrite H.
Qed.

Lemma set_eqb_sym l1 l2 : set_eqb l1 l2 = set_eqb l2 l1.
Proof. unfold set_eqb. apply andb_comm. Qed.

Lemma set_eqb_in l1 l2 x : set_eqb l1 l2 = true -> In x l1 -> In x l2.
Proof.
  unfold set_eqb. rewrite andb_true_iff, forallb_forall. intros [H _] Hx.
  apply str_in_true. auto.
Qed.

Lemma with_coverage_same r : with_coverage r (d_coverage r) = r.
Proof. now destruct r. Qed.

Lemma with_demand_same c : with_demand c (c_demand c) = c.
Proof. now destruct c. Qed.

Lemma str_in_app x l1 l2 : str_in x (l1 ++ l2) = str_in x l1 || str_in x l2.
Proof. unfold str_in. apply existsb_app. Qed.

Lemma str_in_single x y : str_in x [y] = String.eqb x y.
Proof. unfold str_in. simpl. apply orb_false_r. Qed.

Lemma str_in_keys V x (d : dict V) :
  str_in x (keys d) = mem x d.
Proof.
  destruct (mem x d) eqn:E.
  - apply str_in_true, lookup_in_keys, mem_true. exact E.
  - apply str_in_false. intros H. apply lookup_in_keys, mem_true in H.
    congruence.
Qed.

(* ================================================================== *)
(** * [update_serviceable_demand] *)
(* ================================================================== *)

Section UpdateFacts.
Variable sd : ServiceableDemand.

Lemma update_one_present total d cur u r :
  lookup d (sd_demand sd) = Some u ->
  lookup d (c_demand cur) = Some r ->
  update_one sd total d cur =
  (with_demand cur (dict_set d (rewritten sd d r) (c_demand cur)),
   OK (total + sd_serviceableDemand u)).
Proof.
  intros Hu Hr. unfold update_one, bindM, lift, getitem, ret,
    store_serviceableDemand, rewritten.
  now rewrite Hu, Hr.
Qed.

Lemma update_one_missing total d cur :
  lookup d (sd_demand sd) = None ->
  update_one sd total d cur = (cur, Err (KeyError d)).
Proof.
  intros Hu. unfold update_one, bindM, lift, getitem. now rewrite Hu.
Qed.

Lemma rewritten_idem d r : rewritten sd d (rewritten sd d r) = rewritten sd d r.
Proof.
  unfold rewritten. destruct (lookup d (sd_demand sd)); reflexivity.
Qed.

(** The loop over ids that are all present in the update. *)
Lemma update_loop_present pre : forall total cur,
  (forall d, In d pre -> lookup d (sd_demand sd) <> None) ->
  (forall d, In d pre -> lookup d (c_demand cur) <> None) ->
  exists cur' total',
    foldM (update_one sd) pre total cur = (cur', OK total') /\
    c_type cur' = c_type cur /\
    c_facilities cur' = c_facilities cur /\
    c_totalServiceableDemand cur' = c_totalServiceableDemand cur /\
    keys (c_demand cur') = keys (c_demand cur) /\
    forall d, lookup d (c_demand cur') =
              if str_in d pre
              then option_map (rewritten sd d) (lookup d (c_demand cur))
              else lookup d (c_demand cur).
Proof.
  induction pre as [|d0 pre IH]; intros total cur Hsd Hcur.
  - exists cur, total. simpl. repeat split; auto.
  - destruct (lookup d0 (sd_demand sd)) as [u|] eqn:Hu;
      [|exfalso; apply (Hsd d0); simpl; auto].
    destruct (lookup d0 (c_demand cur)) as [r|] eqn:Hr;
      [|exfalso; apply (Hcur d0); simpl; auto].
    set (cur1 := with_demand cur
                   (dict_set d0 (rewritten sd d0 r) (c_demand cur))).
    assert (Hk1 : keys (c_demand cur1) = keys (c_demand cur)).
    { unfold cur1. simpl. apply keys_dict_set_present. congruence. }
    destruct (IH (total + sd_serviceableDemand u) cur1)
      as (cur' & total' & Hrun & Ht & Hf & Htot & Hk & Hl).
    { intros d Hd. apply Hsd. simpl; auto. }
    { intros d Hd. apply lookup_in_keys. rewrite Hk1.
      apply lookup_in_keys. apply Hcur. simpl; auto. }
    exists cur', total'. simpl foldM. unfold bindM.
    rewrite (update_one_present total d0 cur Hu Hr). fold cur1.
    rewrite Hrun. repeat split; auto.
    + now rewrite Hk.
    + intros d. rewrite Hl. unfold cur1. simpl c_demand.
      rewrite lookup_dict_set. unfold str_in. simpl existsb.
      fold (str_in d pre).
      destruct (String.eqb d d0) eqn:E; simpl.
      * apply String.eqb_eq in E. subst d0. rewrite Hr. simpl.
        rewrite rewritten_idem. now destruct (str_in d pre).
      * reflexivity.
Qed.
End UpdateFacts.

(** The first element of a list with a decidable property. *)
Lemma first_missing (V : Type) (m : dict V) (l : list string) :
  (exists d, In d l /\ lookup d m = None) ->
  exists pre d0 post,
    l = pre ++ d0 :: post /\
    (forall d, In d pre -> lookup d m <> None) /\
    lookup d0 m = None.
Proof.
  induction l as [|a l IH]; intros (d & Hin & Hd).
  - destruct Hin.
  - destruct (lookup a m) eqn:Ha.
    + destruct IH as (pre & d0 & post & -> & Hpre & H0).
      { destruct Hin as [->|Hin]; [congruence|]. eauto. }
      exists (a :: pre), d0, post. repeat split; auto.
      intros x [<-|Hx]; [congruence | auto].
    + exists [], a, l. repeat split; auto.
Qed.

(** C6, as amended.  When the update dictionary lacks a demand id of the
    store, [update_serviceable_demand] raises [KeyError] at the first such
    id in the order of the store: every id before it is in the update
    dictionary.  The failed call has not touched [totalServiceableDemand],
    the type, the facilities, the set of demand ids, nor the record of any
    id outside the ids that precede the failing one; the records of the ids
    before it have already received their new serviceable demand. *)
Theorem update_failure_partial (coverage : Coverage) (sd : ServiceableDemand) :
  lacks_demand_id coverage sd ->
  exists pre d0 post coverage',
    keys (c_demand coverage) = pre ++ d0 :: post /\
    (forall d, In d pre -> lookup d (sd_demand sd) <> None) /\
    lookup d0 (sd_demand sd) = None /\
    update_serviceable_demand coverage sd = (coverage', Err (KeyError d0)) /\
    c_totalServiceableDemand coverage' = c_totalServiceableDemand coverage /\
    c_type coverage' = c_type coverage /\
    c_facilities coverage' = c_facilities coverage /\
    keys (c_demand coverage') = keys (c_demand coverage) /\
    forall d, lookup d (c_demand coverage') =
              if str_in d pre
              then option_map (rewritten sd d) (lookup d (c_demand coverage))
              else lookup d (c_demand coverage).
Proof.
  intros Hlack.
  destruct (first_missing (sd_demand sd) (keys (c_demand coverage)) Hlack)
    as (pre & d0 & post & Hkeys & Hpre & H0).
  destruct (update_loop_present sd pre 0 coverage Hpre)
    as (cur' & total' & Hrun & Ht & Hf & Htot & Hk & Hl).
  { intros d Hd. apply lookup_in_keys. rewrite Hkeys.
    apply in_or_app. auto. }
  exists pre, d0, post, cur'. repeat split; auto.
  unfold update_serviceable_demand, bindM.
  rewrite Hkeys, foldM_app, Hrun. simpl foldM. unfold bindM.
  now rewrite update_one_missing.
Qed.

Lemma update_failure_partial_witness :
  lacks_demand_id two_unit_store update_without_d2 /\
  exists pre d0 post coverage',
    keys (c_demand two_unit_store) = pre ++ d0 :: post /\
    (forall d, In d pre -> lookup d (sd_demand update_without_d2) <> None) /\
    lookup d0 (sd_demand update_without_d2) = None /\
    update_serviceable_demand two_unit_store update_without_d2
      = (coverage', Err (KeyError d0)) /\
    c_totalServiceableDemand coverage'
      = c_totalServiceableDemand two_unit_store /\
    c_type coverage' = c_type two_unit_store /\
    c_facilities coverage' = c_facilities two_unit_store /\
    keys (c_demand coverage') = keys (c_demand two_unit_store) /\
    forall d, lookup d (c_demand coverage') =
              if str_in d pre
              then option_map (rewritten update_without_d2 d)
                              (lookup d (c_demand two_unit_store))
              else lookup d (c_demand two_unit_store).
Proof.
  assert (H : lacks_demand_id two_unit_store update_without_d2).
  { exists "d2". split; [simpl; auto | reflexivity]. }
  split; [exact H | exact (update_failure_partial H)].
Defined.

(** C6 as stated fails: the update dictionary lacks ["d2"], the call raises,
    and the record of ["d1"] has been rewritten. *)
Lemma update_failure_not_atomic :
  lacks_demand_id two_unit_store update_without_d2 /\
  ~ update_fails_unchanged two_unit_store update_without_d2.
Proof.
  split.
  - exists "d2". split; [simpl; auto | reflexivity].
  - intros [e He]. vm_compute in He. discriminate He.
Qed.

(* ================================================================== *)
(** * The source at concrete inputs *)
(* ================================================================== *)

(** C1.  [create_bclpcc_model] on a partial-coverage store with the demand
    units ["d1"] and ["d2"]: the five rows of ["d1"].  The third one,
    [primaryoveralld1], is [W$d1 - Z$d1 - Z$d2 <= 10]: the overall level of
    ["d2"] is subtracted too, because line 668 subtracts the dictionary
    [overall_vars]; the row is not [W$d1 - Z$d1 <= 10].  The other four are
    the per-demand rows. *)
Theorem bclpcc_primaryoverall_subtracts_every_overall :
  exists h prob,
    create_bclpcc_model partial_two_units "$" [("total", 1)]
                        (ArgNum (1 # 2)) false [] = (h, OK prob) /\
    map row_summary (firstn 5 (constraints prob)) =
      [(Some "Dd1", [("T$f1", 1 # 2); ("Z$d1", -1)], LpConstraintGE, 0);
       (Some "primarydemandd1", [("W$d1", 1)], LpConstraintLE, 10);
       (Some "primaryoveralld1",
        [("W$d1", 1); ("Z$d1", -1); ("Z$d2", -1)], LpConstraintLE, 10);
       (Some "overallbackupd1", [("Z$d1", 1); ("Y$d1", -1)],
        LpConstraintGE, 10);
       (Some "overalldemandd1", [("Z$d1", 1)], LpConstraintLE, 20)].
Proof.
  eexists _, _. split; vm_compute; reflexivity.
Qed.

(** C2.  Two stores define the facility type ["T"].  [merge_coverages]
    raises when they list the same facilities under it, and returns a merged
    store when they list different ones: line 60 compares the [.items()]
    pairs, name and facilities together.  In the merged store the facilities
    of the second store have replaced those of the first. *)
Theorem merge_shared_type_not_rejected :
  shares_facility_type "T" (layer "binary" "T" "f1" 1)
                           (layer "binary" "T" "f2" 2) /\
  merge_coverages [layer "binary" "T" "f1" 1; layer "binary" "T" "f1" 1]
    = Err (ValueError (Msg "Conflicting facility types" [])) /\
  exists merged,
    merge_coverages [layer "binary" "T" "f1" 1; layer "binary" "T" "f2" 2]
      = OK merged /\
    c_facilities merged = [("T", [("f2", "site")])].
Proof.
  split; [split; reflexivity|].
  split; [reflexivity|].
  eexists. split; reflexivity.
Qed.

(** C3.  The second store covers ["d"] with value 1 and has serviceable
    demand 2 for it, the first has 1.  With the coverage type ["Binary"]
    that line 88 tests, [merge_coverages] raises [KeyError('demand')]: line
    89 reads [coverage["demand"][demand]["coverage"]["demand"]].  With the
    type ["binary"] that the builders accept, the test of line 88 is false
    and the merged store keeps the value 1 of the first store. *)
Theorem merge_binary_serviceable_demand :
  merge_coverages [layer "Binary" "A" "f1" 1; layer "Binary" "B" "f2" 2]
    = Err (KeyError "demand") /\
  exists merged,
    merge_coverages [layer "binary" "A" "f1" 1; layer "binary" "B" "f2" 2]
      = OK merged /\
    option_map d_serviceableDemand (lookup "d" (c_demand merged))
      = Some (VNum 1).
Proof.
  split; [reflexivity|].
  eexists. split; reflexivity.
Qed.

(** C5.  [create_traumah_model] with the delineator ["#"] raises
    [IndexError]: line 596 cuts the pairing identifier ["Z#a#c"] at the
    dollar sign.  With the delineator ["$"] the same store gives the two
    rows of the pair. *)
Theorem traumah_pair_rows_need_dollar :
  snd (create_traumah_model trauma_store "#" 1 1 [])
    = Err (IndexError "list index out of range") /\
  exists h prob,
    create_traumah_model trauma_store "$" 1 1 [] = (h, OK prob) /\
    row_names prob =
      [Some "NumAirDepot"; Some "NumTraumaCenter"; Some "AIR_GROUND_d1";
       Some "GND_d1"; Some "AIR_d1"; Some "GND_Z$a$c"; Some "AIR_Z$a$c"].
Proof.
  split; [vm_compute; reflexivity|].
  eexists _, _. split; vm_compute; reflexivity.
Qed.

(** C4 as stated fails in three ways.  Two binary stores that satisfy the
    preconditions of the merge merge in both orders, and the serviceable
    demand of ["d"] is the one of whichever store comes first.  Two trauma
    stores that satisfy them merge in one order only: a coverage entry that
    is a list has no [keys] (line 84), and the entries of the first store
    are not read.  Two stores of the type ["Binary"] merge in one order
    only: line 89 raises [KeyError] when the merged-in store covers with
    strength 1. *)
Lemma merge_not_commutative :
  (mergeable "binary" (layer "binary" "A" "f1" 1) (layer "binary" "B" "f2" 2) /\
   ~ merge_commutes (layer "binary" "A" "f1" 1) (layer "binary" "B" "f2" 2)) /\
  (mergeable "traumah" trauma_centers air_depots /\
   (exists m, merge_coverages [trauma_centers; air_depots] = OK m) /\
   merge_coverages [air_depots; trauma_centers]
     = Err (AttributeError "'list' object has no attribute 'keys'")) /\
  (mergeable "Binary" (layer "Binary" "A" "f1" 1)
             (layer_of "Binary" "B" "f2" "d") /\
   (exists m, merge_coverages [layer "Binary" "A" "f1" 1;
                               layer_of "Binary" "B" "f2" "d"] = OK m) /\
   merge_coverages [layer_of "Binary" "B" "f2" "d";
                    layer "Binary" "A" "f1" 1]
     = Err (KeyError "demand")).
Proof.
  split; [|split].
  - split.
    + split; [reflexivity|]. split; [reflexivity|]. split; [reflexivity|].
      intros ft. unfold layer, mem; simpl.
      destruct (String.eqb ft "A") eqn:E; [|discriminate].
      apply String.eqb_eq in E. subst ft. reflexivity.
    + intros (m1 & m2 & H1 & H2 & _ & Hsd).
      vm_compute in H1. vm_compute in H2.
      injection H1 as <-. injection H2 as <-.
      specialize (Hsd "d"). vm_compute in Hsd. discriminate Hsd.
  - split; [|split].
    + split; [reflexivity|]. split; [reflexivity|]. split; [reflexivity|].
      intros ft. unfold trauma_centers, air_depots, mem; simpl.
      destruct (String.eqb ft "TraumaCenter") eqn:E; [|discriminate].
      apply String.eqb_eq in E. subst ft. reflexivity.
    + eexists. vm_compute. reflexivity.
    + vm_compute. reflexivity.
  - split; [|split].
    + split; [reflexivity|]. split; [reflexivity|]. split; [reflexivity|].
      intros ft. unfold layer, layer_of, mem; simpl.
      destruct (String.eqb ft "A") eqn:E; [|discriminate].
      apply String.eqb_eq in E. subst ft. reflexivity.
    + eexists. vm_compute. reflexivity.
    + vm_compute. reflexivity.
Qed.

(* ================================================================== *)
(** * Variables and sums of the builders *)
(* ================================================================== *)

(** A loop that creates one variable per identifier. *)
Lemma var_loop (name : string -> string) low up c
    (f : dict LpVariable -> string -> M heap (dict LpVariable)) :
  (forall acc id h,
      f acc id h =
      (h ++ [mkLpVariable (length h) (name id) low up c],
       OK (dict_set id (mkLpVariable (length h) (name id) low up c) acc))) ->
  forall l h0,
  exists h' d,
    foldM f l [] h0 = (h', OK d) /\
    (length h0 <= length h')%nat /\
    (forall id, In id l -> lookup id d <> None) /\
    (forall id x, lookup id d = Some x ->
                  is_var (name id) low up c x /\
                  (length h0 <= var_id x < length h')%nat).
Proof.
  intros Hf l h0.
  destruct (@foldM_total heap string (dict LpVariable) f
    (fun done d h =>
       (length h0 <= length h)%nat /\
       (forall id, In id done -> lookup id d <> None) /\
       (forall id x, lookup id d = Some x ->
                     is_var (name id) low up c x /\
                     (length h0 <= var_id x < length h)%nat)) l)
    with (s0 := @nil (string * LpVariable)) (t0 := h0)
    as (h' & d & Hrun & HI).
  - intros done a d h (Hlen & Hdone & Hsound) _.
    eexists _, _. split; [apply Hf|].
    rewrite length_app. simpl. split; [lia|]. split.
    + intros id Hin. rewrite lookup_dict_set.
      destruct (String.eqb id a) eqn:E; [congruence|].
      apply in_app_or in Hin. destruct Hin as [Hin|[<-|[]]]; auto.
      rewrite String.eqb_refl in E. discriminate.
    + intros id x. rewrite lookup_dict_set.
      destruct (String.eqb id a) eqn:E.
      * apply String.eqb_eq in E. subst a. intros [= <-]. simpl.
        split; [repeat split | lia].
      * intros Hx. destruct (Hsound id x Hx) as [Hv Hid].
        split; auto. lia.
  - split; [lia|]. split; [intros id []|]. intros id x. discriminate.
  - exists h', d. tauto.
Qed.

Section BuilderFacts.
Variable coverage_dict : Coverage.
Variable delineator : string.

Lemma create_demand_vars_spec prefix low up c h0 :
  exists h' dv,
    create_demand_vars coverage_dict delineator prefix low up c h0
      = (h', OK dv) /\
    (length h0 <= length h')%nat /\
    (forall d, In d (keys (c_demand coverage_dict)) ->
               lookup d dv <> None) /\
    (forall d x, lookup d dv = Some x ->
                 is_var (prefix +++ delineator +++ d) low up c x /\
                 (length h0 <= var_id x < length h')%nat).
Proof.
  unfold create_demand_vars.
  apply (var_loop (fun d => prefix +++ delineator +++ d)).
  reflexivity.
Qed.

Lemma create_facility_vars_spec low up c h0 :
  exists h' fv,
    create_facility_vars coverage_dict delineator low up c h0
      = (h', OK fv) /\
    (length h0 <= length h')%nat /\
    (forall ft fs, lookup ft (c_facilities coverage_dict) = Some fs ->
       exists vars, lookup ft fv = Some vars /\
                    forall fid, In fid (keys fs) -> lookup fid vars <> None) /\
    (forall ft fid x, facility_var fv ft fid = OK x ->
       is_var (ft +++ delineator +++ fid) low up c x /\
       (length h0 <= var_id x < length h')%nat).
Proof.
  unfold create_facility_vars.
  destruct (@foldM_total heap string (dict (dict LpVariable))
    (create_facility_type_vars coverage_dict delineator low up c)
    (fun done fv h =>
       (length h0 <= length h)%nat /\
       (forall ft fs, In ft done ->
          lookup ft (c_facilities coverage_dict) = Some fs ->
          exists vars, lookup ft fv = Some vars /\
                       forall fid, In fid (keys fs) ->
                                   lookup fid vars <> None) /\
       (forall ft vars fid x,
          lookup ft fv = Some vars -> lookup fid vars = Some x ->
          is_var (ft +++ delineator +++ fid) low up c x /\
          (length h0 <= var_id x < length h)%nat))
    (keys (c_facilities coverage_dict)))
    with (s0 := @nil (string * dict LpVariable)) (t0 := h0)
    as (h' & fv & Hrun & Hlen & Hcomplete & Hsound).
  - intros done ft fv h (Hlen & Hcomplete & Hsound) Hin.
    destruct (lookup_keys_some _ _ Hin) as [fs Hfs].
    destruct (var_loop (fun fid => ft +++ delineator +++ fid) low up c
                (create_facility_var delineator ft low up c)
                (fun _ _ _ => eq_refl) (keys fs) h)
      as (h1 & vars & Hvars & Hlen1 & Hc1 & Hs1).
    exists h1, (dict_set ft vars (dict_set ft [] fv)). split.
    + unfold create_facility_type_vars, bindM, lift, getitem, ret.
      rewrite Hfs. now rewrite Hvars.
    + split; [lia|]. split.
      * intros ft' fs' Hin' Hfs'. rewrite lookup_dict_set.
        destruct (String.eqb ft' ft) eqn:E.
        -- apply String.eqb_eq in E. subst ft'.
           assert (fs' = fs) by congruence. subst fs'.
           exists vars. split; auto.
        -- rewrite lookup_dict_set, E.
           apply in_app_or in Hin'. destruct Hin' as [Hin'|[<-|[]]].
           ++ eauto.
           ++ rewrite String.eqb_refl in E. discriminate.
      * intros ft' vars' fid x. rewrite lookup_dict_set.
        destruct (String.eqb ft' ft) eqn:E.
        -- apply String.eqb_eq in E. subst ft'. intros [= <-] Hx.
           destruct (Hs1 fid x Hx). split; auto. lia.
        -- rewrite lookup_dict_set, E. intros Hv Hx.
           destruct (Hsound ft' vars' fid x Hv Hx). split; auto. lia.
  - split; [lia|]. split; [intros ft fs []|]. intros ft vars fid x.
    discriminate.
  - exists h', fv. split; auto. split; auto. split.
    + intros ft fs Hfs. apply (Hcomplete ft fs); auto.
      apply lookup_in_keys. congruence.
    + intros ft fid x Hx. unfold facility_var in Hx.
      apply bindE_ok in Hx. destruct Hx as (vars & Hv & Hx).
      apply getitem_ok in Hv. apply getitem_ok in Hx. eauto.
Qed.
End BuilderFacts.

Lemma coverage_invariant_entry c d r ft e :
  coverage_invariant c = true ->
  lookup d (c_demand c) = Some r ->
  lookup ft (d_coverage r) = Some e ->
  exists m fs,
    e = CovDict m /\ lookup ft (c_facilities c) = Some fs /\
    forall fid, In fid (keys m) -> lookup fid fs <> None.
Proof.
  unfold coverage_invariant. intros Hinv Hr He.
  rewrite forallb_forall in Hinv.
  specialize (Hinv _ (lookup_some_in _ _ Hr)). simpl in Hinv.
  rewrite forallb_forall in Hinv.
  specialize (Hinv _ (lookup_some_in _ _ He)). simpl in Hinv.
  destruct e as [m|l]; [|discriminate].
  destruct (lookup ft (c_facilities c)) as [fs|]; [|discriminate].
  exists m, fs. repeat split; auto.
  intros fid Hfid. rewrite forallb_forall in Hinv.
  specialize (Hinv fid Hfid). unfold mem in Hinv.
  destruct (lookup fid fs); congruence.
Qed.

Section SumFacts.
Variable coverage_dict : Coverage.
Variable facility_vars : dict (dict LpVariable).


Lemma facility_var_total ft fs fid :
  vars_complete coverage_dict facility_vars ->
  lookup ft (c_facilities coverage_dict) = Some fs ->
  lookup fid fs <> None ->
  exists x, facility_var facility_vars ft fid = OK x.
Proof.
  intros Hc Hfs Hfid. destruct (Hc ft fs Hfs) as (vars & Hv & Hall).
  unfold facility_var, getitem. rewrite Hv. simpl.
  specialize (Hall fid (proj2 (lookup_in_keys fid fs) Hfid)).
  destruct (lookup fid vars); [eauto | congruence].
Qed.

(** The loop [to_sum.append(facility_vars[ft][fid])] over [l]. *)
Lemma facility_loop_ok ft l : forall acc res,
  foldE (fun to_sum fid =>
           bindE (facility_var facility_vars ft fid)
                 (fun v => OK (to_sum ++ [OVar v]))) l acc = OK res ->
  exists xs, res = acc ++ map OVar xs /\
             Forall2 (fun x fid => facility_var facility_vars ft fid = OK x)
                     xs l.
Proof.
  induction l as [|fid l IH]; intros acc res Hrun; simpl in Hrun.
  - injection Hrun as <-. exists []. simpl. rewrite app_nil_r. auto.
  - destruct (facility_var facility_vars ft fid) as [x|e] eqn:Hx;
      [|discriminate].
    simpl in Hrun. destruct (IH _ _ Hrun) as (xs & -> & Hxs).
    exists (x :: xs). simpl. rewrite <- app_assoc. split; auto.
Qed.

Lemma facility_loop_total ft l : forall acc,
  (forall fid, In fid l ->
               exists x, facility_var facility_vars ft fid = OK x) ->
  exists res,
    foldE (fun to_sum fid =>
             bindE (facility_var facility_vars ft fid)
                   (fun v => OK (to_sum ++ [OVar v]))) l acc = OK res.
Proof.
  induction l as [|fid l IH]; intros acc Hall; simpl.
  - eauto.
  - destruct (Hall fid (or_introl eq_refl)) as [x Hx]. rewrite Hx. simpl.
    apply IH. intros f Hf. apply Hall. simpl; auto.
Qed.

Lemma sum_facility_type_total ft acc :
  vars_complete coverage_dict facility_vars ->
  In ft (keys (c_facilities coverage_dict)) ->
  exists res, sum_facility_type coverage_dict facility_vars acc ft = OK res.
Proof.
  intros Hc Hin. destruct (lookup_keys_some _ _ Hin) as [fs Hfs].
  unfold sum_facility_type, getitem. rewrite Hfs. simpl.
  apply facility_loop_total. intros fid Hfid.
  apply (facility_var_total ft fid Hc Hfs).
  now apply lookup_in_keys.
Qed.

Lemma sum_all_facilities_total :
  vars_complete coverage_dict facility_vars ->
  exists res, sum_all_facilities coverage_dict facility_vars = OK res.
Proof.
  intros Hc. unfold sum_all_facilities.
  destruct (@foldE_total string (list operand)
              (sum_facility_type coverage_dict facility_vars)
              (fun _ _ => True) (keys (c_facilities coverage_dict)))
    with (s0 := @nil operand) as (res & Hres & _); eauto.
  intros done ft acc _ Hin.
  destruct (sum_facility_type_total ft acc Hc Hin) as [res Hres]. eauto.
Qed.

(** [covering_vars]: the operands are the variables of the covering
    facilities, in order. *)
Lemma covering_type_ok r ft acc res :
  covering_type facility_vars r acc ft = OK res ->
  exists xs, res = acc ++ map OVar xs /\
             Forall2 (fun x p => facility_var facility_vars (fst p) (snd p)
                                 = OK x)
                     xs (covering_of_type r ft).
Proof.
  unfold covering_type, covering_of_type, getitem. intros Hrun.
  destruct (lookup ft (d_coverage r)) as [[m|[|rec l]]|]; simpl in Hrun.
  - destruct (facility_loop_ok _ _ _ Hrun) as (xs & -> & Hxs).
    exists xs. split; auto.
    clear Hrun. induction Hxs; simpl; constructor; auto.
  - injection Hrun as <-. exists []. simpl. rewrite app_nil_r. auto.
  - destruct (lookup ft facility_vars); discriminate.
  - discriminate.
Qed.

Lemma covering_vars_ok demand_id ops :
  covering_vars coverage_dict facility_vars demand_id = OK ops ->
  exists r xs,
    lookup demand_id (c_demand coverage_dict) = Some r /\
    ops = map OVar xs /\
    Forall2 (fun x p => facility_var facility_vars (fst p) (snd p) = OK x)
            xs (covering_pairs r).
Proof.
  unfold covering_vars. intros Hrun.
  apply bindE_ok in Hrun. destruct Hrun as (r & Hr & Hrun).
  apply getitem_ok in Hr. exists r.
  assert (G : forall l acc res,
             foldE (covering_type facility_vars r) l acc = OK res ->
             exists xs, res = acc ++ map OVar xs /\
               Forall2 (fun x p => facility_var facility_vars (fst p) (snd p)
                                   = OK x)
                       xs (flat_map (covering_of_type r) l)).
  { induction l as [|ft l IH]; intros acc res H; simpl in H.
    - injection H as <-. exists []. simpl. rewrite app_nil_r. auto.
    - destruct (covering_type facility_vars r acc ft) as [acc1|e] eqn:H1;
        [|discriminate].
      simpl in H. destruct (covering_type_ok _ _ _ H1) as (xs1 & -> & Hx1).
      destruct (IH _ _ H) as (xs2 & -> & Hx2).
      exists (xs1 ++ xs2). rewrite map_app, app_assoc. split; auto.
      simpl. now apply Forall2_app. }
  destruct (G _ _ _ Hrun) as (xs & -> & Hxs). exists xs. auto.
Qed.

Lemma covering_vars_total demand_id :
  vars_complete coverage_dict facility_vars ->
  coverage_invariant coverage_dict = true ->
  In demand_id (keys (c_demand coverage_dict)) ->
  exists ops, covering_vars coverage_dict facility_vars demand_id = OK ops.
Proof.
  intros Hc Hinv Hin. destruct (lookup_keys_some _ _ Hin) as [r Hr].
  unfold covering_vars, getitem. rewrite Hr. simpl.
  destruct (@foldE_total string (list operand)
              (covering_type facility_vars r)
              (fun _ _ => True) (keys (d_coverage r)))
    with (s0 := @nil operand) as (res & Hres & _); eauto.
  intros done ft acc _ Hft.
  destruct (lookup_keys_some _ _ Hft) as [e He].
  destruct (coverage_invariant_entry _ _ _ Hinv Hr He)
    as (m & fs & -> & Hfs & Hall).
  unfold covering_type, getitem. rewrite He. simpl.
  destruct (facility_loop_total ft (keys m) acc) as [res Hres]; eauto.
  intros fid Hfid. apply (facility_var_total ft fid Hc Hfs). auto.
Qed.

(** The same for the weighted sums of the partial models. *)
Lemma weighted_covering_terms_total demand_id :
  vars_complete coverage_dict facility_vars ->
  coverage_invariant coverage_dict = true ->
  In demand_id (keys (c_demand coverage_dict)) ->
  exists ops,
    weighted_covering_terms coverage_dict facility_vars demand_id = OK ops.
Proof.
  intros Hc Hinv Hin. destruct (lookup_keys_some _ _ Hin) as [r Hr].
  unfold weighted_covering_terms, getitem. rewrite Hr. simpl.
  destruct (@foldE_total string (list operand)
              (weighted_covering_type facility_vars r)
              (fun _ _ => True) (keys (d_coverage r)))
    with (s0 := @nil operand) as (res & Hres & _); eauto.
  intros done ft acc _ Hft.
  destruct (lookup_keys_some _ _ Hft) as [e He].
  destruct (coverage_invariant_entry _ _ _ Hinv Hr He)
    as (m & fs & -> & Hfs & Hall).
  unfold weighted_covering_type, getitem. rewrite He. simpl.
  destruct (@foldE_total string (list operand)
              (fun to_sum facility_id =>
                 bindE match lookup facility_id m with
                       | Some v => OK v
                       | None => Err (KeyError facility_id)
                       end
                   (fun q =>
                      bindE (facility_var facility_vars ft facility_id)
                        (fun v => OK (to_sum ++ [OExpr (rmul q v)]))))
              (fun _ _ => True) (keys m))
    with (s0 := acc) as (res & Hres & _); eauto.
  intros done' fid acc' _ Hfid.
  destruct (lookup_keys_some _ _ Hfid) as [q Hq]. rewrite Hq. simpl.
  destruct (facility_var_total ft fid Hc Hfs (Hall fid Hfid)) as [x Hx].
  rewrite Hx. simpl. eauto.
Qed.
End SumFacts.

(* ================================================================== *)
(** * The threshold builders *)
(* ================================================================== *)

(** ** Where the range error can come from *)

Lemma nre_ok A (a : A) : not_range_error (OK a).
Proof. unfold not_range_error. discriminate. Qed.

Lemma nre_bindE A B (c : result A) (k : A -> result B) :
  not_range_error c -> (forall a, not_range_error (k a)) ->
  not_range_error (bindE c k).
Proof.
  unfold not_range_error. intros Hc Hk. destruct c as [a|e]; simpl; auto.
  intros H. apply Hc. congruence.
Qed.

Lemma nre_foldE A S0 (f : S0 -> A -> result S0) l :
  (forall s a, not_range_error (f s a)) ->
  forall s, not_range_error (foldE f l s).
Proof.
  intros Hf. induction l as [|a l IH]; intros s; simpl.
  - apply nre_ok.
  - apply nre_bindE; auto.
Qed.

Lemma nre_getitem V (k : string) (d : dict V) : not_range_error (getitem k d).
Proof.
  unfold not_range_error, getitem. destruct (lookup k d); discriminate.
Qed.

Lemma nre_bindM T A B (c : M T A) (k : A -> M T B) t :
  not_range_error (snd (c t)) ->
  (forall a t', not_range_error (snd (k a t'))) ->
  not_range_error (snd (bindM c k t)).
Proof.
  unfold bindM. intros Hc Hk. destruct (c t) as [t1 [a|e]].
  - apply Hk.
  - unfold not_range_error in *. simpl in *. intros H. apply Hc. congruence.
Qed.

Lemma nre_foldM T A S0 (f : S0 -> A -> M T S0) l :
  (forall s a t, not_range_error (snd (f s a t))) ->
  forall s t, not_range_error (snd (foldM f l s t)).
Proof.
  intros Hf. induction l as [|a l IH]; intros s t; simpl.
  - apply nre_ok.
  - apply nre_bindM; auto.
Qed.

Ltac nre_step :=
  match goal with
  | |- not_range_error (OK _) => apply nre_ok
  | |- not_range_error (Err _) => unfold not_range_error, psi_range_error; discriminate
  | |- not_range_error (bindE _ _) => apply nre_bindE
  | |- not_range_error (foldE _ _ _) => apply nre_foldE
  | |- not_range_error (getitem _ _) => apply nre_getitem
  | |- not_range_error (snd (bindM _ _ _)) => apply nre_bindM
  | |- not_range_error (snd (foldM _ _ _ _)) => apply nre_foldM
  | |- not_range_error (snd (lift _ _)) => unfold lift; simpl snd
  | |- not_range_error (snd (ret _ _)) => unfold ret; simpl snd
  | |- not_range_error (snd (pulp_LpVariable _ _ _ _ _)) =>
      unfold pulp_LpVariable; simpl snd
  | |- not_range_error (match ?x with _ => _ end) => destruct x
  | |- not_range_error (if ?x then _ else _) => destruct x
  | |- forall _, _ => intro
  end.

Ltac nre := repeat nre_step.

Lemma nre_validate c modes types :
  not_range_error (validate_coverage c modes types).
Proof. unfold validate_coverage. nre. Qed.

Lemma nre_facility_var fv ft fid : not_range_error (facility_var fv ft fid).
Proof. unfold facility_var. nre. Qed.

Lemma nre_sum_all_facilities c fv : not_range_error (sum_all_facilities c fv).
Proof.
  unfold sum_all_facilities, sum_facility_type. nre.
  apply nre_facility_var.
Qed.

Lemma nre_covering_vars c fv d : not_range_error (covering_vars c fv d).
Proof.
  unfold covering_vars, covering_type. nre. apply nre_facility_var.
Qed.

Lemma nre_weighted_covering_terms c fv d :
  not_range_error (weighted_covering_terms c fv d).
Proof.
  unfold weighted_covering_terms, weighted_covering_type. nre.
  apply nre_facility_var.
Qed.

Lemma nre_demand_weight c dvar d : not_range_error (demand_weight c dvar d).
Proof. unfold demand_weight, record_field, as_number. nre. Qed.

Lemma nre_sum_demand_of c dvar : not_range_error (sum_demand_of c dvar).
Proof. unfold sum_demand_of, record_field, add_number. nre. Qed.

Lemma nre_hundred_over s : not_range_error (hundred_over s).
Proof. unfold hundred_over. nre. Qed.

Lemma nre_create_demand_vars c delin prefix low up k h :
  not_range_error (snd (create_demand_vars c delin prefix low up k h)).
Proof. unfold create_demand_vars, create_demand_var. nre. Qed.

Lemma nre_create_facility_vars c delin low up k h :
  not_range_error (snd (create_facility_vars c delin low up k h)).
Proof.
  unfold create_facility_vars, create_facility_type_vars, create_facility_var.
  nre.
Qed.

Lemma check_psi_in_range q :
  0 <= q -> q <= 100 -> check_psi (ArgNum q) = OK q.
Proof.
  intros H0 H100. unfold check_psi.
  apply Qle_bool_iff in H0. apply Qle_bool_iff in H100.
  now rewrite H0, H100.
Qed.

Lemma check_psi_out_of_range q :
  q < 0 \/ 100 < q -> check_psi (ArgNum q) = Err psi_range_error.
Proof.
  intros H. unfold check_psi.
  destruct (Qle_bool q 100) eqn:E1; simpl; auto.
  destruct (Qle_bool 0 q) eqn:E2; simpl; auto.
  apply Qle_bool_iff in E1. apply Qle_bool_iff in E2.
  destruct H as [H|H]; [apply Qlt_not_le in H | apply Qlt_not_le in H];
    contradiction.
Qed.

(** C9.  For a number [psi] below 0 or above 100, [create_threshold_model]
    and [create_cc_threshold_model] raise without creating a variable: the
    variables created so far are those before the call.  The exception is
    the range error whenever the store passes the validation of the builder
    (which runs first, lines 253 and 326).  For [psi] in [0,100] neither
    builder raises the range error, whatever the other inputs. *)
Theorem psi_range_checked_first (coverage_dict : Coverage) (psi : Q)
    (delineator : string) (use_serviceable_demand : bool) (h : heap) :
  (psi < 0 \/ 100 < psi ->
   exists e1 e2,
     create_threshold_model coverage_dict (ArgNum psi) delineator
                            use_serviceable_demand h = (h, Err e1) /\
     create_cc_threshold_model coverage_dict (ArgNum psi) delineator
                               use_serviceable_demand h = (h, Err e2) /\
     (validate_coverage coverage_dict ["coverage"] ["binary"] = OK tt ->
      e1 = psi_range_error) /\
     (validate_coverage coverage_dict ["coverage"] ["partial"] = OK tt ->
      e2 = psi_range_error)) /\
  (0 <= psi /\ psi <= 100 ->
   not_range_error
     (snd (create_threshold_model coverage_dict (ArgNum psi) delineator
                                  use_serviceable_demand h)) /\
   not_range_error
     (snd (create_cc_threshold_model coverage_dict (ArgNum psi) delineator
                                     use_serviceable_demand h))).
Proof.
  split.
  - intros Hout.
    assert (H1 : exists e1,
               create_threshold_model coverage_dict (ArgNum psi) delineator
                                      use_serviceable_demand h = (h, Err e1) /\
               (validate_coverage coverage_dict ["coverage"] ["binary"] = OK tt
                -> e1 = psi_range_error)).
    { unfold create_threshold_model, bindM, lift.
      destruct (validate_coverage coverage_dict ["coverage"] ["binary"])
        as [[]|e].
      - rewrite (check_psi_out_of_range Hout). eauto.
      - exists e. split; [reflexivity | discriminate]. }
    assert (H2 : exists e2,
               create_cc_threshold_model coverage_dict (ArgNum psi) delineator
                                         use_serviceable_demand h
                 = (h, Err e2) /\
               (validate_coverage coverage_dict ["coverage"] ["partial"] = OK tt
                -> e2 = psi_range_error)).
    { unfold create_cc_threshold_model, bindM, lift.
      destruct (validate_coverage coverage_dict ["coverage"] ["partial"])
        as [[]|e].
      - rewrite (check_psi_out_of_range Hout). eauto.
      - exists e. split; [reflexivity | discriminate]. }
    destruct H1 as (e1 & Hr1 & He1). destruct H2 as (e2 & Hr2 & He2).
    exists e1, e2. auto.
  - intros [H0 H100]. split.
    + unfold create_threshold_model.
      apply nre_bindM; [apply nre_validate|]. intros _ t1.
      apply nre_bindM;
        [unfold lift; cbn [snd]; rewrite (check_psi_in_range H0 H100); apply nre_ok|].
      intros psi' t2.
      apply nre_bindM; [apply nre_create_demand_vars|]. intros dv t3.
      apply nre_bindM; [apply nre_create_facility_vars|]. intros fv t4.
      apply nre_bindM; [apply nre_sum_all_facilities|]. intros ts t5.
      apply nre_bindM.
      { unfold lift; simpl. apply nre_foldE. intros p d.
        unfold binary_row. nre. apply nre_covering_vars. }
      intros p t6.
      apply nre_bindM; [apply nre_sum_demand_of|]. intros s t7.
      apply nre_bindM; [|intros; apply nre_ok].
      unfold lift; simpl. unfold threshold_terms. nre.
      * apply nre_hundred_over.
      * apply nre_demand_weight.
    + unfold create_cc_threshold_model.
      apply nre_bindM; [apply nre_validate|]. intros _ t1.
      apply nre_bindM;
        [unfold lift; cbn [snd]; rewrite (check_psi_in_range H0 H100); apply nre_ok|].
      intros psi' t2.
      apply nre_bindM; [apply nre_create_demand_vars|]. intros dv t3.
      apply nre_bindM; [apply nre_create_facility_vars|]. intros fv t4.
      apply nre_bindM; [apply nre_sum_all_facilities|]. intros ts t5.
      apply nre_bindM.
      { unfold lift; simpl. apply nre_foldE. intros p d.
        unfold cc_rows. nre.
        - apply nre_weighted_covering_terms.
        - apply nre_demand_weight. }
      intros p t6.
      apply nre_bindM; [apply nre_sum_demand_of|]. intros s t7.
      apply nre_bindM; [|intros; apply nre_ok].
      unfold lift; simpl. unfold cc_threshold_terms. nre.
      apply nre_hundred_over.
Qed.

Lemma psi_range_checked_first_witness :
  (exists e1 e2,
     create_threshold_model two_unit_store (ArgNum 150) "$" false []
       = ([], Err e1) /\
     create_cc_threshold_model two_unit_store (ArgNum 150) "$" false []
       = ([], Err e2) /\
     (validate_coverage two_unit_store ["coverage"] ["binary"] = OK tt ->
      e1 = psi_range_error) /\
     (validate_coverage two_unit_store ["coverage"] ["partial"] = OK tt ->
      e2 = psi_range_error)) /\
  e_of (create_threshold_model two_unit_store (ArgNum 150) "$" false [])
    = Some psi_range_error /\
  not_range_error
    (snd (create_threshold_model two_unit_store (ArgNum 50) "$" false [])) /\
  not_range_error
    (snd (create_cc_threshold_model partial_two_units (ArgNum 100) "$"
                                    false [])).
Proof.
  split; [|split; [reflexivity|split]].
  - apply (proj1 (psi_range_checked_first two_unit_store 150 "$" false [])).
    right. reflexivity.
  - apply (proj2 (psi_range_checked_first two_unit_store 50 "$" false [])).
    split; discriminate.
  - apply (proj2 (psi_range_checked_first partial_two_units 100 "$" false [])).
    split; discriminate.
Defined.

(** ** Division by the total demand *)

Lemma binary_rows_total c rhs dv fv prob :
  vars_complete c fv ->
  coverage_invariant c = true ->
  (forall d, In d (keys (c_demand c)) -> lookup d dv <> None) ->
  exists prob',
    foldE (binary_row c rhs dv fv) (keys (c_demand c)) prob = OK prob'.
Proof.
  intros Hc Hinv Hdv.
  destruct (@foldE_total string LpProblem (binary_row c rhs dv fv)
              (fun _ _ => True) (keys (c_demand c)))
    with (s0 := prob) as (p & Hp & _); eauto.
  intros done d p _ Hd.
  destruct (covering_vars_total d Hc Hinv Hd) as [ops Hops].
  unfold binary_row. rewrite Hops. simpl.
  destruct (lookup_keys_some _ _ (proj2 (lookup_in_keys d dv) (Hdv d Hd)))
    as [y Hy].
  unfold getitem. rewrite Hy. simpl. eauto.
Qed.

Lemma sum_demand_weights c dvar s :
  sum_demand_of c dvar = OK s ->
  forall d, In d (keys (c_demand c)) -> exists q, demand_weight c dvar d = OK q.
Proof.
  unfold sum_demand_of. intros Hsum.
  apply (@foldE_invariant string Q
           (fun sum_demand demand_id =>
              bindE (getitem demand_id (c_demand c))
                (fun r => bindE (record_field r dvar)
                            (fun w => add_number sum_demand w)))
           (fun done _ => forall d, In d done ->
                                    exists q, demand_weight c dvar d = OK q)
           (keys (c_demand c))) with (s0 := 0) (s' := s); auto.
  - intros done d acc acc' HI Hstep x Hx.
    apply in_app_or in Hx. destruct Hx as [Hx|[<-|[]]]; auto.
    unfold demand_weight.
    destruct (getitem d (c_demand c)) as [r|e]; [|discriminate]. simpl in *.
    destruct (record_field r dvar) as [w|e]; [|discriminate]. simpl in *.
    destruct w as [q|e]; [|discriminate]. simpl. eauto.
  - intros d [].
Qed.

Lemma cc_rows_total c dvar dv fv prob s :
  vars_complete c fv ->
  coverage_invariant c = true ->
  (forall d, In d (keys (c_demand c)) -> lookup d dv <> None) ->
  sum_demand_of c dvar = OK s ->
  exists prob',
    foldE (cc_rows c dvar dv fv) (keys (c_demand c)) prob = OK prob'.
Proof.
  intros Hc Hinv Hdv Hsum.
  destruct (@foldE_total string LpProblem (cc_rows c dvar dv fv)
              (fun _ _ => True) (keys (c_demand c)))
    with (s0 := prob) as (p & Hp & _); eauto.
  intros done d p _ Hd.
  destruct (weighted_covering_terms_total d Hc Hinv Hd) as [ops Hops].
  unfold cc_rows. rewrite Hops. simpl.
  destruct (lookup_keys_some _ _ (proj2 (lookup_in_keys d dv) (Hdv d Hd)))
    as [y Hy].
  unfold getitem. rewrite Hy. simpl.
  destruct (sum_demand_weights _ _ Hsum d Hd) as [q Hq]. rewrite Hq. simpl.
  eauto.
Qed.

Lemma hundred_over_zero s :
  s == 0 -> hundred_over s = Err (ZeroDivisionError "division by zero").
Proof.
  intros Hs. unfold hundred_over. apply Qeq_bool_iff in Hs. now rewrite Hs.
Qed.

(** C10, as amended.  For a store that passes the validation of the builder
    and keeps the store invariant, with at least one demand unit, a [psi] in
    [0,100], and demand weights (nominal or serviceable, as selected) that
    sum to zero, [create_threshold_model] and [create_cc_threshold_model]
    raise [ZeroDivisionError] and return no problem. *)
Theorem threshold_zero_total_demand (coverage_dict : Coverage) (psi : Q)
    (delineator : string) (use_serviceable_demand : bool) (h : heap) (s : Q) :
  0 <= psi -> psi <= 100 ->
  coverage_invariant coverage_dict = true ->
  c_demand coverage_dict <> [] ->
  sum_demand_of coverage_dict (demand_var_of use_serviceable_demand) = OK s ->
  s == 0 ->
  (validate_coverage coverage_dict ["coverage"] ["binary"] = OK tt ->
   exists h',
     create_threshold_model coverage_dict (ArgNum psi) delineator
                            use_serviceable_demand h
       = (h', Err (ZeroDivisionError "division by zero"))) /\
  (validate_coverage coverage_dict ["coverage"] ["partial"] = OK tt ->
   exists h',
     create_cc_threshold_model coverage_dict (ArgNum psi) delineator
                               use_serviceable_demand h
       = (h', Err (ZeroDivisionError "division by zero"))).
Proof.
  intros H0 H100 Hinv Hne Hsum Hs.
  assert (Hkeys : exists d rest, keys (c_demand coverage_dict) = d :: rest).
  { destruct (c_demand coverage_dict) as [|[d r] rest]; [congruence|].
    exists d, (keys rest). reflexivity. }
  destruct Hkeys as (d0 & rest & Hkeys).
  split; intros Hv.
  - destruct (create_demand_vars_spec coverage_dict delineator "Y"
                (Some 0) (Some 1) LpInteger h)
      as (h1 & dv & Hdv & _ & Hdvc & _).
    destruct (create_facility_vars_spec coverage_dict delineator
                (Some 0) (Some 1) LpInteger h1)
      as (h2 & fv & Hfv & _ & Hfvc & _).
    destruct (sum_all_facilities_total Hfvc) as [ts Hts].
    destruct (@binary_rows_total coverage_dict 0 dv fv
                (set_objective (new_LpProblem "ThresholdModel" LpMinimize)
                               (lpSum ts)) Hfvc Hinv Hdvc) as [p Hp].
    exists h2. unfold create_threshold_model, bindM, lift.
    rewrite Hv, (check_psi_in_range H0 H100), Hdv, Hfv, Hts, Hp, Hsum.
    unfold threshold_terms. rewrite Hkeys. simpl foldE.
    now rewrite (hundred_over_zero Hs).
  - destruct (create_demand_vars_spec coverage_dict delineator "Y"
                (Some 0) None LpContinuous h)
      as (h1 & dv & Hdv & _ & Hdvc & _).
    destruct (create_facility_vars_spec coverage_dict delineator
                (Some 0) (Some 1) LpInteger h1)
      as (h2 & fv & Hfv & _ & Hfvc & _).
    destruct (sum_all_facilities_total Hfvc) as [ts Hts].
    destruct (@cc_rows_total coverage_dict
                (demand_var_of use_serviceable_demand) dv fv
                (set_objective (new_LpProblem "ThresholdModel" LpMinimize)
                               (lpSum ts)) s Hfvc Hinv Hdvc Hsum) as [p Hp].
    exists h2. unfold create_cc_threshold_model, bindM, lift.
    rewrite Hv, (check_psi_in_range H0 H100), Hdv, Hfv, Hts, Hp, Hsum.
    unfold cc_threshold_terms. rewrite Hkeys. simpl foldE.
    now rewrite (hundred_over_zero Hs).
Qed.

Lemma threshold_zero_total_demand_witness :
  (exists h',
     create_threshold_model (zero_demand_store "binary") (ArgNum 50) "$"
                            false []
       = (h', Err (ZeroDivisionError "division by zero"))) /\
  (exists h',
     create_cc_threshold_model (zero_demand_store "partial") (ArgNum 50) "$"
                               true []
       = (h', Err (ZeroDivisionError "division by zero"))).
Proof.
  split.
  - apply (proj1 (@threshold_zero_total_demand
                    (zero_demand_store "binary") 50 "$" false [] 0
                    ltac:(discriminate) ltac:(discriminate)
                    eq_refl ltac:(discriminate) eq_refl ltac:(reflexivity))).
    reflexivity.
  - apply (proj2 (@threshold_zero_total_demand
                    (zero_demand_store "partial") 50 "$" true [] 0
                    ltac:(discriminate) ltac:(discriminate)
                    eq_refl ltac:(discriminate) eq_refl ltac:(reflexivity))).
    reflexivity.
Defined.

(** C10 as stated fails: a store without demand units is valid, its demand
    weights sum to zero, and both builders return a problem, because the
    division stands inside the loop over the demand units. *)
Lemma threshold_without_demand_units :
  (validate_coverage (no_demand_store "binary") ["coverage"] ["binary"]
     = OK tt /\
   coverage_invariant (no_demand_store "binary") = true /\
   sum_demand_of (no_demand_store "binary") "demand" = OK 0 /\
   exists prob,
     snd (create_threshold_model (no_demand_store "binary") (ArgNum 50) "$"
                                 false []) = OK prob) /\
  (validate_coverage (no_demand_store "partial") ["coverage"] ["partial"]
     = OK tt /\
   coverage_invariant (no_demand_store "partial") = true /\
   sum_demand_of (no_demand_store "partial") "demand" = OK 0 /\
   exists prob,
     snd (create_cc_threshold_model (no_demand_store "partial") (ArgNum 50)
                                    "$" false []) = OK prob).
Proof.
  split; (split; [reflexivity|]); (split; [reflexivity|]);
    (split; [reflexivity|]); eexists; vm_compute; reflexivity.
Qed.

(* ================================================================== *)
(** * Linear expressions *)
(* ================================================================== *)

Lemma eval_terms_addterm a v c ts :
  eval_terms a (addterm_list v c ts) == eval_terms a ts + c * a (var_id v).
Proof.
  induction ts as [|[v' x] ts IH]; simpl.
  - ring.
  - destruct (Nat.eqb (var_id v') (var_id v)) eqn:E; simpl.
    + apply Nat.eqb_eq in E. rewrite E.
      destruct (Qeq_bool x 0) eqn:Ex.
      * apply Qeq_bool_iff in Ex. rewrite Ex. ring.
      * ring.
    + rewrite IH. ring.
Qed.

Lemma eval_addterm a v c e :
  eval a (addterm v c e) == eval a e + c * a (var_id v).
Proof.
  unfold eval, addterm. simpl. rewrite eval_terms_addterm. ring.
Qed.

Lemma eval_add_vars a xs : forall e,
  eval a (fold_left (addInPlace 1) (map OVar xs) e)
  == eval a e + sum_values a xs.
Proof.
  induction xs as [|x xs IH]; intros e; simpl.
  - ring.
  - rewrite IH, eval_addterm. ring.
Qed.

Lemma eval_lpSum_vars a xs : eval a (lpSum (map OVar xs)) == sum_values a xs.
Proof.
  unfold lpSum. rewrite eval_add_vars. unfold eval, empty_expr. simpl. ring.
Qed.






Lemma row_vars_in_problem prob name row v :
  In (name, row) (constraints prob) ->
  In v (expr_vars (c_lhs row)) ->
  In v (problem_vars prob).
Proof.
  intros Hrow Hv. unfold problem_vars. apply in_or_app. right.
  apply in_flat_map. exists (name, row). auto.
Qed.

(* ================================================================== *)
(** * [create_backup_model] *)
(* ================================================================== *)

Lemma rows_kept_refl p : rows_kept p p.
Proof. intros nc H. exact H. Qed.

Lemma rows_kept_add p p' c name :
  rows_kept p p' -> rows_kept p (add_constraint p' c name).
Proof.
  intros H nc Hnc. unfold add_constraint. simpl.
  apply in_or_app. left. auto.
Qed.

Lemma in_add_constraint p c name :
  In (name, c) (constraints (add_constraint p c name)).
Proof.
  unfold add_constraint. simpl. apply in_or_app. right. simpl. auto.
Qed.



Lemma numeric_weights_weight c dvar d :
  numeric_weights c dvar = true ->
  In d (keys (c_demand c)) ->
  exists q, demand_weight c dvar d = OK q.
Proof.
  unfold numeric_weights. rewrite forallb_forall. intros Hall Hd.
  destruct (lookup_keys_some _ _ Hd) as [r Hr].
  specialize (Hall _ (lookup_some_in _ _ Hr)). simpl in Hall.
  unfold demand_weight, getitem. rewrite Hr. simpl.
  destruct (record_field r dvar) as [[q|e]|e]; try discriminate.
  simpl. eauto.
Qed.

Lemma weighted_demand_terms_total c dvar dv :
  numeric_weights c dvar = true ->
  (forall d, In d (keys (c_demand c)) -> lookup d dv <> None) ->
  exists obj, weighted_demand_terms c dvar dv = OK obj.
Proof.
  intros Hnum Hdv. unfold weighted_demand_terms.
  destruct (@foldE_total string (list operand)
              (fun acc demand_id =>
                 bindE (getitem demand_id (c_demand c))
                   (fun r => bindE (record_field r dvar)
                      (fun w => bindE (getitem demand_id dv)
                         (fun v => bindE (as_number w)
                            (fun q => OK (acc ++ [OExpr (rmul q v)]))))))
              (fun _ _ => True) (keys (c_demand c)))
    with (s0 := @nil operand) as (obj & Hobj & _); eauto.
  intros done d acc _ Hd.
  destruct (numeric_weights_weight c dvar d Hnum Hd) as [q Hq].
  unfold demand_weight in Hq.
  destruct (getitem d (c_demand c)) as [r|e]; [|discriminate]. simpl in *.
  destruct (record_field r dvar) as [w|e]; [|discriminate]. simpl in *.
  destruct (lookup_keys_some _ _ (proj2 (lookup_in_keys d dv) (Hdv d Hd)))
    as [y Hy].
  unfold getitem. rewrite Hy. simpl. rewrite Hq. simpl. eauto.
Qed.






(* ================================================================== *)
(** * [create_lscp_model] *)
(* ================================================================== *)

Lemma lscp_row_run c delin fv p d h ops :
  covering_vars c fv d = OK ops ->
  lscp_row c delin fv p d h =
  match ops with
  | [] =>
      (h ++ [mkLpVariable (length h) ("__dummy" +++ delin +++ d)
                          (Some 0) (Some 0) LpInteger],
       OK (add_constraint p
             (expr_ge (lpSum [OVar (mkLpVariable (length h)
                                      ("__dummy" +++ delin +++ d)
                                      (Some 0) (Some 0) LpInteger)]) 1)
             (Some ("D" +++ d))))
  | _ :: _ =>
      (h, OK (add_constraint p (expr_ge (lpSum ops) 1) (Some ("D" +++ d))))
  end.
Proof.
  intros Hops. unfold lscp_row, bindM, lift. rewrite Hops.
  destruct ops; reflexivity.
Qed.

(** C8.  For a store that passes the validation of [create_lscp_model] and
    keeps the store invariant, and a demand unit [d] without covering
    facility, the builder returns a problem that has the row [D d]: one
    placeholder variable named ["__dummy" + delineator + d], integer with
    lower and upper bound 0, with coefficient 1, at least 1. *)
Theorem lscp_empty_coverage_row (coverage_dict : Coverage)
    (delineator : string) (h : heap) (d : string) (r : DemandRecord) :
  validate_coverage coverage_dict ["coverage"] ["binary"] = OK tt ->
  coverage_invariant coverage_dict = true ->
  lookup d (c_demand coverage_dict) = Some r ->
  covering_pairs r = [] ->
  exists h' prob v,
    create_lscp_model coverage_dict delineator h = (h', OK prob) /\
    is_var ("__dummy" +++ delineator +++ d) (Some 0) (Some 0) LpInteger v /\
    In v h' /\
    In (Some ("D" +++ d),
        mkLpConstraint (mkExpr [(v, 1)] 0) LpConstraintGE 1)
       (constraints prob).
Proof.
  intros Hv Hinv Hr Hempty.
  destruct (create_demand_vars_spec coverage_dict delineator "Y"
              (Some 0) (Some 1) LpInteger h)
    as (h1 & dv & Hdv & _ & _ & _).
  destruct (create_facility_vars_spec coverage_dict delineator
              (Some 0) (Some 1) LpInteger h1)
    as (h2 & fv & Hfv & _ & Hfvc & _).
  destruct (sum_all_facilities_total Hfvc) as [ts Hts].
  destruct (@foldM_total heap string LpProblem
              (lscp_row coverage_dict delineator fv)
              (fun done p t =>
                 forall d' r', In d' done ->
                   lookup d' (c_demand coverage_dict) = Some r' ->
                   covering_pairs r' = [] ->
                   exists v,
                     is_var ("__dummy" +++ delineator +++ d')
                            (Some 0) (Some 0) LpInteger v /\
                     In v t /\
                     In (Some ("D" +++ d'),
                         mkLpConstraint (mkExpr [(v, 1)] 0) LpConstraintGE 1)
                        (constraints p))
              (keys (c_demand coverage_dict)))
    with (s0 := set_objective (new_LpProblem "LSCP" LpMinimize) (lpSum ts))
         (t0 := h2)
    as (h' & prob & Hrun & HI).
  - intros done d1 p t HI Hd1.
    destruct (covering_vars_total d1 Hfvc Hinv Hd1) as [ops Hops].
    rewrite (@lscp_row_run coverage_dict delineator fv p d1 t ops Hops).
    destruct (covering_vars_ok _ _ _ Hops) as (r1 & xs & Hr1 & -> & Hxs).
    destruct xs as [|x xs]; simpl map; cbv iota.
    + eexists _, _. split; [reflexivity|].
      intros d' r' Hd' Hr' He'.
      apply in_app_or in Hd'. destruct Hd' as [Hd'|[<-|[]]].
      * destruct (HI d' r' Hd' Hr' He') as (v & Hvar & Hin & Hrow).
        exists v. split; auto. split; [apply in_or_app; auto|].
        apply (rows_kept_add _ _ (rows_kept_refl p)). exact Hrow.
      * exists (mkLpVariable (length t) ("__dummy" +++ delineator +++ d1)
                             (Some 0) (Some 0) LpInteger).
        split; [repeat split|].
        split; [apply in_or_app; right; simpl; auto|].
        apply in_add_constraint.
    + eexists _, _. split; [reflexivity|].
      intros d' r' Hd' Hr' He'.
      apply in_app_or in Hd'. destruct Hd' as [Hd'|[<-|[]]].
      * destruct (HI d' r' Hd' Hr' He') as (v & Hvar & Hin & Hrow).
        exists v. split; auto. split; auto.
        apply (rows_kept_add _ _ (rows_kept_refl p)). exact Hrow.
      * assert (r' = r1) by congruence. subst r'.
        rewrite He' in Hxs. inversion Hxs.
  - intros d' r' [].
  - destruct (HI d r) as (v & Hvar & Hin & Hrow); auto.
    { apply lookup_in_keys. congruence. }
    exists h', prob, v. split; auto.
    unfold create_lscp_model, bindM, lift.
    now rewrite Hv, Hdv, Hfv, Hts.
Qed.

Lemma lscp_empty_coverage_row_witness :
  exists h' prob v,
    create_lscp_model covered_and_uncovered "$" [] = (h', OK prob) /\
    is_var ("__dummy" +++ "$" +++ "d2") (Some 0) (Some 0) LpInteger v /\
    In v h' /\
    In (Some ("D" +++ "d2"),
        mkLpConstraint (mkExpr [(v, 1)] 0) LpConstraintGE 1)
       (constraints prob).
Proof.
  exact (@lscp_empty_coverage_row covered_and_uncovered "$" [] "d2"
           (mkDemandRecord 20 (VNum 0) [("T", CovDict [])])
           eq_refl eq_refl eq_refl eq_refl).
Defined.

(* ================================================================== *)
(** * [merge_coverages] *)
(* ================================================================== *)

(** ** The checks of the first loop *)

Lemma validate_kind c k :
  validate_coverage c ["coverage"] [k] = OK tt ->
  exists t, c_type c = Some t /\ lookup "type" t = Some k.
Proof.
  unfold validate_coverage. destruct (c_type c) as [t|]; [|discriminate].
  destruct (lookup "type" t) as [ty|] eqn:Hty; [|discriminate].
  unfold str_in at 1. simpl existsb.
  destruct (String.eqb ty k) eqn:E; simpl; [|discriminate].
  apply String.eqb_eq in E. subst. intros _. eauto.
Qed.

Lemma item_eqb_name a b : item_eqb a b = true -> fst a = fst b.
Proof.
  unfold item_eqb. rewrite andb_true_iff. intros [H _].
  now apply String.eqb_eq.
Qed.

Lemma check_facility_types_ok items : forall acc,
  NoDup (keys acc ++ keys items) ->
  foldE check_facility_type items acc = OK (acc ++ items).
Proof.
  induction items as [|it items IH]; intros acc Hnd; simpl.
  - now rewrite app_nil_r.
  - unfold check_facility_type at 1.
    assert (Hnew : existsb (item_eqb it) acc = false).
    { destruct (existsb (item_eqb it) acc) eqn:E; auto.
      apply existsb_exists in E. destruct E as (x & Hx & Heq).
      apply item_eqb_name in Heq. exfalso.
      apply NoDup_remove_2 in Hnd. apply Hnd. apply in_or_app. left.
      rewrite Heq. unfold keys. now apply in_map. }
    rewrite Hnew. simpl. rewrite IH.
    + now rewrite <- app_assoc.
    + unfold keys in *. rewrite map_app. simpl. rewrite <- app_assoc.
      exact Hnd.
Qed.

Lemma nodup_app (l1 l2 : list string) :
  NoDup l1 -> NoDup l2 -> (forall x, In x l1 -> ~ In x l2) ->
  NoDup (l1 ++ l2).
Proof.
  induction l1 as [|x l1 IH]; simpl; intros H1 H2 Hdis; auto.
  inversion H1 as [|? ? Hx Hl1]. subst. constructor.
  - intros Hin. apply in_app_or in Hin. destruct Hin as [Hin|Hin]; auto.
    apply (Hdis x); auto.
  - apply IH; auto.
Qed.

Lemma check_coverages_ok k a b :
  mergeable k a b ->
  NoDup (keys (c_facilities a)) -> NoDup (keys (c_facilities b)) ->
  foldE check_coverage [a; b] (mkMergeChecks [] [] None)
  = OK (mkMergeChecks (c_facilities a ++ c_facilities b)
                      [keys (c_demand a); keys (c_demand b)] (Some k)).
Proof.
  intros (Hva & Hvb & _ & Hdis) Hna Hnb.
  destruct (@validate_kind a k Hva) as (ta & Hta & Hka).
  simpl foldE. unfold check_coverage at 1. simpl coverage_type.
  rewrite Hta. simpl. unfold getitem. rewrite Hka. simpl.
  rewrite Hva. simpl.
  rewrite (check_facility_types_ok (c_facilities a) []) by exact Hna.
  simpl. unfold check_coverage. simpl. rewrite Hvb. simpl.
  rewrite check_facility_types_ok; [reflexivity|].
  apply nodup_app; auto.
  intros ft Hin Hin'. apply lookup_in_keys, mem_true in Hin.
  apply lookup_in_keys, mem_true in Hin'.
  rewrite (Hdis ft Hin) in Hin'. discriminate.
Qed.

Lemma check_demand_keys_ok ka kb :
  set_eqb ka kb = true -> check_demand_keys [ka; kb] = OK tt.
Proof.
  intros H. unfold check_demand_keys. simpl.
  rewrite !set_eqb_refl, H, (set_eqb_sym kb ka), H. reflexivity.
Qed.

(** ** The facilities of the merged store (lines 75-78) *)

Lemma merge_facilities_ok b master :
  exists master',
    foldE (merge_facility_type b) (keys (c_facilities b)) master = OK master' /\
    c_type master' = c_type master /\
    c_demand master' = c_demand master /\
    c_totalServiceableDemand master' = c_totalServiceableDemand master /\
    forall ft, lookup ft (c_facilities master') =
               match lookup ft (c_facilities b) with
               | Some fs => Some fs
               | None => lookup ft (c_facilities master)
               end.
Proof.
  destruct (@foldE_total string Coverage (merge_facility_type b)
              (fun done m =>
                 c_type m = c_type master /\
                 c_demand m = c_demand master /\
                 c_totalServiceableDemand m = c_totalServiceableDemand master /\
                 forall ft, lookup ft (c_facilities m) =
                            if str_in ft done
                            then match lookup ft (c_facilities b) with
                                 | Some fs => Some fs
                                 | None => lookup ft (c_facilities master)
                                 end
                            else lookup ft (c_facilities master))
              (keys (c_facilities b)))
    with (s0 := master) as (m' & Hrun & Ht & Hd & Htot & Hl).
  - intros done ft0 m (Ht & Hd & Htot & Hl) Hin.
    destruct (lookup_keys_some _ _ Hin) as [fs Hfs].
    unfold merge_facility_type, getitem. rewrite Hfs. simpl.
    eexists. split; [reflexivity|].
    split; [destruct (negb (mem ft0 (c_facilities m))); exact Ht|].
    split; [destruct (negb (mem ft0 (c_facilities m))); exact Hd|].
    split; [destruct (negb (mem ft0 (c_facilities m))); exact Htot|].
    intros ft. simpl c_facilities. rewrite lookup_dict_set, str_in_app,
      str_in_single.
    destruct (String.eqb ft ft0) eqn:E.
    + apply String.eqb_eq in E. subst ft0. rewrite Hfs, orb_true_r.
      reflexivity.
    + rewrite orb_false_r.
      destruct (negb (mem ft0 (c_facilities m))); simpl c_facilities;
        [rewrite lookup_dict_set, E|]; apply Hl.
  - repeat split; auto.
  - exists m'. repeat split; auto. intros ft. rewrite Hl, str_in_keys.
    unfold mem. destruct (lookup ft (c_facilities b)); reflexivity.
Qed.

(** ** The coverage of the merged store (lines 80-86) *)

Section MergeLoops.
Variable ct : option string.
Variable b : Coverage.
Hypothesis Hct : overwrites ct = false.

Lemma put_entry_twice master d mr ft e e' :
  put_entry (put_entry master d mr ft e') d
            (with_coverage mr (dict_set ft e' (d_coverage mr))) ft e
  = put_entry master d mr ft e.
Proof.
  unfold put_entry, with_demand, with_coverage. simpl.
  now rewrite !dict_set_twice.
Qed.

Lemma put_entry_same master d mr ft e :
  lookup d (c_demand master) = Some mr ->
  lookup ft (d_coverage mr) = Some e ->
  put_entry master d mr ft e = master.
Proof.
  intros Hd He. unfold put_entry.
  rewrite (dict_set_same _ _ He), with_coverage_same.
  rewrite (dict_set_same _ _ Hd). apply with_demand_same.
Qed.

Lemma merge_fac_run d ft r m fac v master mr mm :
  lookup d (c_demand b) = Some r ->
  lookup ft (d_coverage r) = Some (CovDict m) ->
  lookup fac m = Some v ->
  lookup d (c_demand master) = Some mr ->
  lookup ft (d_coverage mr) = Some (CovDict mm) ->
  merge_fac ct b d ft master fac
  = OK (put_entry master d mr ft (CovDict (dict_set fac v mm))).
Proof.
  intros Hr He Hv Hmr Hmm.
  unfold merge_fac, master_coverage_of, set_master_entry, getitem.
  rewrite Hr. simpl. rewrite He. simpl. rewrite Hv. simpl.
  rewrite Hmr. simpl. rewrite Hmm. simpl.
  unfold overwrites in Hct. rewrite Hct. reflexivity.
Qed.

Lemma merge_facs_run d ft r m :
  lookup d (c_demand b) = Some r ->
  lookup ft (d_coverage r) = Some (CovDict m) ->
  forall l,
    (forall fac, In fac l -> lookup fac m <> None) ->
    forall master mr mm,
      lookup d (c_demand master) = Some mr ->
      lookup ft (d_coverage mr) = Some (CovDict mm) ->
      foldE (merge_fac ct b d ft) l master
      = OK (put_entry master d mr ft (CovDict (copy_facs m l mm))).
Proof.
  intros Hr He. induction l as [|fac l IH]; intros Hall master mr mm Hmr Hmm.
  - simpl. now rewrite put_entry_same.
  - destruct (lookup fac m) as [v|] eqn:Hv;
      [|exfalso; apply (Hall fac); simpl; auto].
    simpl foldE. rewrite (@merge_fac_run d ft r m fac v master mr mm Hr He Hv Hmr Hmm).
    simpl bindE.
    rewrite (IH (fun f Hf => Hall f (or_intror Hf))
                (put_entry master d mr ft (CovDict (dict_set fac v mm)))
                (with_coverage mr
                   (dict_set ft (CovDict (dict_set fac v mm)) (d_coverage mr)))
                (dict_set fac v mm)).
    + rewrite put_entry_twice. unfold copy_facs. simpl. now rewrite Hv.
    + unfold put_entry. simpl. apply lookup_dict_set_eq.
    + simpl. apply lookup_dict_set_eq.
Qed.

Lemma merge_entry_run d r ft m master mr :
  lookup d (c_demand b) = Some r ->
  lookup ft (d_coverage r) = Some (CovDict m) ->
  lookup d (c_demand master) = Some mr ->
  all_dicts (d_coverage mr) ->
  merge_entry ct b d master ft
  = OK (with_demand master
          (dict_set d
             (with_coverage mr (merge_type_into (d_coverage r) (d_coverage mr) ft))
             (c_demand master))).
Proof.
  intros Hr He Hmr Hall.
  assert (Hkeys : forall fac, In fac (keys m) -> lookup fac m <> None).
  { intros fac. apply lookup_in_keys. }
  unfold merge_entry, master_coverage_of, getitem. rewrite Hmr. simpl bindE.
  unfold merge_type_into, entry_or_empty. rewrite He.
  destruct (lookup ft (d_coverage mr)) as [e|] eqn:Hme.
  - destruct (Hall ft e Hme) as [mm ->].
    unfold mem. rewrite Hme. simpl bindE. rewrite Hr. simpl bindE.
    rewrite He. simpl bindE.
    rewrite (@merge_facs_run d ft r m Hr He (keys m) Hkeys master mr mm
               Hmr Hme).
    reflexivity.
  - unfold mem. rewrite Hme. simpl negb. cbv iota.
    unfold set_master_entry, getitem. rewrite Hmr. simpl bindE.
    rewrite Hr. simpl bindE. rewrite He. simpl bindE.
    fold (put_entry master d mr ft (CovDict [])).
    rewrite (@merge_facs_run d ft r m Hr He (keys m) Hkeys
               (put_entry master d mr ft (CovDict []))
               (with_coverage mr (dict_set ft (CovDict []) (d_coverage mr)))
               []).
    + now rewrite put_entry_twice.
    + unfold put_entry. simpl. apply lookup_dict_set_eq.
    + simpl. apply lookup_dict_set_eq.
Qed.
End MergeLoops.

Lemma all_dicts_merge_type_into rc mc ft :
  all_dicts mc -> all_dicts (merge_type_into rc mc ft).
Proof.
  intros Hall ft' e. unfold merge_type_into.
  destruct (lookup ft rc) as [[m|l]|]; try apply Hall.
  rewrite lookup_dict_set. destruct (String.eqb ft' ft).
  - intros [= <-]. eauto.
  - apply Hall.
Qed.

Lemma all_dicts_merge_types rc l : forall mc,
  all_dicts mc -> all_dicts (fold_left (merge_type_into rc) l mc).
Proof.
  induction l as [|ft l IH]; intros mc Hall; simpl; auto.
  apply IH. now apply all_dicts_merge_type_into.
Qed.

Section MergeDemandLoops.
Variable ct : option string.
Variable b : Coverage.
Hypothesis Hct : overwrites ct = false.
Hypothesis Hb : forall d r, lookup d (c_demand b) = Some r ->
                            all_dicts (d_coverage r).

Lemma merge_entries_run d r :
  lookup d (c_demand b) = Some r ->
  forall l,
    (forall ft, In ft l -> lookup ft (d_coverage r) <> None) ->
    forall master mr,
      lookup d (c_demand master) = Some mr ->
      all_dicts (d_coverage mr) ->
      foldE (merge_entry ct b d) l master
      = OK (with_demand master
              (dict_set d
                 (with_coverage mr
                    (fold_left (merge_type_into (d_coverage r)) l
                               (d_coverage mr)))
                 (c_demand master))).
Proof.
  intros Hr. induction l as [|ft l IH]; intros Hl master mr Hmr Hall.
  - simpl. rewrite with_coverage_same, (dict_set_same _ _ Hmr).
    now rewrite with_demand_same.
  - destruct (lookup ft (d_coverage r)) as [e|] eqn:He;
      [|exfalso; apply (Hl ft); simpl; auto].
    destruct (Hb _ Hr ft He) as [m ->].
    simpl foldE.
    rewrite (@merge_entry_run ct b Hct d r ft m master mr Hr He Hmr Hall).
    simpl bindE.
    rewrite (IH (fun f Hf => Hl f (or_intror Hf))
                (with_demand master
                   (dict_set d
                      (with_coverage mr
                         (merge_type_into (d_coverage r) (d_coverage mr) ft))
                      (c_demand master)))
                (with_coverage mr
                   (merge_type_into (d_coverage r) (d_coverage mr) ft))).
    + unfold with_demand, with_coverage. simpl.
      now rewrite dict_set_twice.
    + simpl. apply lookup_dict_set_eq.
    + simpl. now apply all_dicts_merge_type_into.
Qed.

Lemma merge_demand_run d r master mr :
  lookup d (c_demand b) = Some r ->
  lookup d (c_demand master) = Some mr ->
  all_dicts (d_coverage mr) ->
  merge_demand ct b master d
  = OK (with_demand master (merge_demand_into b (c_demand master) d)).
Proof.
  intros Hr Hmr Hall. unfold merge_demand, getitem. rewrite Hr. simpl bindE.
  rewrite (@merge_entries_run d r Hr (keys (d_coverage r))
             (fun ft => proj1 (lookup_in_keys ft (d_coverage r)))
             master mr Hmr Hall).
  unfold merge_demand_into. now rewrite Hr, Hmr.
Qed.

Lemma merge_demands_run l : forall master,
  (forall d, In d l -> lookup d (c_demand b) <> None) ->
  (forall d, In d l -> lookup d (c_demand master) <> None) ->
  (forall d mr, lookup d (c_demand master) = Some mr ->
                all_dicts (d_coverage mr)) ->
  foldE (merge_demand ct b) l master
  = OK (with_demand master
          (fold_left (merge_demand_into b) l (c_demand master))).
Proof.
  induction l as [|d l IH]; intros master Hlb Hlm Hall.
  - simpl. now rewrite with_demand_same.
  - destruct (lookup d (c_demand b)) as [r|] eqn:Hr;
      [|exfalso; apply (Hlb d); simpl; auto].
    destruct (lookup d (c_demand master)) as [mr|] eqn:Hmr;
      [|exfalso; apply (Hlm d); simpl; auto].
    simpl foldE.
    rewrite (@merge_demand_run d r master mr Hr Hmr (Hall d mr Hmr)).
    simpl bindE. rewrite IH.
    + reflexivity.
    + intros d' Hd'. apply Hlb. simpl; auto.
    + intros d' Hd'. simpl c_demand. unfold merge_demand_into.
      rewrite Hr, Hmr, lookup_dict_set.
      destruct (String.eqb d' d); [discriminate|].
      apply Hlm. simpl; auto.
    + intros d' mr'. simpl c_demand. unfold merge_demand_into.
      rewrite Hr, Hmr, lookup_dict_set.
      destruct (String.eqb d' d).
      * intros [= <-]. unfold merge_record. simpl.
        apply all_dicts_merge_types. exact (Hall d mr Hmr).
      * apply Hall.
Qed.
End MergeDemandLoops.

(** ** What the merged dictionaries hold *)

Lemma lookup_copy_facs m fac l : forall mm,
  lookup fac (copy_facs m l mm) =
  if str_in fac l
  then match lookup fac m with
       | Some v => Some v
       | None => lookup fac mm
       end
  else lookup fac mm.
Proof.
  unfold copy_facs.
  induction l as [|f l IH]; intros mm; simpl fold_left.
  - reflexivity.
  - rewrite IH. unfold str_in. simpl existsb. fold (str_in fac l).
    destruct (lookup f m) as [v|] eqn:Hv.
    + rewrite lookup_dict_set.
      destruct (String.eqb fac f) eqn:E; simpl.
      * apply String.eqb_eq in E. subst f. rewrite Hv.
        now destruct (str_in fac l).
      * reflexivity.
    + destruct (String.eqb fac f) eqn:E; simpl; auto.
      apply String.eqb_eq in E. subst f. rewrite Hv.
      now destruct (str_in fac l).
Qed.

Lemma copy_facs_fresh m : dict_equiv (copy_facs m (keys m) []) m.
Proof.
  intros fac. rewrite lookup_copy_facs, str_in_keys. unfold mem. simpl.
  destruct (lookup fac m); reflexivity.
Qed.

Lemma lookup_merge_type_other rc mc ft0 ft :
  ft <> ft0 -> lookup ft (merge_type_into rc mc ft0) = lookup ft mc.
Proof.
  intros Hne. unfold merge_type_into.
  destruct (lookup ft0 rc) as [[m|l]|]; auto.
  apply lookup_dict_set_neq. congruence.
Qed.

Lemma lookup_merge_types rc ft l : forall mc,
  NoDup l ->
  lookup ft (fold_left (merge_type_into rc) l mc) =
  if str_in ft l
  then match lookup ft rc with
       | Some (CovDict m) =>
           Some (CovDict (copy_facs m (keys m) (entry_or_empty mc ft)))
       | _ => lookup ft mc
       end
  else lookup ft mc.
Proof.
  induction l as [|ft0 l IH]; intros mc Hnd; simpl fold_left.
  - reflexivity.
  - inversion Hnd as [|? ? Hnot Hnd']. subst.
    rewrite (IH _ Hnd'). unfold str_in. simpl existsb. fold (str_in ft l).
    destruct (String.eqb ft ft0) eqn:E; simpl.
    + apply String.eqb_eq in E. subst ft0.
      apply str_in_false in Hnot. rewrite Hnot.
      unfold merge_type_into.
      destruct (lookup ft rc) as [[m|l0]|]; auto.
      apply lookup_dict_set_eq.
    + apply String.eqb_neq in E.
      rewrite (lookup_merge_type_other rc mc E).
      unfold entry_or_empty. now rewrite (lookup_merge_type_other rc mc E).
Qed.

Lemma lookup_merge_demands b d l : forall dm,
  NoDup l ->
  lookup d (fold_left (merge_demand_into b) l dm) =
  if str_in d l
  then match lookup d (c_demand b), lookup d dm with
       | Some r, Some mr => Some (merge_record r mr)
       | _, _ => lookup d dm
       end
  else lookup d dm.
Proof.
  induction l as [|d0 l IH]; intros dm Hnd; simpl fold_left.
  - reflexivity.
  - inversion Hnd as [|? ? Hnot Hnd']. subst.
    rewrite (IH _ Hnd'). unfold str_in. simpl existsb. fold (str_in d l).
    assert (Hother : d <> d0 ->
              lookup d (merge_demand_into b dm d0) = lookup d dm).
    { intros Hne. unfold merge_demand_into.
      destruct (lookup d0 (c_demand b)); auto.
      destruct (lookup d0 dm); auto.
      apply lookup_dict_set_neq. congruence. }
    destruct (String.eqb d d0) eqn:E; simpl.
    + apply String.eqb_eq in E. subst d0.
      apply str_in_false in Hnot. rewrite Hnot.
      unfold merge_demand_into.
      destruct (lookup d (c_demand b)) as [r|]; auto.
      destruct (lookup d dm) as [mr|] eqn:Hmr; auto.
      apply lookup_dict_set_eq.
    + apply String.eqb_neq in E. now rewrite (Hother E).
Qed.

(** ** Both orders of a merge *)

Lemma well_formed_parts c :
  well_formed c = true ->
  NoDup (keys (c_facilities c)) /\
  NoDup (keys (c_demand c)) /\
  (forall d r, lookup d (c_demand c) = Some r -> NoDup (keys (d_coverage r))) /\
  coverage_invariant c = true.
Proof.
  unfold well_formed. rewrite !andb_true_iff.
  intros [[[H1 H2] H3] H4]. repeat split; auto.
  - now apply nodupb_NoDup.
  - now apply nodupb_NoDup.
  - intros d r Hr. rewrite forallb_forall in H3.
    apply nodupb_NoDup. exact (H3 _ (lookup_some_in _ _ Hr)).
Qed.

Lemma invariant_all_dicts c d r :
  coverage_invariant c = true ->
  lookup d (c_demand c) = Some r ->
  all_dicts (d_coverage r).
Proof.
  intros Hinv Hr ft e He.
  destruct (coverage_invariant_entry _ _ _ Hinv Hr He) as (m & _ & -> & _).
  eauto.
Qed.

Lemma mergeable_sym k a b : mergeable k a b -> mergeable k b a.
Proof.
  intros (Ha & Hb & Hk & Hdis). repeat split; auto.
  - now rewrite set_eqb_sym.
  - intros ft Hft. destruct (mem ft (c_facilities a)) eqn:E; auto.
    rewrite (Hdis ft E) in Hft. discriminate.
Qed.

Lemma merge_pair k a b :
  mergeable k a b -> k <> "Binary" ->
  well_formed a = true -> well_formed b = true ->
  exists m,
    merge_coverages [a; b] = OK m /\
    (forall ft, lookup ft (c_facilities m) =
                match lookup ft (c_facilities b) with
                | Some fs => Some fs
                | None => lookup ft (c_facilities a)
                end) /\
    (forall d, lookup d (c_demand m) =
               match lookup d (c_demand b), lookup d (c_demand a) with
               | Some r, Some mr => Some (merge_record r mr)
               | _, _ => lookup d (c_demand a)
               end).
Proof.
  intros Hm Hk Hwa Hwb.
  destruct (well_formed_parts _ Hwa) as (Hfa & Hda & Hca & Hia).
  destruct (well_formed_parts _ Hwb) as (Hfb & Hdb & Hcb & Hib).
  assert (Hkeys : set_eqb (keys (c_demand a)) (keys (c_demand b)) = true)
    by apply Hm.
  destruct (merge_facilities_ok b a) as (m1 & Hrun1 & _ & Hd1 & _ & Hf1).
  assert (Hct : overwrites (Some k) = false).
  { simpl. apply String.eqb_neq. exact Hk. }
  exists (with_demand m1
            (fold_left (merge_demand_into b) (keys (c_demand b))
                       (c_demand m1))).
  split; [|split].
  - unfold merge_coverages.
    rewrite (@check_coverages_ok k a b Hm Hfa Hfb). simpl bindE.
    rewrite (check_demand_keys_ok _ _ Hkeys). simpl bindE.
    unfold merge_one. rewrite Hrun1. simpl bindE.
    rewrite (@merge_demands_run (Some k) b Hct
               (fun d r Hr => invariant_all_dicts _ _ Hib Hr)).
    + reflexivity.
    + intros d. apply lookup_in_keys.
    + intros d Hd. rewrite Hd1. apply lookup_in_keys.
      rewrite set_eqb_sym in Hkeys. exact (set_eqb_in _ _ d Hkeys Hd).
    + intros d mr. rewrite Hd1. intros Hmr.
      exact (invariant_all_dicts _ _ Hia Hmr).
  - exact Hf1.
  - intros d. simpl c_demand. rewrite Hd1.
    rewrite (lookup_merge_demands b d (c_demand a) Hdb), str_in_keys.
    unfold mem. destruct (lookup d (c_demand b)); reflexivity.
Qed.

Lemma merged_coverage_equiv a b ra rb :
  well_formed a = true -> well_formed b = true ->
  (forall ft, mem ft (c_facilities a) = true ->
              mem ft (c_facilities b) = false) ->
  forall d,
    lookup d (c_demand a) = Some ra ->
    lookup d (c_demand b) = Some rb ->
    coverage_equiv (d_coverage (merge_record rb ra))
                   (d_coverage (merge_record ra rb)).
Proof.
  intros Hwa Hwb Hdis d Hra Hrb ft.
  destruct (well_formed_parts _ Hwa) as (_ & _ & Hca & Hia).
  destruct (well_formed_parts _ Hwb) as (_ & _ & Hcb & Hib).
  unfold merge_record. simpl d_coverage.
  rewrite (lookup_merge_types (d_coverage rb) ft (d_coverage ra) (Hcb _ _ Hrb)).
  rewrite (lookup_merge_types (d_coverage ra) ft (d_coverage rb) (Hca _ _ Hra)).
  rewrite !str_in_keys. unfold mem, entry_or_empty.
  destruct (lookup ft (d_coverage ra)) as [ea|] eqn:Hea;
    destruct (lookup ft (d_coverage rb)) as [eb|] eqn:Heb.
  - exfalso.
    destruct (coverage_invariant_entry _ _ _ Hia Hra Hea)
      as (ma & fa & _ & Hfa & _).
    destruct (coverage_invariant_entry _ _ _ Hib Hrb Heb)
      as (mb & fb & _ & Hfb & _).
    assert (H : mem ft (c_facilities a) = true).
    { apply mem_true. congruence. }
    apply Hdis, mem_false in H. congruence.
  - destruct (coverage_invariant_entry _ _ _ Hia Hra Hea)
      as (ma & fa & -> & _ & _).
    intros fac. symmetry. apply copy_facs_fresh.
  - destruct (coverage_invariant_entry _ _ _ Hib Hrb Heb)
      as (mb & fb & -> & _ & _).
    intros fac. apply copy_facs_fresh.
  - exact I.
Qed.

(** C4, as amended.  Two stores that satisfy the preconditions of the merge
    for a coverage type other than ["Binary"], and are well formed (their
    coverage entries are mappings from facility ids to strengths, as in
    binary and partial coverage), merge in both orders, into stores with
    the same facilities map and, for every demand unit, the same coverage
    map. *)
Theorem merge_commutes_on_structure (k : string) (a b : Coverage) :
  mergeable k a b -> k <> "Binary" ->
  well_formed a = true -> well_formed b = true ->
  exists m1 m2,
    merge_coverages [a; b] = OK m1 /\
    merge_coverages [b; a] = OK m2 /\
    same_structure m1 m2.
Proof.
  intros Hm Hk Hwa Hwb.
  destruct (merge_pair Hm Hk Hwa Hwb) as (m1 & H1 & Hf1 & Hd1).
  destruct (merge_pair (mergeable_sym Hm) Hk Hwb Hwa) as (m2 & H2 & Hf2 & Hd2).
  assert (Hdis : forall ft, mem ft (c_facilities a) = true ->
                            mem ft (c_facilities b) = false) by apply Hm.
  assert (Hkeys : set_eqb (keys (c_demand a)) (keys (c_demand b)) = true)
    by apply Hm.
  assert (Hboth : forall d,
            (lookup d (c_demand a) = None /\ lookup d (c_demand b) = None) \/
            (exists ra rb, lookup d (c_demand a) = Some ra /\
                           lookup d (c_demand b) = Some rb)).
  { intros d. destruct (lookup d (c_demand a)) as [ra|] eqn:Ha.
    - right. assert (Hin : In d (keys (c_demand a))).
      { apply lookup_in_keys. congruence. }
      apply (set_eqb_in _ _ d Hkeys) in Hin.
      destruct (lookup_keys_some _ _ Hin) as [rb Hb]. eauto.
    - left. split; auto.
      destruct (lookup d (c_demand b)) as [rb|] eqn:Hb; auto.
      assert (Hin : In d (keys (c_demand b))).
      { apply lookup_in_keys. congruence. }
      rewrite set_eqb_sym in Hkeys.
      apply (set_eqb_in _ _ d Hkeys), lookup_in_keys in Hin. congruence. }
  exists m1, m2. split; [exact H1|]. split; [exact H2|]. split.
  - intros ft. rewrite Hf1, Hf2.
    destruct (lookup ft (c_facilities a)) as [fa|] eqn:Ha;
      destruct (lookup ft (c_facilities b)) as [fb|] eqn:Hb; auto.
    assert (H : mem ft (c_facilities a) = true).
    { apply mem_true. congruence. }
    apply Hdis, mem_false in H. congruence.
  - intros d. rewrite Hd1, Hd2.
    destruct (Hboth d) as [[Ha Hb]|(ra & rb & Ha & Hb)]; rewrite Ha, Hb.
    + exact I.
    + exact (@merged_coverage_equiv a b ra rb Hwa Hwb Hdis d Ha Hb).
Qed.

Lemma merge_commutes_on_structure_witness :
  exists m1 m2,
    merge_coverages [layer_of "partial" "A" "f1" "d";
                     layer_of "partial" "B" "f2" "d"] = OK m1 /\
    merge_coverages [layer_of "partial" "B" "f2" "d";
                     layer_of "partial" "A" "f1" "d"] = OK m2 /\
    same_structure m1 m2.
Proof.
  apply (@merge_commutes_on_structure "partial"
           (layer_of "partial" "A" "f1" "d") (layer_of "partial" "B" "f2" "d")).
  - split; [reflexivity|]. split; [reflexivity|]. split; [reflexivity|].
    intros ft. unfold layer_of, mem; simpl.
    destruct (String.eqb ft "A") eqn:E; [|discriminate].
    apply String.eqb_eq in E. subst ft. reflexivity.
  - discriminate.
  - reflexivity.
  - reflexivity.
Defined.

(* ================================================================== *)
(** * More on [update_serviceable_demand] *)
(* ================================================================== *)

Lemma update_loop_total sd l : forall total cur cur' total',
  foldM (update_one sd) l total cur = (cur', OK total') ->
  total' = fold_left (fun t d => t + sd_value sd d) l total.
Proof.
  induction l as [|d l IH]; intros total cur cur' total' Hrun; simpl in Hrun.
  - unfold ret in Hrun. now injection Hrun as _ <-.
  - apply bindM_ok in Hrun. destruct Hrun as (cur1 & t1 & Hstep & Hrun).
    apply IH in Hrun. subst total'. simpl. f_equal.
    unfold update_one, bindM, lift, getitem in Hstep. unfold sd_value.
    destruct (lookup d (sd_demand sd)) as [u|]; [|discriminate].
    unfold store_serviceableDemand in Hstep.
    destruct (lookup d (c_demand cur)); [|discriminate].
    unfold ret in Hstep. now injection Hstep as _ <-.
Qed.

Lemma update_one_with_total sd total d cur t :
  update_one sd total d (with_total cur t)
  = (with_total (fst (update_one sd total d cur)) t,
     snd (update_one sd total d cur)).
Proof.
  unfold update_one, bindM, lift, getitem.
  destruct (lookup d (sd_demand sd)) as [u|]; [|reflexivity].
  unfold store_serviceableDemand. simpl c_demand.
  destruct (lookup d (c_demand cur)); reflexivity.
Qed.

Lemma update_loop_with_total sd l : forall total cur t,
  foldM (update_one sd) l total (with_total cur t)
  = (with_total (fst (foldM (update_one sd) l total cur)) t,
     snd (foldM (update_one sd) l total cur)).
Proof.
  induction l as [|d l IH]; intros total cur t; simpl.
  - reflexivity.
  - unfold bindM. rewrite update_one_with_total.
    destruct (update_one sd total d cur) as [cur1 [t1|e]]; simpl.
    + apply IH.
    + reflexivity.
Qed.

(** X1.  When the update dictionary has every demand id of the store,
    [update_serviceable_demand] succeeds: every record carries its new
    serviceable demand, and the type, the facilities and the demand ids of
    the store are unchanged.  The store after the call does not depend on
    the [totalServiceableDemand] it held before: the call starts its total
    afresh and overwrites the old one. *)
Theorem update_rewrites_every_record (coverage : Coverage)
    (sd : ServiceableDemand) :
  covers_demand_ids coverage sd ->
  exists coverage',
    update_serviceable_demand coverage sd = (coverage', OK tt) /\
    c_type coverage' = c_type coverage /\
    c_facilities coverage' = c_facilities coverage /\
    keys (c_demand coverage') = keys (c_demand coverage) /\
    (forall d, lookup d (c_demand coverage') =
               option_map (fun r => with_serviceableDemand r (VNum (sd_value sd d)))
                          (lookup d (c_demand coverage))) /\
    (forall t, update_serviceable_demand (with_total coverage t) sd
               = (coverage', OK tt)).
Proof.
  intros Hcov.
  destruct (update_loop_present sd (keys (c_demand coverage)) 0 coverage Hcov)
    as (cur' & total' & Hrun & Ht & Hf & Htot & Hk & Hl).
  { intros d. apply lookup_in_keys. }
  assert (Hlook : forall d,
             lookup d (c_demand cur') =
             option_map (fun r => with_serviceableDemand r (VNum (sd_value sd d)))
                        (lookup d (c_demand coverage))).
  { intros d. rewrite Hl, str_in_keys. unfold mem.
    destruct (lookup d (c_demand coverage)) as [r|] eqn:Hr; auto.
    simpl. unfold rewritten, sd_value.
    assert (Hd : lookup d (sd_demand sd) <> None).
    { apply Hcov. apply lookup_in_keys. congruence. }
    destruct (lookup d (sd_demand sd)); [reflexivity | congruence]. }
  exists (with_total cur' total'). split; [|repeat split; auto].
  - unfold update_serviceable_demand, bindM. now rewrite Hrun.
  - intros t. unfold update_serviceable_demand, bindM. simpl c_demand.
    rewrite update_loop_with_total, Hrun. reflexivity.
Qed.

Lemma update_rewrites_every_record_witness :
  exists coverage',
    update_serviceable_demand two_unit_store update_both
      = (coverage', OK tt) /\
    c_type coverage' = c_type two_unit_store /\
    c_facilities coverage' = c_facilities two_unit_store /\
    keys (c_demand coverage') = keys (c_demand two_unit_store) /\
    (forall d, lookup d (c_demand coverage') =
               option_map
                 (fun r => with_serviceableDemand r
                    (VNum (sd_value update_both d)))
                 (lookup d (c_demand two_unit_store))) /\
    (forall t, update_serviceable_demand (with_total two_unit_store t)
                 update_both = (coverage', OK tt)).
Proof.
  apply (@update_rewrites_every_record two_unit_store update_both).
  intros d [<-|[<-|[]]]; discriminate.
Defined.

Lemma update_loop_fixed sd l : forall total cur,
  (forall d, In d l ->
     exists u r, lookup d (sd_demand sd) = Some u /\
                 lookup d (c_demand cur) = Some r /\
                 d_serviceableDemand r = VNum (sd_serviceableDemand u)) ->
  foldM (update_one sd) l total cur
  = (cur, OK (fold_left (fun t d => t + sd_value sd d) l total)).
Proof.
  induction l as [|d l IH]; intros total cur Hall; simpl.
  - reflexivity.
  - destruct (Hall d (or_introl eq_refl)) as (u & r & Hu & Hr & Hsd).
    unfold bindM. rewrite (@update_one_present sd total d cur u r Hu Hr).
    assert (Hsame : rewritten sd d r = r).
    { unfold rewritten. rewrite Hu. destruct r. simpl in *. now rewrite Hsd. }
    rewrite Hsame, (dict_set_same _ _ Hr), with_demand_same.
    assert (Hv : sd_value sd d = sd_serviceableDemand u).
    { unfold sd_value. now rewrite Hu. }
    simpl fold_left. rewrite Hv. apply IH.
    intros d' Hd'. apply Hall. simpl; auto.
Qed.

Lemma update_loop_ok_covers sd l : forall total cur cur' total',
  foldM (update_one sd) l total cur = (cur', OK total') ->
  forall d, In d l -> lookup d (sd_demand sd) <> None.
Proof.
  induction l as [|d0 l IH]; intros total cur cur' total' Hrun d Hd.
  - destruct Hd.
  - simpl in Hrun. apply bindM_ok in Hrun.
    destruct Hrun as (cur1 & t1 & Hstep & Hrun).
    destruct Hd as [<-|Hd]; [|exact (IH _ _ _ _ Hrun d Hd)].
    intros Hnone. rewrite (@update_one_missing sd total d0 cur Hnone) in Hstep.
    discriminate.
Qed.

(** X2.  A successful update applied a second time with the same dictionary
    succeeds again and leaves the store exactly as the first call left
    it. *)
Theorem update_twice_is_update_once (coverage coverage' : Coverage)
    (sd : ServiceableDemand) :
  update_serviceable_demand coverage sd = (coverage', OK tt) ->
  update_serviceable_demand coverage' sd = (coverage', OK tt).
Proof.
  intros Hrun.
  assert (Hcov : covers_demand_ids coverage sd).
  { unfold update_serviceable_demand, bindM in Hrun.
    destruct (foldM (update_one sd) (keys (c_demand coverage)) 0 coverage)
      as [c1 [t1|e]] eqn:Hloop; [|discriminate].
    exact (update_loop_ok_covers _ _ _ _ Hloop). }
  destruct (update_loop_present sd (keys (c_demand coverage)) 0 coverage Hcov)
    as (cur' & total' & Hloop & Ht & Hf & Htot & Hk & Hl).
  { intros d. apply lookup_in_keys. }
  pose proof (update_loop_total _ _ _ _ Hloop) as Htotal.
  unfold update_serviceable_demand, bindM in Hrun. rewrite Hloop in Hrun.
  injection Hrun as <-.
  unfold update_serviceable_demand, bindM. simpl c_demand. rewrite Hk.
  rewrite (@update_loop_fixed sd (keys (c_demand coverage)) 0
             (with_total cur' total')).
  - rewrite <- Htotal. reflexivity.
  - intros d Hd. simpl c_demand. rewrite Hl, str_in_keys. unfold mem.
    destruct (lookup_keys_some _ _ Hd) as [r Hr]. rewrite Hr. simpl.
    destruct (lookup d (sd_demand sd)) as [u|] eqn:Hu;
      [|exfalso; exact (Hcov d Hd Hu)].
    exists u, (rewritten sd d r). repeat split; auto.
    unfold rewritten. rewrite Hu. reflexivity.
Qed.

Lemma update_twice_is_update_once_witness :
  update_serviceable_demand
    (fst (update_serviceable_demand two_unit_store update_both)) update_both
  = (fst (update_serviceable_demand two_unit_store update_both), OK tt).
Proof.
  apply (@update_twice_is_update_once two_unit_store
           (fst (update_serviceable_demand two_unit_store update_both))
           update_both).
  reflexivity.
Defined.

(* ================================================================== *)
(** * More on [merge_coverages] *)
(* ================================================================== *)

Lemma dict_eqb_refl (d : dict metadata) : dict_eqb String.eqb d d = true.
Proof.
  unfold dict_eqb.
  assert (H : forallb (fun k => match lookup k d, lookup k d with
                                | Some x, Some y => String.eqb x y
                                | _, _ => false
                                end) (keys d) = true).
  { apply forallb_forall. intros k Hk.
    destruct (lookup_keys_some _ _ Hk) as [v Hv]. rewrite Hv.
    apply String.eqb_refl. }
  cbv beta zeta. apply andb_true_iff. split; exact H.
Qed.

Lemma item_eqb_refl it : item_eqb it it = true.
Proof. unfold item_eqb. now rewrite String.eqb_refl, dict_eqb_refl. Qed.

Lemma check_facility_types_err items : forall acc e,
  foldE check_facility_type items acc = Err e -> e = conflicting_types_error.
Proof.
  induction items as [|it items IH]; intros acc e; simpl.
  - discriminate.
  - unfold check_facility_type at 1.
    destruct (existsb (item_eqb it) acc); simpl.
    + intros H. now injection H as <-.
    + apply IH.
Qed.

Lemma check_facility_types_res items : forall acc r,
  foldE check_facility_type items acc = OK r -> r = acc ++ items.
Proof.
  induction items as [|it items IH]; intros acc r; simpl.
  - intros H. injection H as <-. now rewrite app_nil_r.
  - unfold check_facility_type at 1.
    destruct (existsb (item_eqb it) acc); simpl; [discriminate|].
    intros H. apply IH in H. now rewrite <- app_assoc in H.
Qed.

Lemma check_facility_types_conflict items it : forall acc,
  In it items -> existsb (item_eqb it) acc = true ->
  foldE check_facility_type items acc = Err conflicting_types_error.
Proof.
  induction items as [|x items IH]; intros acc Hin Hacc; simpl.
  - destruct Hin.
  - unfold check_facility_type at 1.
    destruct (existsb (item_eqb x) acc) eqn:Hx; simpl; [reflexivity|].
    destruct Hin as [->|Hin]; [congruence|].
    apply IH; auto. rewrite existsb_app, Hacc. reflexivity.
Qed.

Lemma check_first_coverage a k :
  validate_coverage a ["coverage"] [k] = OK tt ->
  NoDup (keys (c_facilities a)) ->
  check_coverage (mkMergeChecks [] [] None) a
  = OK (mkMergeChecks (c_facilities a) [keys (c_demand a)] (Some k)).
Proof.
  intros Hva Hna.
  destruct (@validate_kind a k Hva) as (ta & Hta & Hka).
  unfold check_coverage. simpl coverage_type.
  rewrite Hta. simpl. unfold getitem. rewrite Hka. simpl.
  rewrite Hva. simpl.
  rewrite (check_facility_types_ok (c_facilities a) []) by exact Hna.
  reflexivity.
Qed.

(** X3.  Merging no store raises [IndexError] at [coverages[0]]; merging a
    single store that validates returns that store. *)
Theorem merge_one_store_is_identity (a : Coverage) (k : string) :
  validate_coverage a ["coverage"] [k] = OK tt ->
  NoDup (keys (c_facilities a)) ->
  merge_coverages [a] = OK a /\
  merge_coverages [] = Err (IndexError "list index out of range").
Proof.
  intros Hva Hna. split; [|reflexivity].
  unfold merge_coverages. simpl foldE.
  rewrite (@check_first_coverage a k Hva Hna). simpl.
  unfold check_demand_keys. simpl. rewrite set_eqb_refl. reflexivity.
Qed.

Lemma merge_one_store_is_identity_witness :
  merge_coverages [two_unit_store] = OK two_unit_store /\
  merge_coverages [] = Err (IndexError "list index out of range").
Proof.
  apply (@merge_one_store_is_identity two_unit_store "binary").
  - reflexivity.
  - repeat constructor. simpl. tauto.
Defined.

(** X4.  A second store whose coverage type differs from the first store's
    is refused with the validation error [Expected types], whatever stores
    follow. *)
Theorem merge_rejects_other_type (a b : Coverage) (rest : list Coverage)
    (ka kb : string) (tb : dict string) :
  validate_coverage a ["coverage"] [ka] = OK tt ->
  NoDup (keys (c_facilities a)) ->
  c_type b = Some tb -> lookup "type" tb = Some kb -> kb <> ka ->
  merge_coverages (a :: b :: rest) = Err (expected_types_error ka kb).
Proof.
  intros Hva Hna Htb Hkb Hne.
  unfold merge_coverages. simpl foldE.
  rewrite (@check_first_coverage a ka Hva Hna). simpl bindE.
  unfold check_coverage at 1. simpl coverage_type. simpl bindE.
  unfold validate_coverage. rewrite Htb, Hkb.
  unfold str_in. simpl existsb.
  apply String.eqb_neq in Hne. rewrite Hne. reflexivity.
Qed.

Lemma merge_rejects_other_type_witness :
  merge_coverages [layer_of "partial" "T" "f1" "d";
                   layer_of "binary" "U" "g1" "d";
                   layer_of "partial" "V" "h1" "d"]
  = Err (expected_types_error "partial" "binary").
Proof.
  apply (@merge_rejects_other_type (layer_of "partial" "T" "f1" "d")
           (layer_of "binary" "U" "g1" "d")
           [layer_of "partial" "V" "h1" "d"] "partial" "binary"
           [("mode", "coverage"); ("type", "binary")]).
  - reflexivity.
  - repeat constructor. simpl. tauto.
  - reflexivity.
  - reflexivity.
  - discriminate.
Defined.

(** X5.  Two stores of the same coverage type that hold the same facility
    type, name and facilities alike, are refused with
    [Conflicting facility types]. *)
Theorem merge_rejects_same_facility_type (a b : Coverage) (k : string)
    (it : string * dict metadata) :
  validate_coverage a ["coverage"] [k] = OK tt ->
  validate_coverage b ["coverage"] [k] = OK tt ->
  In it (c_facilities a) -> In it (c_facilities b) ->
  merge_coverages [a; b] = Err conflicting_types_error.
Proof.
  intros Hva Hvb Hia Hib.
  destruct (@validate_kind a k Hva) as (ta & Hta & Hka).
  unfold merge_coverages. simpl foldE.
  unfold check_coverage at 1. simpl coverage_type.
  rewrite Hta. simpl. unfold getitem. rewrite Hka. simpl.
  rewrite Hva. simpl.
  destruct (foldE check_facility_type (c_facilities a) []) as [r|e] eqn:Hr.
  - apply check_facility_types_res in Hr. simpl in Hr. subst r. simpl.
    unfold check_coverage. simpl. rewrite Hvb. simpl.
    rewrite (@check_facility_types_conflict (c_facilities b) it
               (c_facilities a) Hib); [reflexivity|].
    apply existsb_exists. exists it. split; [exact Hia | apply item_eqb_refl].
  - apply check_facility_types_err in Hr. subst e. reflexivity.
Qed.

Lemma merge_rejects_same_facility_type_witness :
  merge_coverages [layer_of "partial" "T" "f1" "d";
                   layer_of "partial" "T" "f1" "d"]
  = Err conflicting_types_error.
Proof.
  apply (@merge_rejects_same_facility_type (layer_of "partial" "T" "f1" "d")
           (layer_of "partial" "T" "f1" "d") "partial" ("T", [("f1", "site")])).
  - reflexivity.
  - reflexivity.
  - simpl. auto.
  - simpl. auto.
Defined.

(** X6.  Two stores that pass the checks of the first loop but do not have
    the same set of demand ids are refused with [Demand Keys Invalid]. *)
Theorem merge_rejects_other_demand_ids (a b : Coverage) (k : string) :
  validate_coverage a ["coverage"] [k] = OK tt ->
  validate_coverage b ["coverage"] [k] = OK tt ->
  NoDup (keys (c_facilities a)) -> NoDup (keys (c_facilities b)) ->
  (forall ft, mem ft (c_facilities a) = true ->
              mem ft (c_facilities b) = false) ->
  set_eqb (keys (c_demand a)) (keys (c_demand b)) = false ->
  merge_coverages [a; b] = Err demand_keys_error.
Proof.
  intros Hva Hvb Hna Hnb Hdis Hkeys.
  unfold merge_coverages. simpl foldE.
  rewrite (@check_first_coverage a k Hva Hna). simpl bindE.
  unfold check_coverage. simpl. rewrite Hvb. simpl.
  rewrite check_facility_types_ok.
  - simpl. unfold check_demand_keys. simpl.
    rewrite set_eqb_refl. simpl. rewrite Hkeys. reflexivity.
  - apply nodup_app; auto.
    intros ft Hin Hin'. apply lookup_in_keys, mem_true in Hin.
    apply lookup_in_keys, mem_true in Hin'.
    rewrite (Hdis ft Hin) in Hin'. discriminate.
Qed.

Lemma merge_rejects_other_demand_ids_witness :
  merge_coverages [layer_of "partial" "T" "f1" "d";
                   layer_of "partial" "U" "g1" "e"]
  = Err demand_keys_error.
Proof.
  apply (@merge_rejects_other_demand_ids (layer_of "partial" "T" "f1" "d")
           (layer_of "partial" "U" "g1" "e") "partial").
  - reflexivity.
  - reflexivity.
  - repeat constructor. simpl. tauto.
  - repeat constructor. simpl. tauto.
  - intros ft. unfold mem. simpl.
    destruct (String.eqb ft "T") eqn:E; [|discriminate].
    apply String.eqb_eq in E. subst ft. reflexivity.
  - reflexivity.
Defined.

(** X7.  The merge of two well-formed stores of a type other than
    ["Binary"], with the same demand ids and no facility-type name in
    common, holds every facility type of both stores, and for each demand
    unit the weight and the serviceable demand of the first store, the
    coverage entries of the first store unchanged and those of the second
    store with the same strengths. *)
Theorem merge_holds_both_stores (k : string) (a b : Coverage) :
  mergeable k a b -> k <> "Binary" ->
  well_formed a = true -> well_formed b = true ->
  exists m,
    merge_coverages [a; b] = OK m /\
    (forall ft fs, lookup ft (c_facilities a) = Some fs \/
                   lookup ft (c_facilities b) = Some fs ->
                   lookup ft (c_facilities m) = Some fs) /\
    (forall d ra rb,
        lookup d (c_demand a) = Some ra -> lookup d (c_demand b) = Some rb ->
        exists rm,
          lookup d (c_demand m) = Some rm /\
          d_demand rm = d_demand ra /\
          d_serviceableDemand rm = d_serviceableDemand ra /\
          (forall ft e, lookup ft (d_coverage ra) = Some e ->
                        lookup ft (d_coverage rm) = Some e) /\
          (forall ft mb, lookup ft (d_coverage rb) = Some (CovDict mb) ->
             exists mm, lookup ft (d_coverage rm) = Some (CovDict mm) /\
                        dict_equiv mm mb)).
Proof.
  intros Hm Hk Hwa Hwb.
  destruct (@merge_pair k a b Hm Hk Hwa Hwb) as (m & Hrun & Hf & Hd).
  destruct (well_formed_parts _ Hwa) as (_ & _ & Hca & Hia).
  destruct (well_formed_parts _ Hwb) as (_ & _ & Hcb & Hib).
  destruct Hm as (_ & _ & _ & Hdis).
  exists m. split; [exact Hrun|]. split.
  - intros ft fs [Ha|Hb]; rewrite Hf.
    + assert (Hmem : mem ft (c_facilities a) = true).
      { apply mem_true. congruence. }
      apply Hdis, mem_false in Hmem. now rewrite Hmem.
    + now rewrite Hb.
  - intros d ra rb Hra Hrb. exists (merge_record rb ra).
    split; [rewrite Hd, Hrb, Hra; reflexivity|].
    split; [reflexivity|]. split; [reflexivity|].
    assert (Hlook := fun ft =>
      lookup_merge_types (d_coverage rb) ft (d_coverage ra) (Hcb _ _ Hrb)).
    assert (Hsep : forall ft, lookup ft (d_coverage ra) <> None ->
                              lookup ft (d_coverage rb) <> None -> False).
    { intros ft Hea Heb.
      destruct (lookup ft (d_coverage ra)) as [ea|] eqn:Ea; [|congruence].
      destruct (lookup ft (d_coverage rb)) as [eb|] eqn:Eb; [|congruence].
      destruct (coverage_invariant_entry _ _ _ Hia Hra Ea)
        as (ma & fa & _ & Hfa & _).
      destruct (coverage_invariant_entry _ _ _ Hib Hrb Eb)
        as (mb & fb & _ & Hfb & _).
      assert (H : mem ft (c_facilities a) = true).
      { apply mem_true. congruence. }
      apply Hdis, mem_false in H. congruence. }
    split.
    + intros ft e He. unfold merge_record. simpl d_coverage.
      rewrite Hlook, str_in_keys. unfold mem.
      destruct (lookup ft (d_coverage rb)) as [eb|] eqn:Eb; [|exact He].
      exfalso. apply (Hsep ft); congruence.
    + intros ft mb Hb. unfold merge_record. simpl d_coverage.
      rewrite Hlook, str_in_keys. unfold mem. rewrite Hb.
      eexists. split; [reflexivity|].
      unfold entry_or_empty.
      destruct (lookup ft (d_coverage ra)) as [ea|] eqn:Ea.
      * exfalso. apply (Hsep ft); congruence.
      * apply copy_facs_fresh.
Qed.

Lemma merge_holds_both_stores_witness :
  exists m,
    merge_coverages [layer_of "partial" "T" "f1" "d";
                     layer_of "partial" "U" "g1" "d"] = OK m /\
    (forall ft fs,
        lookup ft (c_facilities (layer_of "partial" "T" "f1" "d")) = Some fs \/
        lookup ft (c_facilities (layer_of "partial" "U" "g1" "d")) = Some fs ->
        lookup ft (c_facilities m) = Some fs) /\
    (forall d ra rb,
        lookup d (c_demand (layer_of "partial" "T" "f1" "d")) = Some ra ->
        lookup d (c_demand (layer_of "partial" "U" "g1" "d")) = Some rb ->
        exists rm,
          lookup d (c_demand m) = Some rm /\
          d_demand rm = d_demand ra /\
          d_serviceableDemand rm = d_serviceableDemand ra /\
          (forall ft e, lookup ft (d_coverage ra) = Some e ->
                        lookup ft (d_coverage rm) = Some e) /\
          (forall ft mb, lookup ft (d_coverage rb) = Some (CovDict mb) ->
             exists mm, lookup ft (d_coverage rm) = Some (CovDict mm) /\
                        dict_equiv mm mb)).
Proof.
  apply (@merge_holds_both_stores "partial"
           (layer_of "partial" "T" "f1" "d") (layer_of "partial" "U" "g1" "d")).
  - repeat split.
    intros ft. unfold mem. simpl.
    destruct (String.eqb ft "T") eqn:E; [|discriminate].
    apply String.eqb_eq in E. subst ft. reflexivity.
  - discriminate.
  - reflexivity.
  - reflexivity.
Defined.

(* ================================================================== *)
(** * More on the builders *)
(* ================================================================== *)

Lemma validate_other_kind c t ty k :
  c_type c = Some t -> lookup "type" t = Some ty -> ty <> k ->
  validate_coverage c ["coverage"] [k] = Err (expected_types_error k ty).
Proof.
  intros Ht Hty Hne. unfold validate_coverage. rewrite Ht, Hty.
  unfold str_in. simpl existsb. apply String.eqb_neq in Hne.
  now rewrite Hne.
Qed.

(** X8.  A store whose coverage type is not the one a builder expects makes
    the builder raise the [Expected types] error of [validate_coverage]
    before anything else is looked at: no variable is created, and the
    error comes before the range and type errors of [psi] and
    [backup_weight]. *)
Theorem builders_reject_other_kind (coverage_dict : Coverage)
    (t : dict string) (ty : string) (num_fac : dict Q)
    (psi backup_weight : pyarg) (delineator : string)
    (use_serviceable_demand : bool) (num_ad num_tc : Z) (h : heap) :
  c_type coverage_dict = Some t -> lookup "type" t = Some ty ->
  (ty <> "binary" ->
   create_mclp_model coverage_dict num_fac delineator use_serviceable_demand h
     = (h, Err (expected_types_error "binary" ty)) /\
   create_threshold_model coverage_dict psi delineator
                          use_serviceable_demand h
     = (h, Err (expected_types_error "binary" ty)) /\
   create_backup_model coverage_dict num_fac delineator
                       use_serviceable_demand h
     = (h, Err (expected_types_error "binary" ty)) /\
   create_lscp_model coverage_dict delineator h
     = (h, Err (expected_types_error "binary" ty))) /\
  (ty <> "partial" ->
   create_mclp_cc_model coverage_dict num_fac delineator
                        use_serviceable_demand h
     = (h, Err (expected_types_error "partial" ty)) /\
   create_cc_threshold_model coverage_dict psi delineator
                             use_serviceable_demand h
     = (h, Err (expected_types_error "partial" ty)) /\
   create_bclpcc_model coverage_dict delineator num_fac backup_weight
                       use_serviceable_demand h
     = (h, Err (expected_types_error "partial" ty))) /\
  (ty <> "traumah" ->
   create_traumah_model coverage_dict delineator num_ad num_tc h
     = (h, Err (expected_types_error "traumah" ty))).
Proof.
  intros Ht Hty. split; [|split]; intros Hne;
    pose proof (@validate_other_kind coverage_dict t ty _ Ht Hty Hne) as Hv.
  - unfold create_mclp_model, create_threshold_model, create_backup_model,
      create_lscp_model, bindM, lift. rewrite Hv. auto.
  - unfold create_mclp_cc_model, create_cc_threshold_model,
      create_bclpcc_model, bindM, lift. rewrite Hv. auto.
  - unfold create_traumah_model, bindM, lift. rewrite Hv. auto.
Qed.

Lemma builders_reject_other_kind_witness :
  create_mclp_model partial_two_units [("total", 1)] "$" false []
    = ([], Err (expected_types_error "binary" "partial")) /\
  create_bclpcc_model two_unit_store "$" [("total", 1)] ArgOther false []
    = ([], Err (expected_types_error "partial" "binary")) /\
  create_traumah_model two_unit_store "$" 1 1 []
    = ([], Err (expected_types_error "traumah" "binary")).
Proof.
  split; [|split].
  - apply (proj1 (@builders_reject_other_kind partial_two_units
                    [("mode", "coverage"); ("type", "partial")] "partial"
                    [("total", 1)] ArgOther ArgOther "$" false 1 1 []
                    eq_refl eq_refl)).
    discriminate.
  - apply (proj1 (proj2 (@builders_reject_other_kind two_unit_store
                    [("mode", "coverage"); ("type", "binary")] "binary"
                    [("total", 1)] ArgOther ArgOther "$" false 1 1 []
                    eq_refl eq_refl))).
    discriminate.
  - apply (proj2 (proj2 (@builders_reject_other_kind two_unit_store
                    [("mode", "coverage"); ("type", "binary")] "binary"
                    [("total", 1)] ArgOther ArgOther "$" false 1 1 []
                    eq_refl eq_refl))).
    discriminate.
Defined.

(** X9.  For a store that validates, [create_bclpcc_model] refuses a
    [backup_weight] below 0 or above 1 with the range error and one that is
    not a number with the type error, in both cases before it creates a
    variable. *)
Theorem bclpcc_backup_weight_checked_first (coverage_dict : Coverage)
    (delineator : string) (num_fac : dict Q) (use_serviceable_demand : bool)
    (h : heap) :
  validate_coverage coverage_dict ["coverage"] ["partial"] = OK tt ->
  (forall q, q < 0 \/ 1 < q ->
     create_bclpcc_model coverage_dict delineator num_fac (ArgNum q)
                         use_serviceable_demand h
     = (h, Err backup_weight_range_error)) /\
  create_bclpcc_model coverage_dict delineator num_fac ArgOther
                      use_serviceable_demand h
  = (h, Err weight_type_error).
Proof.
  intros Hv. split.
  - intros q Hq. unfold create_bclpcc_model, bindM, lift. rewrite Hv.
    unfold check_backup_weight.
    destruct (Qle_bool q 1) eqn:E1; simpl; auto.
    destruct (Qle_bool 0 q) eqn:E2; simpl; auto.
    apply Qle_bool_iff in E1. apply Qle_bool_iff in E2.
    destruct Hq as [Hq|Hq]; apply Qlt_not_le in Hq; contradiction.
  - unfold create_bclpcc_model, bindM, lift. rewrite Hv. reflexivity.
Qed.

Lemma bclpcc_backup_weight_checked_first_witness :
  (forall q, q < 0 \/ 1 < q ->
     create_bclpcc_model partial_two_units "$" [("total", 1)] (ArgNum q)
                         false []
     = ([], Err backup_weight_range_error)) /\
  create_bclpcc_model partial_two_units "$" [("total", 1)] ArgOther false []
  = ([], Err weight_type_error).
Proof.
  apply (@bclpcc_backup_weight_checked_first partial_two_units "$"
           [("total", 1)] false []).
  reflexivity.
Defined.

(* ================================================================== *)
(** * More on linear expressions *)
(* ================================================================== *)









Lemma objective_kept_refl p : objective_kept p p.
Proof. split; reflexivity. Qed.

Lemma objective_kept_add p p' c name :
  objective_kept p p' -> objective_kept p (add_constraint p' c name).
Proof. unfold objective_kept. simpl. auto. Qed.

(* ================================================================== *)
(** * [create_mclp_model] *)
(* ================================================================== *)


Lemma mclp_rows_total c dv fv prob :
  vars_complete c fv ->
  coverage_invariant c = true ->
  (forall d, In d (keys (c_demand c)) -> lookup d dv <> None) ->
  exists prob',
    foldE (mclp_row c dv fv) (keys (c_demand c)) prob = OK prob'.
Proof.
  intros Hc Hinv Hdv.
  destruct (@foldE_total string LpProblem (mclp_row c dv fv)
              (fun _ _ => True) (keys (c_demand c)))
    with (s0 := prob) as (p & Hp & _); eauto.
  intros done d p _ Hd.
  destruct (covering_vars_total d Hc Hinv Hd) as [ops Hops].
  unfold mclp_row. rewrite Hops. simpl.
  destruct (lookup_keys_some _ _ (proj2 (lookup_in_keys d dv) (Hdv d Hd)))
    as [y Hy].
  unfold getitem. rewrite Hy. simpl. eauto.
Qed.




(* ================================================================== *)
(** * The weighted objective *)
(* ================================================================== *)















(* ================================================================== *)
(** * The facility-count rows *)
(* ================================================================== *)










Lemma facility_count_constraints_no_total c num_fac fv p :
  vars_complete c fv ->
  lookup "total" num_fac = None ->
  facility_count_constraints c num_fac fv p = Err (KeyError "total").
Proof.
  intros Hc Htotal. unfold facility_count_constraints.
  destruct (sum_all_facilities_total Hc) as [ts Hts]. rewrite Hts. simpl.
  unfold getitem. now rewrite Htotal.
Qed.

Lemma cc_rows_total_numeric c dvar dv fv prob :
  vars_complete c fv ->
  coverage_invariant c = true ->
  numeric_weights c dvar = true ->
  (forall d, In d (keys (c_demand c)) -> lookup d dv <> None) ->
  exists prob',
    foldE (cc_rows c dvar dv fv) (keys (c_demand c)) prob = OK prob'.
Proof.
  intros Hc Hinv Hnum Hdv.
  destruct (@foldE_total string LpProblem (cc_rows c dvar dv fv)
              (fun _ _ => True) (keys (c_demand c)))
    with (s0 := prob) as (p & Hp & _); eauto.
  intros done d p _ Hd.
  destruct (weighted_covering_terms_total d Hc Hinv Hd) as [ops Hops].
  unfold cc_rows. rewrite Hops. simpl.
  destruct (lookup_keys_some _ _ (proj2 (lookup_in_keys d dv) (Hdv d Hd)))
    as [y Hy].
  unfold getitem. rewrite Hy. simpl.
  destruct (numeric_weights_weight c dvar d Hnum Hd) as [q Hq].
  rewrite Hq. simpl. eauto.
Qed.

(** X13.  When [num_fac] has no ["total"], [create_mclp_model],
    [create_backup_model] and [create_mclp_cc_model] raise
    [KeyError("total")] for a store that passes their validation, keeps the
    store invariant and has numeric demand weights.  The lookup is reached
    only after the rest is built: the demand and the facility variables are
    created, the objective terms and every coverage row are computed
    without an exception, and the variables created stay created when the
    exception is raised. *)
Theorem missing_total_is_key_error (coverage_dict : Coverage)
    (num_fac : dict Q) (delineator : string) (use_serviceable_demand : bool)
    (h : heap) :
  coverage_invariant coverage_dict = true ->
  numeric_weights coverage_dict (demand_var_of use_serviceable_demand)
    = true ->
  lookup "total" num_fac = None ->
  (validate_coverage coverage_dict ["coverage"] ["binary"] = OK tt ->
   (exists h1 demand_vars h2 facility_vars obj prob,
     create_demand_vars coverage_dict delineator "Y" (Some 0) (Some 1) LpInteger h
       = (h1, OK demand_vars) /\
     create_facility_vars coverage_dict delineator (Some 0) (Some 1) LpInteger h1
       = (h2, OK facility_vars) /\
     weighted_demand_terms coverage_dict (demand_var_of use_serviceable_demand) demand_vars
       = OK obj /\
     foldE (mclp_row coverage_dict demand_vars facility_vars)
           (keys (c_demand coverage_dict))
           (set_objective (new_LpProblem "MCLP" LpMaximize) (lpSum obj))
       = OK prob /\
     create_mclp_model coverage_dict num_fac delineator use_serviceable_demand h
       = (h2, Err (KeyError "total"))) /\
   (exists h1 demand_vars h2 facility_vars obj prob,
     create_demand_vars coverage_dict delineator "U" (Some 0) (Some 1) LpInteger h
       = (h1, OK demand_vars) /\
     create_facility_vars coverage_dict delineator (Some 0) None LpInteger h1
       = (h2, OK facility_vars) /\
     weighted_demand_terms coverage_dict (demand_var_of use_serviceable_demand) demand_vars
       = OK obj /\
     foldE (binary_row coverage_dict 1 demand_vars facility_vars)
           (keys (c_demand coverage_dict))
           (set_objective (new_LpProblem "BCLP" LpMaximize) (lpSum obj))
       = OK prob /\
     create_backup_model coverage_dict num_fac delineator use_serviceable_demand h
       = (h2, Err (KeyError "total")))) /\
  (validate_coverage coverage_dict ["coverage"] ["partial"] = OK tt ->
   exists h1 demand_vars h2 facility_vars obj prob,
     create_demand_vars coverage_dict delineator "Y" (Some 0) None LpContinuous h
       = (h1, OK demand_vars) /\
     create_facility_vars coverage_dict delineator (Some 0) (Some 1) LpInteger h1
       = (h2, OK facility_vars) /\
     weighted_demand_terms coverage_dict (demand_var_of use_serviceable_demand) demand_vars
       = OK obj /\
     foldE (cc_rows coverage_dict (demand_var_of use_serviceable_demand)
                    demand_vars facility_vars)
           (keys (c_demand coverage_dict))
           (set_objective (new_LpProblem "MCLP" LpMaximize) (lpSum obj))
       = OK prob /\
     create_mclp_cc_model coverage_dict num_fac delineator use_serviceable_demand h
       = (h2, Err (KeyError "total"))).
Proof.
  intros Hinv Hnum Htotal. split; [intros Hv; split | intros Hv].
  - destruct (create_demand_vars_spec coverage_dict delineator "Y"
                (Some 0) (Some 1) LpInteger h)
      as (h1 & dv & Hdv & _ & Hdvc & _).
    destruct (create_facility_vars_spec coverage_dict delineator
                (Some 0) (Some 1) LpInteger h1)
      as (h2 & fv & Hfv & _ & Hfvc & _).
    destruct (@weighted_demand_terms_total coverage_dict
                (demand_var_of use_serviceable_demand) dv Hnum Hdvc)
      as [obj Hobj].
    destruct (@mclp_rows_total coverage_dict dv fv
                (set_objective (new_LpProblem "MCLP" LpMaximize) (lpSum obj))
                Hfvc Hinv Hdvc) as [p1 Hp1].
    exists h1, dv, h2, fv, obj, p1. repeat (split; [assumption|]).
    unfold create_mclp_model, bindM, lift.
    rewrite Hv, Hdv, Hfv, Hobj, Hp1.
    now rewrite (@facility_count_constraints_no_total coverage_dict num_fac
                   fv p1 Hfvc Htotal).
  - destruct (create_demand_vars_spec coverage_dict delineator "U"
                (Some 0) (Some 1) LpInteger h)
      as (h1 & dv & Hdv & _ & Hdvc & _).
    destruct (create_facility_vars_spec coverage_dict delineator
                (Some 0) None LpInteger h1)
      as (h2 & fv & Hfv & _ & Hfvc & _).
    destruct (@weighted_demand_terms_total coverage_dict
                (demand_var_of use_serviceable_demand) dv Hnum Hdvc)
      as [obj Hobj].
    destruct (@binary_rows_total coverage_dict 1 dv fv
                (set_objective (new_LpProblem "BCLP" LpMaximize) (lpSum obj))
                Hfvc Hinv Hdvc) as [p1 Hp1].
    exists h1, dv, h2, fv, obj, p1. repeat (split; [assumption|]).
    unfold create_backup_model, bindM, lift.
    rewrite Hv, Hdv, Hfv, Hobj, Hp1.
    now rewrite (@facility_count_constraints_no_total coverage_dict num_fac
                   fv p1 Hfvc Htotal).
  - destruct (create_demand_vars_spec coverage_dict delineator "Y"
                (Some 0) None LpContinuous h)
      as (h1 & dv & Hdv & _ & Hdvc & _).
    destruct (create_facility_vars_spec coverage_dict delineator
                (Some 0) (Some 1) LpInteger h1)
      as (h2 & fv & Hfv & _ & Hfvc & _).
    destruct (@weighted_demand_terms_total coverage_dict
                (demand_var_of use_serviceable_demand) dv Hnum Hdvc)
      as [obj Hobj].
    destruct (@cc_rows_total_numeric coverage_dict
                (demand_var_of use_serviceable_demand) dv fv
                (set_objective (new_LpProblem "MCLP" LpMaximize) (lpSum obj))
                Hfvc Hinv Hnum Hdvc) as [p1 Hp1].
    exists h1, dv, h2, fv, obj, p1. repeat (split; [assumption|]).
    unfold create_mclp_cc_model, bindM, lift.
    rewrite Hv, Hdv, Hfv, Hobj, Hp1.
    now rewrite (@facility_count_constraints_no_total coverage_dict num_fac
                   fv p1 Hfvc Htotal).
Qed.

Lemma missing_total_is_key_error_witness :
  ((exists h1 demand_vars h2 facility_vars obj prob,
     create_demand_vars covered_and_uncovered "$" "Y" (Some 0) (Some 1) LpInteger []
       = (h1, OK demand_vars) /\
     create_facility_vars covered_and_uncovered "$" (Some 0) (Some 1) LpInteger h1
       = (h2, OK facility_vars) /\
     weighted_demand_terms covered_and_uncovered (demand_var_of false) demand_vars
       = OK obj /\
     foldE (mclp_row covered_and_uncovered demand_vars facility_vars)
           (keys (c_demand covered_and_uncovered))
           (set_objective (new_LpProblem "MCLP" LpMaximize) (lpSum obj))
       = OK prob /\
     create_mclp_model covered_and_uncovered [("T", 1)] "$" false []
       = (h2, Err (KeyError "total"))) /\
   (exists h1 demand_vars h2 facility_vars obj prob,
     create_demand_vars covered_and_uncovered "$" "U" (Some 0) (Some 1) LpInteger []
       = (h1, OK demand_vars) /\
     create_facility_vars covered_and_uncovered "$" (Some 0) None LpInteger h1
       = (h2, OK facility_vars) /\
     weighted_demand_terms covered_and_uncovered (demand_var_of false) demand_vars
       = OK obj /\
     foldE (binary_row covered_and_uncovered 1 demand_vars facility_vars)
           (keys (c_demand covered_and_uncovered))
           (set_objective (new_LpProblem "BCLP" LpMaximize) (lpSum obj))
       = OK prob /\
     create_backup_model covered_and_uncovered [("T", 1)] "$" false []
       = (h2, Err (KeyError "total")))) /\
  (exists h1 demand_vars h2 facility_vars obj prob,
     create_demand_vars partial_two_units "$" "Y" (Some 0) None LpContinuous []
       = (h1, OK demand_vars) /\
     create_facility_vars partial_two_units "$" (Some 0) (Some 1) LpInteger h1
       = (h2, OK facility_vars) /\
     weighted_demand_terms partial_two_units (demand_var_of false) demand_vars
       = OK obj /\
     foldE (cc_rows partial_two_units (demand_var_of false)
                    demand_vars facility_vars)
           (keys (c_demand partial_two_units))
           (set_objective (new_LpProblem "MCLP" LpMaximize) (lpSum obj))
       = OK prob /\
     create_mclp_cc_model partial_two_units [] "$" false []
       = (h2, Err (KeyError "total"))).
Proof.
  split.
  - apply (proj1 (@missing_total_is_key_error covered_and_uncovered
                    [("T", 1)] "$" false [] eq_refl eq_refl eq_refl)).
    reflexivity.
  - apply (proj2 (@missing_total_is_key_error partial_two_units
                    [] "$" false [] eq_refl eq_refl eq_refl)).
    reflexivity.
Defined.

(* ================================================================== *)
(** * More on [create_lscp_model] *)
(* ================================================================== *)

Lemma lscp_rows_spec c delin fv p0 h0 :
  vars_complete c fv ->
  coverage_invariant c = true ->
  exists h' prob,
    foldM (lscp_row c delin fv) (keys (c_demand c)) p0 h0 = (h', OK prob) /\
    objective_kept p0 prob /\
    forall d, In d (keys (c_demand c)) ->
      exists ops,
        covering_vars c fv d = OK ops /\
        match ops with
        | [] =>
            exists v,
              is_var ("__dummy" +++ delin +++ d) (Some 0) (Some 0) LpInteger v /\
              In (Some ("D" +++ d), expr_ge (lpSum [OVar v]) 1)
                 (constraints prob)
        | _ :: _ =>
            In (Some ("D" +++ d), expr_ge (lpSum ops) 1) (constraints prob)
        end.
Proof.
  intros Hfvc Hinv.
  destruct (@foldM_total heap string LpProblem (lscp_row c delin fv)
              (fun done p (_ : heap) =>
                 objective_kept p0 p /\
                 forall d, In d done ->
                   exists ops,
                     covering_vars c fv d = OK ops /\
                     match ops with
                     | [] =>
                         exists v,
                           is_var ("__dummy" +++ delin +++ d)
                                  (Some 0) (Some 0) LpInteger v /\
                           In (Some ("D" +++ d), expr_ge (lpSum [OVar v]) 1)
                              (constraints p)
                     | _ :: _ =>
                         In (Some ("D" +++ d), expr_ge (lpSum ops) 1)
                            (constraints p)
                     end)
              (keys (c_demand c)))
    with (s0 := p0) (t0 := h0) as (h' & prob & Hrun & Hk & HI).
  - intros done d1 p t [Hk HI] Hd1.
    destruct (covering_vars_total d1 Hfvc Hinv Hd1) as [ops Hops].
    rewrite (@lscp_row_run c delin fv p d1 t ops Hops).
    assert (Hold : forall q name d,
               In d done ->
               exists ops0,
                 covering_vars c fv d = OK ops0 /\
                 match ops0 with
                 | [] =>
                     exists v,
                       is_var ("__dummy" +++ delin +++ d)
                              (Some 0) (Some 0) LpInteger v /\
                       In (Some ("D" +++ d), expr_ge (lpSum [OVar v]) 1)
                          (constraints (add_constraint p q name))
                 | _ :: _ =>
                     In (Some ("D" +++ d), expr_ge (lpSum ops0) 1)
                        (constraints (add_constraint p q name))
                 end).
    { intros q name d Hd. destruct (HI d Hd) as (ops0 & H0 & Hrow).
      exists ops0. split; auto. destruct ops0.
      - destruct Hrow as (v & Hvar & Hrow). exists v. split; auto.
        apply (rows_kept_add _ _ (rows_kept_refl p)). exact Hrow.
      - apply (rows_kept_add _ _ (rows_kept_refl p)). exact Hrow. }
    destruct ops as [|o ops].
    + eexists _, _. split; [reflexivity|]. split.
      * now apply objective_kept_add.
      * intros d Hd. apply in_app_or in Hd. destruct Hd as [Hd|[<-|[]]].
        -- apply Hold. exact Hd.
        -- exists []. split; auto.
           exists (mkLpVariable (length t) ("__dummy" +++ delin +++ d1)
                                (Some 0) (Some 0) LpInteger).
           split; [repeat split|]. apply in_add_constraint.
    + eexists _, _. split; [reflexivity|]. split.
      * now apply objective_kept_add.
      * intros d Hd. apply in_app_or in Hd. destruct Hd as [Hd|[<-|[]]].
        -- apply Hold. exact Hd.
        -- exists (o :: ops). split; auto. apply in_add_constraint.
  - split; [apply objective_kept_refl|]. intros d [].
  - exists h', prob. auto.
Qed.

(** A run of [create_lscp_model] on a store that validates and keeps the
    store invariant. *)
Lemma lscp_model_spec c delin h :
  validate_coverage c ["coverage"] ["binary"] = OK tt ->
  coverage_invariant c = true ->
  exists h1 h2 h' dv fv ts prob,
    create_lscp_model c delin h = (h', OK prob) /\
    create_demand_vars c delin "Y" (Some 0) (Some 1) LpInteger h
      = (h1, OK dv) /\
    create_facility_vars c delin (Some 0) (Some 1) LpInteger h1
      = (h2, OK fv) /\
    sum_all_facilities c fv = OK ts /\
    objective_kept (set_objective (new_LpProblem "LSCP" LpMinimize)
                                  (lpSum ts)) prob /\
    forall d, In d (keys (c_demand c)) ->
      exists ops,
        covering_vars c fv d = OK ops /\
        match ops with
        | [] =>
            exists v,
              is_var ("__dummy" +++ delin +++ d) (Some 0) (Some 0) LpInteger v /\
              In (Some ("D" +++ d), expr_ge (lpSum [OVar v]) 1)
                 (constraints prob)
        | _ :: _ =>
            In (Some ("D" +++ d), expr_ge (lpSum ops) 1) (constraints prob)
        end.
Proof.
  intros Hv Hinv.
  destruct (create_demand_vars_spec c delin "Y" (Some 0) (Some 1) LpInteger h)
    as (h1 & dv & Hdv & _ & _ & _).
  destruct (create_facility_vars_spec c delin (Some 0) (Some 1) LpInteger h1)
    as (h2 & fv & Hfv & _ & Hfvc & _).
  destruct (sum_all_facilities_total Hfvc) as [ts Hts].
  destruct (@lscp_rows_spec c delin fv
              (set_objective (new_LpProblem "LSCP" LpMinimize) (lpSum ts))
              h2 Hfvc Hinv) as (h' & prob & Hrun & Hk & Hrows).
  exists h1, h2, h', dv, fv, ts, prob.
  split; [|auto 10].
  unfold create_lscp_model, bindM, lift.
  now rewrite Hv, Hdv, Hfv, Hts.
Qed.



(** X15.  When a demand unit of the store has no covering facility, the
    problem [create_lscp_model] returns has no feasible assignment: the
    placeholder of that demand unit is bounded by 0 and its row asks for at
    least 1. *)
Theorem lscp_uncovered_demand_infeasible (coverage_dict : Coverage)
    (delineator : string) (h : heap) (d : string) (r : DemandRecord) :
  validate_coverage coverage_dict ["coverage"] ["binary"] = OK tt ->
  coverage_invariant coverage_dict = true ->
  lookup d (c_demand coverage_dict) = Some r ->
  covering_pairs r = [] ->
  exists h' prob,
    create_lscp_model coverage_dict delineator h = (h', OK prob) /\
    forall a, ~ feasible a prob.
Proof.
  intros Hv Hinv Hr Hempty.
  destruct (@lscp_model_spec coverage_dict delineator h Hv Hinv)
    as (h1 & h2 & h' & dv & fv & ts & prob & Hrun & Hdv & Hfv & Hts & Hk
        & Hrows).
  exists h', prob. split; [exact Hrun|].
  destruct (Hrows d) as (ops & Hops & Hrow).
  { apply lookup_in_keys. congruence. }
  destruct (covering_vars_ok _ _ _ Hops) as (r' & xs & Hr' & -> & Hxs).
  assert (r' = r) by congruence. subst r'.
  rewrite Hempty in Hxs. inversion Hxs. subst xs.
  simpl map in Hrow. cbv iota in Hrow. destruct Hrow as (v & Hvar & Hrow).
  intros a [Hsat Hdom].
  specialize (Hsat _ Hrow). unfold satisfies, expr_ge in Hsat.
  cbn [snd c_sense c_lhs c_rhs] in Hsat.
  rewrite (eval_lpSum_vars a [v]) in Hsat. simpl in Hsat.
  assert (Hin : In v (problem_vars prob)).
  { apply (row_vars_in_problem _ _ _ _ Hrow). simpl. auto. }
  destruct (Hdom v Hin) as (_ & Hup & _).
  destruct Hvar as (_ & _ & Hu & _).
  specialize (Hup 0 Hu). lra.
Qed.

Lemma lscp_uncovered_demand_infeasible_witness :
  exists h' prob,
    create_lscp_model covered_and_uncovered "$" [] = (h', OK prob) /\
    forall a, ~ feasible a prob.
Proof.
  exact (@lscp_uncovered_demand_infeasible covered_and_uncovered "$" [] "d2"
           (mkDemandRecord 20 (VNum 0) [("T", CovDict [])])
           eq_refl eq_refl eq_refl eq_refl).
Defined.

(* ================================================================== *)
(** * More on the threshold builders *)
(* ================================================================== *)






Lemma weighted_values_scale a k wys :
  weighted_values a (map (fun wy => (k * fst wy, snd wy)) wys)
  == k * weighted_values a wys.
Proof.
  unfold weighted_values.
  induction wys as [|[w y] wys IH]; cbn [map fold_right fst snd].
  - ring.
  - rewrite IH. ring.
Qed.










(* ================================================================== *)
(** * The rows of the partial-coverage builders *)
(* ================================================================== *)










(* ================================================================== *)
(** * More on [create_traumah_model] *)
(* ================================================================== *)










(** The three indicators of the demand units. *)
Lemma trauma_demand_vars_spec delin l h0 :
  exists h' dv gv av,
    foldM (create_trauma_demand_vars delin) l ([], [], []) h0
      = (h', OK (dv, gv, av)) /\
    (forall d, In d l ->
       lookup d dv <> None /\ lookup d gv <> None /\ lookup d av <> None) /\
    (forall d x, lookup d dv = Some x ->
       is_var ("Y" +++ delin +++ d) (Some 0) (Some 1) LpInteger x) /\
    (forall d x, lookup d gv = Some x ->
       is_var ("V" +++ delin +++ d) (Some 0) (Some 1) LpInteger x) /\
    (forall d x, lookup d av = Some x ->
       is_var ("U" +++ delin +++ d) (Some 0) (Some 1) LpInteger x).
Proof.
  destruct (@foldM_total heap string
              (dict LpVariable * dict LpVariable * dict LpVariable)
              (create_trauma_demand_vars delin)
              (fun done vars (_ : heap) =>
                 (forall d, In d done ->
                    lookup d (fst (fst vars)) <> None /\
                    lookup d (snd (fst vars)) <> None /\
                    lookup d (snd vars) <> None) /\
                 (forall d x, lookup d (fst (fst vars)) = Some x ->
                    is_var ("Y" +++ delin +++ d) (Some 0) (Some 1)
                           LpInteger x) /\
                 (forall d x, lookup d (snd (fst vars)) = Some x ->
                    is_var ("V" +++ delin +++ d) (Some 0) (Some 1)
                           LpInteger x) /\
                 (forall d x, lookup d (snd vars) = Some x ->
                    is_var ("U" +++ delin +++ d) (Some 0) (Some 1)
                           LpInteger x)) l)
    with (s0 := (@nil (string * LpVariable), @nil (string * LpVariable),
                 @nil (string * LpVariable))) (t0 := h0)
    as (h' & [[dv gv] av] & Hrun & HI).
  - intros done d [[dv gv] av] t (Hc & Hy & Hv & Hu) _.
    eexists _, _. split; [reflexivity|]. cbn [fst snd].
    split; [|split; [|split]].
    + intros d' Hd'. rewrite !lookup_dict_set.
      destruct (String.eqb d' d) eqn:E;
        [repeat split; discriminate|].
      apply in_app_or in Hd'. destruct Hd' as [Hd'|[<-|[]]].
      * exact (Hc d' Hd').
      * rewrite String.eqb_refl in E. discriminate.
    + intros d' x. rewrite lookup_dict_set.
      destruct (String.eqb d' d) eqn:E; [|apply Hy].
      apply String.eqb_eq in E. subst d'. intros [= <-]. repeat split.
    + intros d' x. rewrite lookup_dict_set.
      destruct (String.eqb d' d) eqn:E; [|apply Hv].
      apply String.eqb_eq in E. subst d'. intros [= <-]. repeat split.
    + intros d' x. rewrite lookup_dict_set.
      destruct (String.eqb d' d) eqn:E; [|apply Hu].
      apply String.eqb_eq in E. subst d'. intros [= <-]. repeat split.
  - cbn [fst snd]. split; [intros d []|].
    split; [|split]; intros d x; discriminate.
  - exists h', dv, gv, av. split; [exact Hrun|]. exact HI.
Qed.






(** ** The pairing rows *)









(** ** The reach rows *)









(* ================================================================== *)
(** * More on [create_bclpcc_model] *)
(* ================================================================== *)









(* ================================================================== *)
(** * The objective and the linking rows of the threshold builders *)
(* ================================================================== *)




(* ================================================================== *)
(** * [validate_coverage] and the facility types of the trauma model *)
(* ================================================================== *)

(** X23.  [validate_coverage] accepts exactly the stores that have a type
    dictionary whose ["type"] is one of [types] and whose ["mode"] is one
    of [modes].  The type is looked at first: a type outside [types] gives
    the [Expected types] error whatever the mode is. *)
Theorem validate_accepts_exactly (coverage_dict : Coverage)
    (modes types : list string) :
  (validate_coverage coverage_dict modes types = OK tt <->
   exists t ty mode,
     c_type coverage_dict = Some t /\
     lookup "type" t = Some ty /\ In ty types /\
     lookup "mode" t = Some mode /\ In mode modes) /\
  (forall t ty,
     c_type coverage_dict = Some t -> lookup "type" t = Some ty ->
     ~ In ty types ->
     validate_coverage coverage_dict modes types
     = Err (ValueError (Msg "Expected types: '{}' got type '{}'"
                            [AStrList types; AStr ty]))).
Proof.
  split; [split|].
  - unfold validate_coverage.
    destruct (c_type coverage_dict) as [t|]; [|discriminate].
    destruct (lookup "type" t) as [ty|] eqn:Hty; [|discriminate].
    destruct (str_in ty types) eqn:Ety; simpl; [|discriminate].
    destruct (lookup "mode" t) as [mode|] eqn:Hm; [|discriminate].
    destruct (str_in mode modes) eqn:Em; simpl; [|discriminate].
    intros _. exists t, ty, mode.
    apply str_in_true in Ety. apply str_in_true in Em. auto.
  - intros (t & ty & mode & Ht & Hty & Hin & Hm & Hinm).
    unfold validate_coverage. rewrite Ht, Hty.
    apply str_in_true in Hin. apply str_in_true in Hinm.
    rewrite Hin. simpl. rewrite Hm, Hinm. reflexivity.
  - intros t ty Ht Hty Hnot. unfold validate_coverage. rewrite Ht, Hty.
    apply str_in_false in Hnot. rewrite Hnot. reflexivity.
Qed.

Lemma demand_weights_numeric c : numeric_weights c "demand" = true.
Proof.
  unfold numeric_weights. apply forallb_forall. intros [d r] _. reflexivity.
Qed.

(** X24.  A store that passes the validation of [create_traumah_model] but
    has no facility type ["AirDepot"] makes the builder raise
    [KeyError("AirDepot")]; one that has ["AirDepot"] but no
    ["TraumaCenter"] makes it raise [KeyError("TraumaCenter")]. *)
Theorem traumah_needs_both_facility_types (coverage_dict : Coverage)
    (delineator : string) (num_ad num_tc : Z) (h : heap) :
  validate_coverage coverage_dict ["coverage"] ["traumah"] = OK tt ->
  (lookup "AirDepot" (c_facilities coverage_dict) = None ->
   exists h', create_traumah_model coverage_dict delineator num_ad num_tc h
              = (h', Err (KeyError "AirDepot"))) /\
  (lookup "AirDepot" (c_facilities coverage_dict) <> None ->
   lookup "TraumaCenter" (c_facilities coverage_dict) = None ->
   exists h', create_traumah_model coverage_dict delineator num_ad num_tc h
              = (h', Err (KeyError "TraumaCenter"))).
Proof.
  intros Hv.
  destruct (trauma_demand_vars_spec delineator
              (keys (c_demand coverage_dict)) h)
    as (h1 & dv & gv & av & Hvars & Hc & _).
  destruct (create_facility_vars_spec coverage_dict delineator
              (Some 0) (Some 1) LpInteger h1)
    as (h2 & fv & Hfv & _ & Hfvc & _).
  split.
  - intros Hnone. exists h2.
    unfold create_traumah_model, bindM, lift.
    rewrite Hv, Hvars, Hfv. unfold create_adtc_vars, bindM, lift, getitem.
    now rewrite Hnone.
  - intros Hsome Hnone.
    destruct (lookup "AirDepot" (c_facilities coverage_dict)) as [ads|] eqn:Hads;
      [|congruence].
    destruct ads as [|[a m] ads].
    + destruct (@weighted_demand_terms_total coverage_dict "demand" dv
                  (demand_weights_numeric coverage_dict)
                  (fun d Hd => proj1 (Hc d Hd))) as [obj Hobj].
      exists h2. unfold create_traumah_model, bindM, lift.
      rewrite Hv, Hvars, Hfv.
      unfold create_adtc_vars, bindM, lift, getitem. rewrite Hads.
      cbn [keys map foldM ret]. rewrite Hobj.
      unfold count_row, getitem. rewrite Hads, Hnone. reflexivity.
    + exists h2. unfold create_traumah_model, bindM, lift.
      rewrite Hv, Hvars, Hfv.
      unfold create_adtc_vars, bindM, lift, getitem. rewrite Hads.
      cbn [keys map foldM]. unfold bindM, lift. rewrite Hnone. reflexivity.
Qed.

Lemma traumah_needs_both_facility_types_witness :
  (lookup "AirDepot"
          (c_facilities
             (mkCoverage (coverage_kind "traumah")
                         [("TraumaCenter", [("c", "site")])] [] 0)) = None ->
   exists h',
     create_traumah_model
       (mkCoverage (coverage_kind "traumah")
                   [("TraumaCenter", [("c", "site")])] [] 0) "$" 1 1 []
     = (h', Err (KeyError "AirDepot"))) /\
  (lookup "AirDepot"
          (c_facilities
             (mkCoverage (coverage_kind "traumah")
                         [("TraumaCenter", [("c", "site")])] [] 0)) <> None ->
   lookup "TraumaCenter"
          (c_facilities
             (mkCoverage (coverage_kind "traumah")
                         [("TraumaCenter", [("c", "site")])] [] 0)) = None ->
   exists h',
     create_traumah_model
       (mkCoverage (coverage_kind "traumah")
                   [("TraumaCenter", [("c", "site")])] [] 0) "$" 1 1 []
     = (h', Err (KeyError "TraumaCenter"))).
Proof.
  apply (@traumah_needs_both_facility_types
           (mkCoverage (coverage_kind "traumah")
                       [("TraumaCenter", [("c", "site")])] [] 0) "$" 1 1 []).
  reflexivity.
Defined.
